(** * arr-monitor-manager: the quality gate, the webhook and force-scan
      orchestrators, the Sonarr/Radarr client and the configuration store.

    The Python sources [app.py], [api_client.py] and [config_manager.py] are
    embedded as Rocq functions over a small model of Python values.  Remote
    calls go through an oracle that answers each HTTP request from the history
    of the exchanges made so far; every exchange and every log record is kept
    in the state that the functions thread, so that "no remote call" and "exactly
    one call" are statements about that state. *)

From Stdlib Require Import ZArith String Ascii List Bool Lia.
From stdpp Require Import base gmap strings list.

Local Open Scope Z_scope.

(** ** Strings as Python uses them here

    Strings are sequences of 8-bit characters.  [lower] and [upper] fold
    the letters A-Z and a-z and leave every other character alone: on ASCII
    strings ([is_ascii]) they are [str.lower] and [str.upper] of Python.
    Outside ASCII Python folds by the Unicode tables, which the model does
    not have: what is stated about case holds for ASCII strings. *)

Module Str.

Definition is_ascii_char (c : ascii) : bool := (N_of_ascii c <? 128)%N.

Fixpoint is_ascii (s : string) : bool :=
  match s with
  | EmptyString => true
  | String c s' => is_ascii_char c && is_ascii s'
  end.

Definition lower_char (c : ascii) : ascii :=
  let n := N_of_ascii c in
  if ((65 <=? n) && (n <=? 90))%N then ascii_of_N (n + 32) else c.

Definition upper_char (c : ascii) : ascii :=
  let n := N_of_ascii c in
  if ((97 <=? n) && (n <=? 122))%N then ascii_of_N (n - 32) else c.

Fixpoint lower (s : string) : string :=
  match s with
  | EmptyString => EmptyString
  | String c s' => String (lower_char c) (lower s')
  end.

Fixpoint upper (s : string) : string :=
  match s with
  | EmptyString => EmptyString
  | String c s' => String (upper_char c) (upper s')
  end.

(** [needle in hay] on two strings. *)
Fixpoint contains (needle hay : string) : bool :=
  String.prefix needle hay ||
  match hay with
  | EmptyString => false
  | String _ hay' => contains needle hay'
  end.

(** [s.rstrip(c)] for a one-character argument. *)
Fixpoint rstrip (c : ascii) (s : string) : string :=
  match s with
  | EmptyString => EmptyString
  | String a s' =>
      match rstrip c s' with
      | EmptyString => if Ascii.eqb a c then EmptyString else String a EmptyString
      | r => String a r
      end
  end.

(** The characters of a string, as iteration over a [str] yields them. *)
Fixpoint chars (s : string) : list string :=
  match s with
  | EmptyString => []
  | String c s' => String c EmptyString :: chars s'
  end.

Definition is_empty (s : string) : bool :=
  match s with EmptyString => true | _ => false end.

End Str.

(** ** Python values

    [atom] are the scalars a configuration record holds (what [add_config]
    stores and YAML scalars load to); [pyval] are decoded JSON documents.
    Floats are not modelled.  A [dict] inside a [pyval] is an association
    list in insertion order, read at the first binding of a key. *)

Inductive atom : Type :=
| ANone
| ABool (b : bool)
| AInt (z : Z)
| AStr (s : string).

#[local] Set Warnings "-register-all".
Inductive pyval : Type :=
| PAtom (a : atom)
| PList (l : list pyval)
| PDict (d : list (string * pyval)).

Abbreviation PNone := (PAtom ANone).
Abbreviation PBool b := (PAtom (ABool b)).
Abbreviation PInt z := (PAtom (AInt z)).
Abbreviation PStr s := (PAtom (AStr s)).

Inductive exn : Type := TypeError | AttributeError | KeyError.

Inductive result (A : Type) : Type :=
| Ok (a : A)
| Raise (e : exn).
Arguments Ok {A} a.
Arguments Raise {A} e.

Module Py.

(** Truth value testing. *)
Definition atom_truthy (a : atom) : bool :=
  match a with
  | ANone => false
  | ABool b => b
  | AInt z => negb (z =? 0)
  | AStr s => negb (Str.is_empty s)
  end.

Definition truthy (v : pyval) : bool :=
  match v with
  | PAtom a => atom_truthy a
  | PList l => match l with [] => false | _ => true end
  | PDict d => match d with [] => false | _ => true end
  end.

Definition is_none (v : pyval) : bool :=
  match v with PNone => true | _ => false end.

(** [bool] is a subclass of [int]: both compare as numbers. *)
Definition numeric (a : atom) : option Z :=
  match a with
  | AInt z => Some z
  | ABool b => Some (Z.b2z b)
  | _ => None
  end.

(** [a >= b] on scalars. *)
Definition atom_ge (a b : atom) : result bool :=
  match numeric a, numeric b with
  | Some x, Some y => Ok (y <=? x)
  | _, _ =>
      match a, b with
      | AStr s, AStr t => Ok (String.leb t s)
      | _, _ => Raise TypeError
      end
  end.

(** [v >= b] where [b] is a scalar: a list or a dict never compares with
    a scalar. *)
Definition ge (v : pyval) (b : atom) : result bool :=
  match v with
  | PAtom a => atom_ge a b
  | _ => Raise TypeError
  end.

(** [v != s] for a string literal [s]. *)
Definition ne_str (v : pyval) (s : string) : bool :=
  match v with
  | PStr s' => negb (String.eqb s' s)
  | _ => true
  end.

Fixpoint assoc (d : list (string * pyval)) (k : string) : option pyval :=
  match d with
  | [] => None
  | (k', v) :: d' => if String.eqb k' k then Some v else assoc d' k
  end.

(** [d[k] = x] on a dict: rebinds [k] in place or appends it. *)
Fixpoint assoc_set (d : list (string * pyval)) (k : string) (x : pyval)
  : list (string * pyval) :=
  match d with
  | [] => [(k, x)]
  | (k', v) :: d' =>
      if String.eqb k' k then (k', x) :: d' else (k', v) :: assoc_set d' k x
  end.

(** [v.get(k, default)]: only a dict has the method. *)
Definition get (v : pyval) (k : string) (default : pyval) : result pyval :=
  match v with
  | PDict d => Ok (match assoc d k with Some x => x | None => default end)
  | _ => Raise AttributeError
  end.

(** [v[k]] for a string key, as the sources use it on dicts. *)
Definition getitem (v : pyval) (k : string) : result pyval :=
  match v with
  | PDict d => match assoc d k with Some x => Ok x | None => Raise KeyError end
  | _ => Raise TypeError
  end.

(** [v[k] = x] for a string key. *)
Definition setitem (v : pyval) (k : string) (x : pyval) : result pyval :=
  match v with
  | PDict d => Ok (PDict (assoc_set d k x))
  | _ => Raise TypeError
  end.

(** The items [for _ in v] runs through. *)
Definition iter (v : pyval) : result (list pyval) :=
  match v with
  | PList l => Ok l
  | PStr s => Ok (map (fun c => PStr c) (Str.chars s))
  | PDict d => Ok (map (fun kv => PStr (fst kv)) d)
  | _ => Raise TypeError
  end.

(** [v.lower()]: only a [str] has the method. *)
Definition lower (v : pyval) : result string :=
  match v with
  | PStr s => Ok (Str.lower s)
  | _ => Raise AttributeError
  end.

Definition is_list (v : pyval) : bool :=
  match v with PList _ => true | _ => false end.

Definition is_dict (v : pyval) : bool :=
  match v with PDict _ => true | _ => false end.

End Py.

(** ** Formatted strings, requests, responses and log records

    An f-string is kept as its pieces: the literal text and the values put
    into it.  The text of a formatted value is not computed. *)

Definition dquote : string := String (ascii_of_nat 34) EmptyString.

Inductive piece : Type :=
| Lit (s : string)
| Val (v : pyval)
| ExnText (e : exn).

Record request : Type := mkRequest {
  verb : string;            (* the [requests] function used: GET, POST, PUT, DELETE *)
  url : list piece;
  api_key : atom;           (* the X-Api-Key header *)
  body : pyval              (* the [json=] argument, [PNone] when there is none *)
}.

(** What one HTTP exchange comes to inside [_make_request]. *)
Inductive response : Type :=
| RespJson (v : pyval)        (* 2xx status, the body decodes as JSON *)
| RespNoJson                  (* 2xx status, the body is not JSON *)
| RespTimeout
| RespConnectionError
| RespHTTPError               (* [raise_for_status] raised *)
| RespOtherError.

Inductive log_level : Type := DEBUG | INFO | WARNING | ERROR.

Record log_record : Type := mkLog {
  level : log_level;
  message : list piece
}.

(** The state threaded through the program: the requests sent, each with
    the outcome it had, oldest first, and the records written to the
    logger. *)
Record world : Type := mkWorld {
  trace : list (request * response);
  logs : list log_record
}.

Definition M (A : Type) : Type := world -> result A * world.

Definition ret {A} (a : A) : M A := fun w => (Ok a, w).

Definition bind {A B} (m : M A) (k : A -> M B) : M B :=
  fun w =>
    match m w with
    | (Ok a, w') => k a w'
    | (Raise e, w') => (Raise e, w')
    end.

Definition lift {A} (r : result A) : M A := fun w => (r, w).

Definition log (lv : log_level) (msg : list piece) : M unit :=
  fun w => (Ok tt, mkWorld (trace w) (logs w ++ [mkLog lv msg])).

(** [try: m  except Exception as e: h e]. *)
Definition try_except {A} (m : M A) (h : exn -> M A) : M A :=
  fun w =>
    match m w with
    | (Ok a, w') => (Ok a, w')
    | (Raise e, w') => h e w'
    end.

Notation "'let!' x ':=' m 'in' k" := (bind m (fun x => k))
  (at level 10, x name, m at level 100, k at level 200).
Notation "m ';;' k" := (bind m (fun _ => k))
  (at level 100, k at level 200, right associativity).

(** [for x in l: acc = step acc x], stopping at the first exception. *)
Fixpoint for_fold {A} (step : A -> pyval -> M A) (l : list pyval) (acc : A) : M A :=
  match l with
  | [] => ret acc
  | x :: l' => let! acc' := step acc x in for_fold step l' acc'
  end.

Definition for_each (step : pyval -> M unit) (l : list pyval) : M unit :=
  for_fold (fun _ x => step x) l tt.

(** ** api_client.py: [SonarrRadarrClient] *)

Record client : Type := mkClient {
  ip_address : string;
  api_token : atom;
  service_type : string
}.

(** [SonarrRadarrClient.__init__]: [ip_address.rstrip('/')] needs a [str];
    the service type is stored in lower case. *)
Definition SonarrRadarrClient (ip : atom) (token : atom) (service : string)
  : result client :=
  match ip with
  | AStr s => Ok (mkClient (Str.rstrip "/" s) token (Str.lower service))
  | _ => Raise AttributeError
  end.

Definition base_url (self : client) : string :=
  "http://" +:+ ip_address self +:+ "/api/v3".

(** [get_episodes] builds its endpoint piece by piece; [q_added] tells
    whether the query string has been opened. *)
Definition add_custom_header (st : list piece * bool) (custom_header : string)
  : list piece * bool :=
  let '(endpoint, q_added) := st in
  (endpoint ++ [Lit (if q_added then "&" else "?"); Lit custom_header], true).

Definition episodes_endpoint (series_id : pyval) (custom_headers : list string)
  : list piece :=
  let st :=
    if Py.truthy series_id
    then ([Lit "episode"; Lit "?seriesId="; Val series_id], true)
    else ([Lit "episode"], false) in
  fst (fold_left add_custom_header custom_headers st).

Section Client.

(** The remote service: the outcome of a request, given the exchanges
    that came before it. *)
Variable respond : list (request * response) -> request -> response.

(** Sends one request and turns the outcome into the return value of
    [_make_request]: the decoded body, [{'status': 'success'}] when the body
    is not JSON, [None] after a logged error. *)
Definition send (req : request) : M pyval :=
  fun w =>
    let resp := respond (trace w) req in
    let w1 := mkWorld (trace w ++ [(req, resp)]) (logs w) in
    match resp with
    | RespJson v => (Ok v, w1)
    | RespNoJson => (Ok (PDict [("status", PStr "success")]), w1)
    | RespTimeout =>
        (log ERROR (Lit "Request timeout for " :: url req) ;; ret PNone) w1
    | RespConnectionError =>
        (log ERROR (Lit "Connection error for " :: url req) ;; ret PNone) w1
    | RespHTTPError =>
        (log ERROR (Lit "HTTP error for " :: url req) ;; ret PNone) w1
    | RespOtherError =>
        (log ERROR (Lit "Unexpected error for " :: url req) ;; ret PNone) w1
    end.

Definition _make_request (self : client) (method : string)
    (endpoint : list piece) (data : pyval) : M pyval :=
  let url := Lit (base_url self) :: Lit "/" :: endpoint in
  log DEBUG (Lit "Making " :: Lit method :: Lit " request to: " :: url) ;;
  let m := Str.upper method in
  if String.eqb m "GET" then send (mkRequest "GET" url (api_token self) PNone)
  else if String.eqb m "POST" then send (mkRequest "POST" url (api_token self) data)
  else if String.eqb m "PUT" then send (mkRequest "PUT" url (api_token self) data)
  else if String.eqb m "DELETE" then send (mkRequest "DELETE" url (api_token self) PNone)
  else (log ERROR [Lit "Unsupported HTTP method: "; Lit method] ;; ret PNone).

Definition unmonitor_episode (self : client) (episode_id : pyval) : M bool :=
  if negb (String.eqb (service_type self) "sonarr") then
    log ERROR [Lit "unmonitor_episode called on non-Sonarr client"] ;; ret false
  else
    try_except
      (let! episode := _make_request self "GET" [Lit "episode/"; Val episode_id] PNone in
       if negb (Py.truthy episode) then
         log ERROR [Lit "Could not retrieve episode "; Val episode_id] ;; ret false
       else
         let! episode' := lift (Py.setitem episode "monitored" (PBool false)) in
         let! result := _make_request self "PUT" [Lit "episode/"; Val episode_id] episode' in
         if Py.truthy result then
           log INFO [Lit "Successfully unmonitored Sonarr episode "; Val episode_id] ;;
           ret true
         else
           log ERROR [Lit "Failed to unmonitor Sonarr episode "; Val episode_id] ;;
           ret false)
      (fun e =>
         log ERROR [Lit "Error unmonitoring episode "; Val episode_id; Lit ": "; ExnText e] ;;
         ret false).

(** [episode_ids] is a list at every call site, so the [isinstance] test
    of the source always passes. *)
Definition unmonitor_episodes (self : client) (episode_ids : list pyval) : M bool :=
  if negb (String.eqb (service_type self) "sonarr") then
    log ERROR [Lit "unmonitor_episode called on non-Sonarr client"] ;; ret false
  else if (length episode_ids =? 0)%nat then
    log ERROR [Lit "There are no episodes"] ;; ret false
  else
    try_except
      (let episodes :=
         PDict [("episodeIds", PList episode_ids); ("monitored", PBool false)] in
       let! result := _make_request self "PUT" [Lit "episode/monitor"] episodes in
       let n := PInt (Z.of_nat (length episode_ids)) in
       if Py.truthy result then
         log INFO [Lit "Successfully unmonitored Sonarr episodes "; Val n] ;; ret true
       else
         log ERROR [Lit "Failed to unmonitor Sonarr episodes "; Val n] ;; ret false)
      (fun e =>
         log ERROR [Lit "Error unmonitoring episodes ";
                    Val (PInt (Z.of_nat (length episode_ids))); Lit ": "; ExnText e] ;;
         ret false).

Definition unmonitor_movie (self : client) (movie_id : pyval) : M bool :=
  if negb (String.eqb (service_type self) "radarr") then
    log ERROR [Lit "unmonitor_movie called on non-Radarr client"] ;; ret false
  else
    try_except
      (let! movie := _make_request self "GET" [Lit "movie/"; Val movie_id] PNone in
       if negb (Py.truthy movie) then
         log ERROR [Lit "Could not retrieve movie "; Val movie_id] ;; ret false
       else
         let! movie' := lift (Py.setitem movie "monitored" (PBool false)) in
         let! result := _make_request self "PUT" [Lit "movie/"; Val movie_id] movie' in
         if Py.truthy result then
           log INFO [Lit "Successfully unmonitored Radarr movie "; Val movie_id] ;;
           ret true
         else
           log ERROR [Lit "Failed to unmonitor Radarr movie "; Val movie_id] ;;
           ret false)
      (fun e =>
         log ERROR [Lit "Error unmonitoring movie "; Val movie_id; Lit ": "; ExnText e] ;;
         ret false).

(** The getters return the decoded list (or dict), or [None]. *)
Definition get_episodes (self : client) (series_id : pyval)
    (custom_headers : list string) : M pyval :=
  if negb (String.eqb (service_type self) "sonarr") then ret PNone
  else
    let! result :=
      _make_request self "GET" (episodes_endpoint series_id custom_headers) PNone in
    if Py.is_list result then ret result else ret PNone.

Definition get_movies (self : client) : M pyval :=
  if negb (String.eqb (service_type self) "radarr") then ret PNone
  else
    let! result := _make_request self "GET" [Lit "movie"] PNone in
    if Py.is_list result then ret result else ret PNone.

Definition get_movie_file (self : client) (movie_id : pyval) : M pyval :=
  if negb (String.eqb (service_type self) "radarr") then ret PNone
  else if Py.is_none movie_id then ret PNone
  else
    let! result := _make_request self "GET" [Lit "moviefile/"; Val movie_id] PNone in
    if Py.is_dict result then ret result else ret PNone.

Definition get_series (self : client) : M pyval :=
  if negb (String.eqb (service_type self) "sonarr") then ret PNone
  else
    let! result := _make_request self "GET" [Lit "series"] PNone in
    if Py.is_list result then ret result else ret PNone.

End Client.

(** ** app.py: the quality gate

    A configuration record is the dict [add_config] builds: string keys,
    scalar values. *)

Definition rbind {A B} (r : result A) (k : A -> result B) : result B :=
  match r with
  | Ok a => k a
  | Raise e => Raise e
  end.

Notation "'let?' x ':=' r 'in' k" := (rbind r (fun x => k))
  (at level 10, x name, r at level 100, k at level 200).

(** [config.get(k)] and [config[k]]. *)
Definition cfg_get (config : gmap string atom) (k : string) : atom :=
  match config !! k with
  | Some a => a
  | None => ANone
  end.

Definition cfg_item (config : gmap string atom) (k : string) : result atom :=
  match config !! k with
  | Some a => Ok a
  | None => Raise KeyError
  end.

(** [[cf["name"] for cf in ... if cf.get("name")]] *)
Fixpoint named_formats (custom_formats : list pyval) : result (list pyval) :=
  match custom_formats with
  | [] => Ok []
  | cf :: rest =>
      let? name := Py.get cf "name" PNone in
      if Py.truthy name then
        let? n := Py.getitem cf "name" in
        let? ns := named_formats rest in
        Ok (n :: ns)
      else named_formats rest
  end.

(** The two lines that read the score and the custom format names out of a
    quality block (app.py lines 240-241, 285-286, 328-329 and 379-380). *)
Definition quality_info (quality : pyval) : result (pyval * list pyval) :=
  let? quality_score := Py.get quality "customFormatScore" (PInt 0) in
  let? custom_formats := Py.get quality "customFormats" (PList []) in
  let? items := Py.iter custom_formats in
  let? format_name := named_formats items in
  Ok (quality_score, format_name).

(** The [for custom_format in format_name] loop with its [break]. *)
Fixpoint match_format (config : gmap string atom) (format_name : list pyval)
    (should_unmonitor : bool) : M bool :=
  match format_name with
  | [] => ret should_unmonitor
  | custom_format :: rest =>
      let! wanted := lift (cfg_item config "format_name") in
      let! needle := lift (Py.lower (PAtom wanted)) in
      let! hay := lift (Py.lower custom_format) in
      if Str.contains needle hay then
        log INFO [Lit "Format name "; Lit dquote; Val custom_format; Lit dquote;
                  Lit " matches requirement "; Lit dquote; Val (PAtom wanted);
                  Lit dquote] ;;
        ret true
      else match_format config rest should_unmonitor
  end.

(** The block "Check if quality criteria is met", which the four
    orchestrators repeat word for word (app.py lines 243-256, 288-301,
    331-344 and 382-395). *)
Definition quality_gate (config : gmap string atom) (quality_score : pyval)
    (format_name : list pyval) : M bool :=
  let! should_unmonitor :=
    match cfg_get config "quality_score" with
    | ANone => ret false
    | _ =>
        let! threshold := lift (cfg_item config "quality_score") in
        let! met := lift (Py.ge quality_score threshold) in
        if met then
          log INFO [Lit "Quality score "; Val quality_score;
                    Lit " meets requirement "; Val (PAtom threshold)] ;;
          ret true
        else ret false
    end in
  if Py.atom_truthy (cfg_get config "format_name") && Py.truthy (PList format_name)
  then match_format config format_name should_unmonitor
  else ret should_unmonitor.

(** Reading a quality block and deciding on it. *)
Definition evaluate (config : gmap string atom) (quality : pyval) : M bool :=
  let! qi := lift (quality_info quality) in
  quality_gate config (fst qi) (snd qi).

(** [SonarrRadarrClient(config['ip_address'], config['api_token'], service)] *)
Definition client_for (config : gmap string atom) (service : string) : result client :=
  let? ip := cfg_item config "ip_address" in
  let? token := cfg_item config "api_token" in
  SonarrRadarrClient ip token service.

(** ** app.py: the orchestrators *)

Section Orchestrators.

Variable respond : list (request * response) -> request -> response.

(** Body of [for episode in episodes] in [process_sonarr_webhook]. *)
Definition webhook_episode_step (client : client) (episode : pyval) : M unit :=
  let! episode_id := lift (Py.get episode "id" PNone) in
  if Py.truthy episode_id then
    let! success := unmonitor_episode respond client episode_id in
    if success then
      log INFO [Lit "Successfully unmonitored Sonarr episode ID: "; Val episode_id]
    else
      log ERROR [Lit "Failed to unmonitor Sonarr episode ID: "; Val episode_id]
  else ret tt.

Definition process_sonarr_webhook (config : gmap string atom)
    (webhook_data : pyval) : M bool :=
  try_except
    (let! event_type := lift (Py.get webhook_data "eventType" PNone) in
     if Py.ne_str event_type "Download" then
       log DEBUG [Lit "Ignoring Sonarr webhook event type: "; Val event_type] ;;
       ret true
     else
       let! episodes := lift (Py.get webhook_data "episodes" (PList [])) in
       let! quality := lift (Py.get webhook_data "customFormatInfo" (PDict [])) in
       let! should_unmonitor := evaluate config quality in
       (if should_unmonitor then
          let! client := lift (client_for config "sonarr") in
          let! items := lift (Py.iter episodes) in
          for_each (webhook_episode_step client) items
        else ret tt) ;;
       ret true)
    (fun e =>
       log ERROR [Lit "Error processing Sonarr webhook: "; ExnText e] ;;
       ret false).

Definition process_radarr_webhook (config : gmap string atom)
    (webhook_data : pyval) : M bool :=
  try_except
    (let! event_type := lift (Py.get webhook_data "eventType" PNone) in
     if Py.ne_str event_type "Download" then
       log DEBUG [Lit "Ignoring Radarr webhook event type: "; Val event_type] ;;
       ret true
     else
       let! movie := lift (Py.get webhook_data "movie" (PDict [])) in
       let! movie_id := lift (Py.get movie "id" PNone) in
       let! quality := lift (Py.get webhook_data "customFormatInfo" (PDict [])) in
       let! should_unmonitor := evaluate config quality in
       (if should_unmonitor && Py.truthy movie_id then
          let! client := lift (client_for config "radarr") in
          let! success := unmonitor_movie respond client movie_id in
          if success then
            log INFO [Lit "Successfully unmonitored Radarr movie ID: "; Val movie_id]
          else
            log ERROR [Lit "Failed to unmonitor Radarr movie ID: "; Val movie_id]
        else ret tt) ;;
       ret true)
    (fun e =>
       log ERROR [Lit "Error processing Radarr webhook: "; ExnText e] ;;
       ret false).

(** Body of [for episode in client.get_episodes(...)]: the new value of
    [to_unmonitor]. *)
Definition scan_episode_step (config : gmap string atom)
    (to_unmonitor : list pyval) (episode : pyval) : M (list pyval) :=
  let! episode_id := lift (Py.get episode "id" PNone) in
  if Py.is_none episode_id then ret to_unmonitor else
  let! episode_monitored := lift (Py.get episode "monitored" (PBool false)) in
  if negb (Py.truthy episode_monitored) then ret to_unmonitor else
  let! episode_has_file := lift (Py.get episode "hasFile" (PBool false)) in
  if negb (Py.truthy episode_has_file) then ret to_unmonitor else
  let! episodeFile := lift (Py.get episode "episodeFile" (PDict [])) in
  let! should_unmonitor := evaluate config episodeFile in
  if should_unmonitor then ret (to_unmonitor ++ [episode_id]) else ret to_unmonitor.

(** Body of [for serie in client.get_series()]. *)
Definition scan_serie_step (client : client) (config : gmap string atom)
    (to_unmonitor : list pyval) (serie : pyval) : M (list pyval) :=
  let! serie_id := lift (Py.get serie "id" PNone) in
  if Py.is_none serie_id then ret to_unmonitor else
  let! episodes := get_episodes respond client serie_id ["includeEpisodeFile=true"] in
  let! items := lift (Py.iter episodes) in
  for_fold (scan_episode_step config) items to_unmonitor.

(** The enumeration of [process_sonarr_force_unmonitor]: everything
    between [to_unmonitor = []] and [if len(to_unmonitor) > 0]. *)
Definition scan_series (client : client) (config : gmap string atom)
  : M (list pyval) :=
  let! series := get_series respond client in
  let! items := lift (Py.iter series) in
  for_fold (scan_serie_step client config) items [].

Definition process_sonarr_force_unmonitor (config : gmap string atom) : M bool :=
  try_except
    (let! client := lift (client_for config "sonarr") in
     let! to_unmonitor := scan_series client config in
     if (0 <? length to_unmonitor)%nat
     then unmonitor_episodes respond client to_unmonitor
     else ret true)
    (fun e =>
       log ERROR [Lit "Error processing Sonarr force unmonitor: "; ExnText e] ;;
       ret false).

(** Body of [for movie in client.get_movies()]. *)
Definition scan_movie_step (client : client) (config : gmap string atom)
    (movie : pyval) : M unit :=
  let! movie_id := lift (Py.get movie "id" PNone) in
  if Py.is_none movie_id then ret tt else
  let! movie_file_id := lift (Py.get movie "movieFileId" PNone) in
  if Py.is_none movie_file_id then ret tt else
  let! monitored := lift (Py.get movie "monitored" (PBool false)) in
  if negb (Py.truthy monitored) then ret tt else
  let! movie_file := get_movie_file respond client movie_file_id in
  if Py.is_none movie_file then ret tt else
  let! should_unmonitor := evaluate config movie_file in
  if should_unmonitor then
    let! success := unmonitor_movie respond client movie_id in
    if success then
      log INFO [Lit "Successfully unmonitored Radarr movie ID: "; Val movie_id]
    else
      log ERROR [Lit "Failed to unmonitor Radarr movie ID: "; Val movie_id]
  else ret tt.

Definition process_radarr_force_unmonitor (config : gmap string atom) : M bool :=
  try_except
    (let! client := lift (client_for config "radarr") in
     let! movies := get_movies respond client in
     let! items := lift (Py.iter movies) in
     for_each (scan_movie_step client config) items ;;
     ret true)
    (fun e =>
       log ERROR [Lit "Error processing Radarr force unmonitor: "; ExnText e] ;;
       ret false).

End Orchestrators.

(** ** config_manager.py: [ConfigManager] *)

Module ConfigManager.

(** What the YAML file holds: nothing (it does not exist), a document
    that [yaml.safe_load] reads as a dict of configurations (an empty file
    reads as the empty dict), or something that cannot be read. *)
Inductive yaml_file : Type :=
| NoFile
| Document (configs : gmap string (gmap string atom))
| Unreadable.

(** What writing the file comes to.  [open(..., 'w')] may raise, and the
    file is then left as it was.  Once it has succeeded the file is
    truncated: when [yaml.safe_dump] then raises, the former content is gone
    and the file holds what the interrupted dump has written, [remains]: a
    document ([Some], empty when nothing was written) or something that
    cannot be read ([None]). *)
Inductive write_outcome : Type :=
| Writes
| OpenFails
| DumpFails (remains : option (gmap string (gmap string atom))).

Definition left_behind (remains : option (gmap string (gmap string atom))) : yaml_file :=
  match remains with
  | Some configs => Document configs
  | None => Unreadable
  end.

(** [configs] is the dict held in memory, keyed by configuration id;
    [file] is what the YAML file holds; [on_write] is what writing the file
    comes to. *)
Record t : Type := mk {
  configs : gmap string (gmap string atom);
  file : yaml_file;
  on_write : write_outcome;
  journal : list log_record
}.

Definition info (msg : list piece) (self : t) : t :=
  mk (configs self) (file self) (on_write self) (journal self ++ [mkLog INFO msg]).

Definition error (msg : list piece) (self : t) : t :=
  mk (configs self) (file self) (on_write self) (journal self ++ [mkLog ERROR msg]).

Definition size_of (self : t) : pyval := PInt (Z.of_nat (size (configs self))).

Definition _save_configs (self : t) : bool * t :=
  match on_write self with
  | Writes =>
      let self' := mk (configs self) (Document (configs self)) (on_write self)
                      (journal self) in
      (true, info [Lit "Saved "; Val (size_of self); Lit " configurations"] self')
  | OpenFails =>
      (false, error [Lit "Error saving configuration file: "; Lit "write error"] self)
  | DumpFails remains =>
      let self' := mk (configs self) (left_behind remains) (on_write self)
                      (journal self) in
      (false, error [Lit "Error saving configuration file: "; Lit "write error"] self')
  end.

(** The name shown in the log lines: [configs[id].get('name', 'Unknown')]. *)
Definition name_of (config : gmap string atom) : atom :=
  match config !! "name" with
  | Some a => a
  | None => AStr "Unknown"
  end.

(** [add_config]; the two [uuid.uuid4()] draws are arguments. *)
Definition add_config (self : t) (config_id webhook_token : string)
    (name service_type ip_address api_token : string)
    (quality_score : option Z) (format_name : option string) : string * t :=
  let config : gmap string atom :=
    <["id" := AStr config_id]>
    (<["name" := AStr name]>
    (<["service_type" := AStr service_type]>
    (<["ip_address" := AStr ip_address]>
    (<["api_token" := AStr api_token]>
    (<["webhook_token" := AStr webhook_token]>
    (<["quality_score" := match quality_score with Some q => AInt q | None => ANone end]>
    (<["format_name" := match format_name with
                        | Some f => if Str.is_empty f then ANone else AStr f
                        | None => ANone
                        end]> ∅))))))) in
  let self1 := mk (<[config_id := config]> (configs self)) (file self)
                  (on_write self) (journal self) in
  let self2 := snd (_save_configs self1) in
  (webhook_token,
   info [Lit "Added new configuration: "; Lit name; Lit " (ID: "; Lit config_id; Lit ")"]
        self2).

Definition get_config (self : t) (config_id : string) : option (gmap string atom) :=
  configs self !! config_id.

(** [regenerate_webhook_token]; the [uuid.uuid4()] draw is an argument. *)
Definition regenerate_webhook_token (self : t) (config_id : string)
    (new_token : string) : option string * t :=
  match configs self !! config_id with
  | Some config =>
      let config' := <["webhook_token" := AStr new_token]> config in
      let self1 := mk (<[config_id := config']> (configs self)) (file self)
                      (on_write self) (journal self) in
      let self2 := snd (_save_configs self1) in
      (Some new_token,
       info [Lit "Regenerated webhook token for: "; Val (PAtom (name_of config'));
             Lit " (ID: "; Lit config_id; Lit ")"] self2)
  | None => (None, self)
  end.

Definition updatable : list string :=
  ["name"; "service_type"; "ip_address"; "api_token"; "quality_score"; "format_name"].

(** One round of [for key, value in kwargs.items()]. *)
Definition apply_kwarg (config : gmap string atom) (kv : string * atom)
  : gmap string atom :=
  if existsb (String.eqb (fst kv)) updatable
  then <[fst kv := snd kv]> config
  else config.

Definition update_config (self : t) (config_id : string)
    (kwargs : list (string * atom)) : bool * t :=
  match configs self !! config_id with
  | Some config =>
      let config' := fold_left apply_kwarg kwargs config in
      let self1 := mk (<[config_id := config']> (configs self)) (file self)
                      (on_write self) (journal self) in
      let self2 := snd (_save_configs self1) in
      (true,
       info [Lit "Updated configuration: "; Val (PAtom (name_of config'));
             Lit " (ID: "; Lit config_id; Lit ")"] self2)
  | None => (false, self)
  end.

End ConfigManager.


(** ** api_client.py: the connection test *)

Module Title.

(** [str.title()] on ASCII text: a letter that follows a letter is put in
    lower case, any other letter in upper case. *)
Definition is_letter (c : ascii) : bool :=
  let n := N_of_ascii c in
  (((65 <=? n) && (n <=? 90)) || ((97 <=? n) && (n <=? 122)))%N.

Fixpoint title_from (after_letter : bool) (s : string) : string :=
  match s with
  | EmptyString => EmptyString
  | String c s' =>
      String (if after_letter then Str.lower_char c else Str.upper_char c)
             (title_from (is_letter c) s')
  end.

Definition title (s : string) : string := title_from false s.

End Title.

Section ClientStatus.

Variable respond : list (request * response) -> request -> response.

Definition test_connection (self : client) : M bool :=
  try_except
    (let! result := _make_request respond self "GET" [Lit "system/status"] PNone in
     if Py.truthy result then
       log INFO [Lit "Successfully connected to "; Lit (Title.title (service_type self));
                 Lit " at "; Lit (ip_address self)] ;;
       ret true
     else
       log ERROR [Lit "Failed to connect to "; Lit (Title.title (service_type self));
                  Lit " at "; Lit (ip_address self)] ;;
       ret false)
    (fun e => log ERROR [Lit "Error testing connection: "; ExnText e] ;; ret false).

Definition get_system_status (self : client) : M pyval :=
  _make_request respond self "GET" [Lit "system/status"] PNone.

End ClientStatus.

(** ** config_manager.py: loading, deleting and searching

    A Python dict runs through its values in insertion order, which the
    finite map of the model does not keep: the functions that search the
    values take that order, the list of the stored ids, as an argument. *)

Module Manager.

(** [_load_configs]: the content of the file; an empty dict when there is
    no file, and also, after an error record, when the file cannot be
    read. *)
Definition _load_configs (file : ConfigManager.yaml_file)
  : gmap string (gmap string atom) * list log_record :=
  match file with
  | ConfigManager.Document configs =>
      (configs,
       [mkLog INFO [Lit "Loaded "; Val (PInt (Z.of_nat (size configs)));
                    Lit " configurations"]])
  | ConfigManager.NoFile =>
      (∅, [mkLog INFO [Lit "Configuration file not found, starting with empty configs"]])
  | ConfigManager.Unreadable =>
      (∅, [mkLog ERROR [Lit "Error loading configuration file: "; Lit "read error"]])
  end.

(** [ConfigManager.__init__] *)
Definition init (file : ConfigManager.yaml_file)
    (on_write : ConfigManager.write_outcome) : ConfigManager.t :=
  let loaded := _load_configs file in
  ConfigManager.mk (fst loaded) file on_write (snd loaded).

Definition delete_config (self : ConfigManager.t) (config_id : string)
  : bool * ConfigManager.t :=
  match ConfigManager.configs self !! config_id with
  | Some config =>
      let self1 := ConfigManager.mk (delete config_id (ConfigManager.configs self))
                     (ConfigManager.file self) (ConfigManager.on_write self)
                     (ConfigManager.journal self) in
      let self2 := snd (ConfigManager._save_configs self1) in
      (true,
       ConfigManager.info
         [Lit "Deleted configuration: "; Val (PAtom (ConfigManager.name_of config));
          Lit " (ID: "; Lit config_id; Lit ")"] self2)
  | None => (false, self)
  end.

(** [self.configs.values()], in the given order of the ids. *)
Definition values (order : list string) (self : ConfigManager.t)
  : list (gmap string atom) :=
  omap (fun config_id => ConfigManager.configs self !! config_id) order.

(** [config.get(key) == value] for a string [value]. *)
Definition has (key value : string) (config : gmap string atom) : bool :=
  match cfg_get config key with
  | AStr s => String.eqb s value
  | _ => false
  end.

(** The loop [for config in self.configs.values(): if ...: return config]. *)
Fixpoint first_with (key value : string) (configs : list (gmap string atom))
  : option (gmap string atom) :=
  match configs with
  | [] => None
  | config :: rest =>
      if has key value config then Some config else first_with key value rest
  end.

Definition get_config_by_name (order : list string) (self : ConfigManager.t)
    (name : string) : option (gmap string atom) :=
  first_with "name" name (values order self).

Definition get_config_by_token (order : list string) (self : ConfigManager.t)
    (webhook_token : string) : option (gmap string atom) :=
  first_with "webhook_token" webhook_token (values order self).

(** [get_all_configs]: a copy of the dict of configurations. *)
Definition get_all_configs (self : ConfigManager.t) : gmap string (gmap string atom) :=
  ConfigManager.configs self.

End Manager.

(** ** app.py: the routes that reach the orchestrators *)

(** The body of a request as [request.get_json()] gives it: the decoded
    document, or an exception of Flask when the body does not decode. *)
Inductive json_body : Type :=
| Decoded (v : pyval)
| Undecodable.

(** The reply of [jsonify]: the [success] flag and the [error] text. *)
Record json_reply : Type := mkReply {
  success : bool;
  error : option (list piece)
}.

(** A call of [flash]: the message and its category. *)
Record flashed : Type := mkFlash {
  flash_message : list piece;
  flash_category : string
}.

Section Routes.

Variable respond : list (request * response) -> request -> response.

(** The configuration store of the application and the insertion order of
    its ids.  [if config] and [not config] take [None] and an empty dict
    alike. *)
Variable config_manager : ConfigManager.t.
Variable order : list string.

Definition sonarr_webhook (header : option string) (body : json_body)
  : M (string * Z) :=
  try_except
    (let webhook_token := match header with Some s => s | None => EmptyString end in
     if Str.is_empty webhook_token then
       log WARNING [Lit "Sonarr webhook received without token"] ;;
       ret ("Unauthorized", 401)
     else
       let invalid : M (string * Z) :=
         log WARNING [Lit "Sonarr webhook received with invalid token: ";
                      Lit webhook_token] ;;
         ret ("Unauthorized", 401) in
       match Manager.get_config_by_token order config_manager webhook_token with
       | None => invalid
       | Some config =>
           if bool_decide (config = ∅) then invalid else
           let! service := lift (cfg_item config "service_type") in
           if Py.ne_str (PAtom service) "sonarr" then invalid else
           match body with
           | Undecodable =>
               log ERROR [Lit "Error processing Sonarr webhook: "; Lit "request error"] ;;
               ret ("Internal Server Error", 500)
           | Decoded webhook_data =>
               if negb (Py.truthy webhook_data) then
                 log WARNING [Lit "Sonarr webhook received without JSON data"] ;;
                 ret ("Bad Request", 400)
               else
                 let! name := lift (cfg_item config "name") in
                 log INFO [Lit "Received Sonarr webhook for config: "; Val (PAtom name)] ;;
                 log DEBUG [Lit "Webhook data: "; Val webhook_data] ;;
                 let! result := process_sonarr_webhook respond config webhook_data in
                 if result then ret ("OK", 200)
                 else ret ("Processing failed", 500)
           end
       end)
    (fun e =>
       log ERROR [Lit "Error processing Sonarr webhook: "; ExnText e] ;;
       ret ("Internal Server Error", 500)).

Definition radarr_webhook (header : option string) (body : json_body)
  : M (string * Z) :=
  try_except
    (let webhook_token := match header with Some s => s | None => EmptyString end in
     if Str.is_empty webhook_token then
       log WARNING [Lit "Radarr webhook received without token"] ;;
       ret ("Unauthorized", 401)
     else
       let invalid : M (string * Z) :=
         log WARNING [Lit "Radarr webhook received with invalid token: ";
                      Lit webhook_token] ;;
         ret ("Unauthorized", 401) in
       match Manager.get_config_by_token order config_manager webhook_token with
       | None => invalid
       | Some config =>
           if bool_decide (config = ∅) then invalid else
           let! service := lift (cfg_item config "service_type") in
           if Py.ne_str (PAtom service) "radarr" then invalid else
           match body with
           | Undecodable =>
               log ERROR [Lit "Error processing Radarr webhook: "; Lit "request error"] ;;
               ret ("Internal Server Error", 500)
           | Decoded webhook_data =>
               if negb (Py.truthy webhook_data) then
                 log WARNING [Lit "Radarr webhook received without JSON data"] ;;
                 ret ("Bad Request", 400)
               else
                 let! name := lift (cfg_item config "name") in
                 log INFO [Lit "Received Radarr webhook for config: "; Val (PAtom name)] ;;
                 log DEBUG [Lit "Webhook data: "; Val webhook_data] ;;
                 let! result := process_radarr_webhook respond config webhook_data in
                 if result then ret ("OK", 200)
                 else ret ("Processing failed", 500)
           end
       end)
    (fun e =>
       log ERROR [Lit "Error processing Radarr webhook: "; ExnText e] ;;
       ret ("Internal Server Error", 500)).

(** [force_unmonitor]: the reply and the messages flashed. *)
Definition force_unmonitor (config_name : string)
  : M (json_reply * list flashed) :=
  try_except
    (let not_found : M (json_reply * list flashed) :=
       ret (mkReply false (Some [Lit "Configuration not found"]),
            [mkFlash [Lit "Configuration "; Lit dquote; Lit config_name; Lit dquote;
                      Lit " not found."] "error"]) in
     match ConfigManager.get_config config_manager config_name with
     | None => not_found
     | Some config =>
         if bool_decide (config = ∅) then not_found else
         let service_type := cfg_get config "service_type" in
         if negb (Py.ne_str (PAtom service_type) "sonarr") then
           let! result := process_sonarr_force_unmonitor respond config in
           if result then ret (mkReply true None, [])
           else ret (mkReply false (Some [Lit "Processing failed"]), [])
         else if negb (Py.ne_str (PAtom service_type) "radarr") then
           let! result := process_radarr_force_unmonitor respond config in
           if result then ret (mkReply true None, [])
           else ret (mkReply false (Some [Lit "Processing failed"]), [])
         else
           ret (mkReply false
                  (Some [Lit "Unknown service type "; Lit dquote;
                         Val (PAtom service_type); Lit dquote]),
                [mkFlash [Lit "Unknown service type "; Lit dquote;
                          Val (PAtom service_type); Lit dquote] "error"])
     end)
    (fun e =>
       log ERROR [Lit "Error force unmonitoring: "; ExnText e] ;;
       ret (mkReply false (Some [ExnText e]),
            [mkFlash [Lit "Error force unmonitoring: "; ExnText e] "error"])).

End Routes.

(** ** Vocabulary of the statements *)

(** A computation that sends no request. *)
Definition quiet {A} (m : M A) : Prop :=
  forall w, trace (snd (m w)) = trace w.

(** The optional integer threshold and the optional substring of a
    configuration, as the scalars [add_config] stores for them. *)
Definition opt_int (o : option Z) : atom :=
  match o with Some z => AInt z | None => ANone end.

Definition opt_str (o : option string) : atom :=
  match o with Some s => AStr s | None => ANone end.

(** The text the format criterion compares is in ASCII: the configured
    substring, when there is one, and every name. *)
Definition ascii_text (substring : option string) (names : list string) : bool :=
  match substring with
  | Some s => Str.is_ascii s
  | None => true
  end && forallb Str.is_ascii names.

(** [name] contains [sub] when both are put in lower case. *)
Definition contains_ci (sub name : string) : Prop :=
  exists pre post, Str.lower name = pre +:+ Str.lower sub +:+ post.

(** The score criterion and the format criterion on typed inputs. *)
Definition score_met (threshold : option Z) (score : Z) : Prop :=
  exists t, threshold = Some t /\ t <= score.

Definition format_met (substring : option string) (names : list string) : Prop :=
  exists s, substring = Some s /\ s <> EmptyString /\
            exists n, In n names /\ contains_ci s n.

Definition score_metb (threshold : option Z) (score : Z) : bool :=
  match threshold with
  | Some t => t <=? score
  | None => false
  end.

Definition format_metb (substring : option string) (names : list string) : bool :=
  match substring with
  | Some s =>
      negb (Str.is_empty s) &&
      existsb (fun n => Str.contains (Str.lower s) (Str.lower n)) names
  | None => false
  end.

(** A quality block as Sonarr and Radarr send it: a dict whose
    [customFormatScore] is absent or an integer and whose [customFormats] is
    absent or a list of dicts, each with a [name] that is absent, [None] or
    a string. *)
Definition wf_custom_format (cf : pyval) : bool :=
  match cf with
  | PDict c =>
      match Py.assoc c "name" with
      | None | Some PNone | Some (PStr _) => true
      | _ => false
      end
  | _ => false
  end.

Definition wf_quality (quality : pyval) : bool :=
  match quality with
  | PDict d =>
      match Py.assoc d "customFormatScore" with
      | None | Some (PInt _) => true
      | _ => false
      end &&
      match Py.assoc d "customFormats" with
      | None => true
      | Some (PList l) => forallb wf_custom_format l
      | _ => false
      end
  | _ => false
  end.

(** The typed reading of such a block: an absent score reads as 0, absent
    custom formats as no names; formats without a name or with an empty
    one are left out. *)
Definition score_of (d : list (string * pyval)) : Z :=
  match Py.assoc d "customFormatScore" with
  | Some (PInt z) => z
  | _ => 0
  end.

Definition name_of (cf : pyval) : list string :=
  match cf with
  | PDict c =>
      match Py.assoc c "name" with
      | Some (PStr s) => if Str.is_empty s then [] else [s]
      | _ => []
      end
  | _ => []
  end.

Definition names_of (d : list (string * pyval)) : list string :=
  match Py.assoc d "customFormats" with
  | Some (PList l) => flat_map name_of l
  | _ => []
  end.

(** [webhook_data.get('eventType')] on a JSON object. *)
Definition event_type_of (d : list (string * pyval)) : pyval :=
  match Py.assoc d "eventType" with
  | Some v => v
  | None => PNone
  end.

(** [runs m w r t l]: started in [w], the computation [m] ends with [r]
    after sending exactly the exchanges [t] and writing exactly the log
    records [l]. *)
Definition runs {A} (m : M A) (w : world) (r : result A)
    (t : list (request * response)) (l : list log_record) : Prop :=
  m w = (r, mkWorld (trace w ++ t) (logs w ++ l)).

(** What [_make_request] returns for the outcome of an exchange. *)
Definition value_of (resp : response) : pyval :=
  match resp with
  | RespJson v => v
  | RespNoJson => PDict [("status", PStr "success")]
  | _ => PNone
  end.

(** The endpoint of a request: its url after the base url and the slash. *)
Definition endpoint_of (req : request) : list piece :=
  match url req with
  | _ :: _ :: endpoint => endpoint
  | _ => []
  end.

Definition is_put (ex : request * response) : bool := String.eqb (verb (fst ex)) "PUT".
Definition is_get (ex : request * response) : bool := String.eqb (verb (fst ex)) "GET".

(** The ids for which [unmonitor_episode] fetched the episode: the
    requests GET episode/<id>, one at the start of each call that reaches
    the service. *)
Definition episode_fetch (ex : request * response) : list pyval :=
  if is_get ex then
    match endpoint_of (fst ex) with
    | [Lit p; Val id] => if String.eqb p "episode/" then [id] else []
    | _ => []
    end
  else [].

Definition episode_fetches (t : list (request * response)) : list pyval :=
  flat_map episode_fetch t.

(** The outcome the Sonarr webhook handler logs for each unmonitor call:
    the id, and whether the call succeeded. *)
Definition outcome_of (r : log_record) : list (pyval * bool) :=
  match level r with
  | INFO =>
      match message r with
      | [Lit text; Val id] =>
          if String.eqb text "Successfully unmonitored Sonarr episode ID: "
          then [(id, true)] else []
      | _ => []
      end
  | ERROR =>
      match message r with
      | [Lit text; Val id] =>
          if String.eqb text "Failed to unmonitor Sonarr episode ID: "
          then [(id, false)] else []
      | _ => []
      end
  | _ => []
  end.

Definition outcomes (l : list log_record) : list (pyval * bool) :=
  flat_map outcome_of l.

(** The two records the gate writes: one when the score criterion is met,
    one when a format name matches. *)
Definition is_score_record (r : log_record) : bool :=
  match level r, message r with
  | INFO, Lit text :: _ => String.eqb text "Quality score "
  | _, _ => false
  end.

Definition is_format_record (r : log_record) : bool :=
  match level r, message r with
  | INFO, Lit text :: _ => String.eqb text "Format name "
  | _, _ => false
  end.

(** A log record that is neither an outcome of the webhook handler nor a
    record of the gate. *)
Definition plain (r : log_record) : Prop :=
  outcome_of r = [] /\ is_score_record r = false /\ is_format_record r = false.

(** What one evaluation of the gate leaves in the log: at most one score
    record, then at most one format record, and at least one of the two
    when the verdict is true. *)
Definition gate_log (r : result bool) (l : list log_record) : Prop :=
  outcomes l = [] /\
  (length (List.filter is_score_record l) <= 1)%nat /\
  (length (List.filter is_format_record l) <= 1)%nat /\
  (r = Ok true ->
   (1 <= length (List.filter is_score_record l) +
         length (List.filter is_format_record l))%nat).

(** The id an episode of a webhook payload is unmonitored under:
    [episode.get('id')] when it is truthy. *)
Definition truthy_id (episode : pyval) : list pyval :=
  match episode with
  | PDict e =>
      match Py.assoc e "id" with
      | Some id => if Py.truthy id then [id] else []
      | None => []
      end
  | _ => []
  end.

Definition truthy_ids (episodes : list pyval) : list pyval :=
  flat_map truthy_id episodes.

(** The record the Sonarr webhook handler writes after an unmonitor call. *)
Definition outcome_record (episode_id : pyval) (success : bool) : log_record :=
  if success
  then mkLog INFO [Lit "Successfully unmonitored Sonarr episode ID: "; Val episode_id]
  else mkLog ERROR [Lit "Failed to unmonitor Sonarr episode ID: "; Val episode_id].

(** [calls_made ids t l]: the exchanges [t] fetch exactly the episodes
    [ids], in that order, the records [l] hold exactly one outcome (success
    or failure) for each of them, in that order, and no record of the
    gate. *)
Definition calls_made (ids : list pyval) (t : list (request * response))
    (l : list log_record) : Prop :=
  episode_fetches t = ids /\
  map fst (outcomes l) = ids /\
  List.filter is_score_record l = [] /\
  List.filter is_format_record l = [].

(** The requests of the client, as [_make_request] sends them. *)
Definition get_request (self : client) (endpoint : list piece) : request :=
  mkRequest "GET" (Lit (base_url self) :: Lit "/" :: endpoint) (api_token self) PNone.

Definition put_request (self : client) (endpoint : list piece) (data : pyval) : request :=
  mkRequest "PUT" (Lit (base_url self) :: Lit "/" :: endpoint) (api_token self) data.

(** The one bulk request of the Sonarr scan. *)
Definition bulk_request (self : client) (ids : list pyval) : request :=
  put_request self [Lit "episode/monitor"]
    (PDict [("episodeIds", PList ids); ("monitored", PBool false)]).

(** The episodes an exchange lists: the items of the list that a request
    GET episode?... was answered with. *)
Definition episodes_listed_by (ex : request * response) : list pyval :=
  if is_get ex then
    match endpoint_of (fst ex) with
    | Lit p :: _ =>
        if String.eqb p "episode" then
          match value_of (snd ex) with
          | PList l => l
          | _ => []
          end
        else []
    | _ => []
    end
  else [].

Definition episodes_listed (t : list (request * response)) : list pyval :=
  flat_map episodes_listed_by t.

(** What one round of the episode loop of the Sonarr scan adds to
    [to_unmonitor]: the round run on an empty list. *)
Definition selected (config : gmap string atom) (episode : pyval) : list pyval :=
  match fst (scan_episode_step config [] episode (mkWorld [] [])) with
  | Ok ids => ids
  | Raise _ => []
  end.

(** The verdict of the gate on a quality block. *)
Definition verdict_of (config : gmap string atom) (quality : pyval) : result bool :=
  fst (evaluate config quality (mkWorld [] [])).

(** The fields of an item that the scans read. *)
Definition field (d : list (string * pyval)) (k : string) (default : pyval) : pyval :=
  match Py.assoc d k with
  | Some v => v
  | None => default
  end.

(** The request that fetches the file metadata of a movie. *)
Definition movie_file_request (self : client) (movie_file_id : pyval) : request :=
  get_request self [Lit "moviefile/"; Val movie_file_id].

(** An item (episode or movie) that is listed as not monitored:
    [item.get("monitored", False)] is falsy. *)
Definition unmonitored (item : pyval) : bool :=
  match item with
  | PDict d => negb (Py.truthy (field d "monitored" (PBool false)))
  | _ => false
  end.

(** [webhook_data.get('customFormatInfo', {})] on a JSON object. *)
Definition quality_block (d : list (string * pyval)) : pyval :=
  match Py.assoc d "customFormatInfo" with
  | Some q => q
  | None => PDict []
  end.

(** The request that lists the episodes of a series in the Sonarr scan. *)
Definition episodes_request (self : client) (serie_id : pyval) : request :=
  get_request self (episodes_endpoint serie_id ["includeEpisodeFile=true"]).

(** What the enumeration of the Sonarr scan exchanges for the listed
    [series], after the exchanges [history]: for each series that carries
    an id, in the order of the listing, the request for its episodes,
    answered by the service given everything exchanged before. *)
Fixpoint episode_listings (respond : list (request * response) -> request -> response)
    (self : client) (history : list (request * response)) (series : list pyval)
  : list (request * response) :=
  match series with
  | [] => []
  | PDict d :: rest =>
      if Py.is_none (field d "id" PNone)
      then episode_listings respond self history rest
      else
        let req := episodes_request self (field d "id" PNone) in
        let ex := (req, respond history req) in
        ex :: episode_listings respond self (history ++ [ex]) rest
  | _ :: _ => []
  end.

(** An episode as Sonarr lists it: a JSON object whose [episodeFile] is
    absent or a well-formed quality block. *)
Definition wf_episode (episode : pyval) : bool :=
  match episode with
  | PDict e => wf_quality (field e "episodeFile" (PDict []))
  | _ => false
  end.

(** The debug record [_make_request] writes before it sends. *)
Definition request_record (self : client) (method : string) (endpoint : list piece)
  : log_record :=
  mkLog DEBUG (Lit "Making " :: Lit method :: Lit " request to: " ::
               Lit (base_url self) :: Lit "/" :: endpoint).

(** The record written when the Radarr scan is abandoned. *)
Definition scan_abandoned (e : exn) : log_record :=
  mkLog ERROR [Lit "Error processing Radarr force unmonitor: "; ExnText e].

(** Whether a computation ended normally. *)
Definition ended_well {A} (r : result A) : bool :=
  match r with
  | Ok _ => true
  | Raise _ => false
  end.

(** ** Sample data *)

Module Sample.

Definition w0 : world := mkWorld [] [].

Definition empty_store : ConfigManager.t :=
  ConfigManager.mk ∅ ConfigManager.NoFile ConfigManager.Writes [].

(** A store holding one Sonarr and one Radarr configuration, entered
    through [add_config]. *)
Definition store : ConfigManager.t :=
  let s1 := snd (ConfigManager.add_config empty_store "id-tv" "hook-tv"
                   "tv" "sonarr" "10.0.0.5:8989/" "key-tv" (Some 80) (Some "HDR")) in
  snd (ConfigManager.add_config s1 "id-film" "hook-film"
         "film" "radarr" "10.0.0.6:7878" "key-film" (Some 80) None).

Definition config_of (config_id : string) : gmap string atom :=
  match ConfigManager.get_config store config_id with
  | Some c => c
  | None => ∅
  end.

Definition sonarr_config : gmap string atom := config_of "id-tv".
Definition radarr_config : gmap string atom := config_of "id-film".

(** Only the format criterion configured. *)
Definition hdr_config : gmap string atom :=
  <["quality_score" := ANone]> sonarr_config.

(** A remote service that is down: every request times out. *)
Definition down : list (request * response) -> request -> response :=
  fun _ _ => RespTimeout.

(** A threshold of zero. *)
Definition zero_config : gmap string atom :=
  <["quality_score" := AInt 0]> (<["format_name" := ANone]> sonarr_config).

(** A download event whose quality block carries a null score. *)
Definition null_score_event : pyval :=
  PDict [("eventType", PStr "Download");
         ("episodes", PList [PDict [("id", PInt 7)]]);
         ("customFormatInfo", PDict [("customFormatScore", PNone)])].

Definition sonarr_client : client := mkClient "10.0.0.5:8989" (AStr "key-tv") "sonarr".
Definition radarr_client : client := mkClient "10.0.0.6:7878" (AStr "key-film") "radarr".

(** A download whose score passes the threshold of [sonarr_config]; the
    second episode carries the id 0. *)
Definition download_episodes : list pyval :=
  [PDict [("id", PInt 7)]; PDict [("id", PInt 0)]; PDict [("id", PInt 9)]].

Definition download_fields : list (string * pyval) :=
  [("eventType", PStr "Download");
   ("episodes", PList download_episodes);
   ("customFormatInfo", PDict [("customFormatScore", PInt 85)])].

(** A download with a single episode, of id 0. *)
Definition zero_id_fields : list (string * pyval) :=
  [("eventType", PStr "Download");
   ("episodes", PList [PDict [("id", PInt 0)]]);
   ("customFormatInfo", PDict [("customFormatScore", PInt 85)])].

(** A remote service that answers every request with a JSON object. *)
Definition up : list (request * response) -> request -> response :=
  fun _ _ => RespJson (PDict [("id", PInt 1); ("monitored", PBool true)]).

(** A small Sonarr library: two series with one episode each.  Episode
    11 has no file; episode 22 has a file of score 90. *)
Definition episode_a : pyval :=
  PDict [("id", PInt 11); ("monitored", PBool true); ("hasFile", PBool false)].

Definition episode_b : pyval :=
  PDict [("id", PInt 22); ("monitored", PBool true); ("hasFile", PBool true);
         ("episodeFile", PDict [("customFormatScore", PInt 90);
                                ("customFormats", PList [])])].

Definition library : list (request * response) -> request -> response :=
  fun _ req =>
    match endpoint_of req with
    | [Lit "series"] => RespJson (PList [PDict [("id", PInt 1)]; PDict [("id", PInt 2)]])
    | [Lit "episode"; Lit "?seriesId="; Val (PInt 1); _; _] => RespJson (PList [episode_a])
    | [Lit "episode"; Lit "?seriesId="; Val (PInt 2); _; _] => RespJson (PList [episode_b])
    | _ => RespNoJson
    end.

(** A small Radarr library: three monitored movies with a file each.  The
    file of movie 1 cannot be fetched; the file of movie 2 has score 90; the
    file of movie 3 has score 10. *)
Definition movie (id file_id : Z) : pyval :=
  PDict [("id", PInt id); ("movieFileId", PInt file_id); ("monitored", PBool true)].

Definition cinema : list (request * response) -> request -> response :=
  fun _ req =>
    match endpoint_of req with
    | [Lit "movie"] => RespJson (PList [movie 1 101; movie 2 102; movie 3 103])
    | [Lit "moviefile/"; Val (PInt 101)] => RespHTTPError
    | [Lit "moviefile/"; Val (PInt 102)] =>
        RespJson (PDict [("customFormatScore", PInt 90)])
    | [Lit "moviefile/"; Val (PInt 103)] =>
        RespJson (PDict [("customFormatScore", PInt 10)])
    | [Lit "movie/"; Val (PInt _)] =>
        RespJson (PDict [("title", PStr "film"); ("monitored", PBool true)])
    | _ => RespNoJson
    end.

(** What the loop of the Radarr scan over the three movies of [cinema]
    exchanges and logs, after the listing. *)
Definition cinema_loop : result unit * world :=
  for_each (scan_movie_step cinema radarr_client radarr_config)
    [movie 1 101; movie 2 102; movie 3 103]
    (mkWorld [(get_request radarr_client [Lit "movie"],
               cinema [] (get_request radarr_client [Lit "movie"]))]
             [request_record radarr_client "GET" [Lit "movie"]]).

Definition cinema_rounds : list (request * response) :=
  skipn 1 (trace (snd cinema_loop)).

Definition cinema_records : list log_record :=
  skipn 1 (logs (snd cinema_loop)).

(** A Radarr library that lists one monitored movie, whose file carries
    a null score. *)
Definition null_cinema : list (request * response) -> request -> response :=
  fun _ req =>
    match endpoint_of req with
    | [Lit "movie"] => RespJson (PList [movie 1 101])
    | [Lit "moviefile/"; Val (PInt 101)] =>
        RespJson (PDict [("customFormatScore", PNone)])
    | _ => RespNoJson
    end.

(** A Sonarr server with one series and one episode, which has a file of
    score 90.  The episode is monitored until a bulk request has been
    received; from then on it is listed as unmonitored. *)
Definition served_episode (monitored : bool) : pyval :=
  PDict [("id", PInt 22); ("monitored", PBool monitored); ("hasFile", PBool true);
         ("episodeFile", PDict [("customFormatScore", PInt 90)])].

Definition server : list (request * response) -> request -> response :=
  fun history req =>
    match endpoint_of req with
    | [Lit "series"] => RespJson (PList [PDict [("id", PInt 1)]])
    | Lit "episode" :: _ =>
        RespJson (PList [served_episode (negb (existsb is_put history))])
    | _ => RespNoJson
    end.

(** The state after a first scan of that server. *)
Definition after_first_scan : world :=
  snd (process_sonarr_force_unmonitor server sonarr_config w0).

(** What the enumeration of a second scan sends and logs. *)
Definition second_enumeration : result (list pyval) * world :=
  scan_series server sonarr_client sonarr_config after_first_scan.

Definition second_trace : list (request * response) :=
  skipn (length (trace after_first_scan)) (trace (snd second_enumeration)).

Definition second_logs : list log_record :=
  skipn (length (logs after_first_scan)) (logs (snd second_enumeration)).

Definition grab_fields : list (string * pyval) :=
  [("eventType", PStr "Grab");
   ("episodes", PList [PDict [("id", PInt 7)]]);
   ("customFormatInfo", PDict [("customFormatScore", PInt 95)])].

End Sample.


(** ** Vocabulary of the further statements *)

(** [order] is the insertion order of the ids stored in [self]: it lists
    each stored id once, and nothing else. *)
Definition lists_ids (order : list string) (self : ConfigManager.t) : Prop :=
  List.NoDup order /\
  forall config_id, In config_id order <-> is_Some (ConfigManager.configs self !! config_id).

(** [config] is stored in [self] under [config_id]. *)
Definition stored (self : ConfigManager.t) (config_id : string)
    (config : gmap string atom) : Prop :=
  ConfigManager.configs self !! config_id = Some config.

(** No configuration stored in [self], except possibly the one under
    [config_id], carries [value] under [key]. *)
Definition only_at (self : ConfigManager.t) (key value : string) (config_id : string)
  : Prop :=
  forall other config,
    stored self other config -> Manager.has key value config = true -> other = config_id.

(** More sample data. *)
Module Sample2.

(** The insertion order of [Sample.store]. *)
Definition order : list string := ["id-tv"; "id-film"].

(** A JSON object fetched for an episode. *)
Definition fetched_episode : list (string * pyval) :=
  [("id", PInt 7); ("monitored", PBool true); ("title", PStr "Pilot")].

(** A server that answers every GET with [fetched_episode] and every other
    request with an empty JSON object. *)
Definition terse : list (request * response) -> request -> response :=
  fun _ req =>
    if String.eqb (verb req) "GET" then RespJson (PDict fetched_episode)
    else RespJson (PDict []).

(** A Radarr download that passes the threshold of [Sample.radarr_config]. *)
Definition film_fields : list (string * pyval) :=
  [("eventType", PStr "Download");
   ("movie", PDict [("id", PInt 5)]);
   ("customFormatInfo", PDict [("customFormatScore", PInt 85)])].

(** A Sonarr download that does not pass the threshold. *)
Definition poor_fields : list (string * pyval) :=
  [("eventType", PStr "Download");
   ("episodes", PList [PDict [("id", PInt 7)]]);
   ("customFormatInfo", PDict [("customFormatScore", PInt 10)])].

(** A Radarr server whose listing holds a null before a movie. *)
Definition broken : list (request * response) -> request -> response :=
  fun _ _ => RespJson (PList [PNone; Sample.movie 2 102]).

(** The fields of the second movie of [Sample.cinema], and the metadata of
    its file. *)
Definition second_movie : list (string * pyval) :=
  [("id", PInt 2); ("movieFileId", PInt 102); ("monitored", PBool true)].

Definition second_file : list (string * pyval) :=
  [("customFormatScore", PInt 90)].

(** What the enumeration of the Sonarr scan comes to on [broken]. *)
Definition broken_scan : result (list pyval) * list log_record :=
  let r := scan_series broken Sample.sonarr_client Sample.sonarr_config Sample.w0 in
  (fst r, logs (snd r)).

End Sample2.

(** The journal of [after] extends that of [before] and holds an error
    record among the new ones. *)
Definition logged_an_error (before after : ConfigManager.t) : Prop :=
  exists records,
    ConfigManager.journal after = ConfigManager.journal before ++ records /\
    existsb (fun r => match level r with ERROR => true | _ => false end) records = true.

(** What an operation that took [before] to [after] did to the file, by
    what writing came to.  Written: the file holds the configurations of
    [after], and a manager started on it loads them back.  Not opened: the
    file is as it was, and an error is logged.  Opened and not written to
    the end: the file holds what the interrupted dump left, whatever it held
    before, and an error is logged. *)
Definition written (before after : ConfigManager.t) : Prop :=
  ConfigManager.on_write after = ConfigManager.on_write before /\
  match ConfigManager.on_write before with
  | ConfigManager.Writes =>
      ConfigManager.file after = ConfigManager.Document (ConfigManager.configs after) /\
      ConfigManager.configs
        (Manager.init (ConfigManager.file after) (ConfigManager.on_write after)) =
      ConfigManager.configs after
  | ConfigManager.OpenFails =>
      ConfigManager.file after = ConfigManager.file before /\
      logged_an_error before after
  | ConfigManager.DumpFails remains =>
      ConfigManager.file after = ConfigManager.left_behind remains /\
      logged_an_error before after
  end.

(** The record the Radarr handlers write after an unmonitor call. *)
Definition movie_outcome_record (movie_id : pyval) (success : bool) : log_record :=
  if success
  then mkLog INFO [Lit "Successfully unmonitored Radarr movie ID: "; Val movie_id]
  else mkLog ERROR [Lit "Failed to unmonitor Radarr movie ID: "; Val movie_id].

(** The world [w] after the records [l] were logged. *)
Definition logged (w : world) (l : list log_record) : world :=
  mkWorld (trace w) (logs w ++ l).

(** [m] does nothing to the world but append exchanges to the trace and
    records to the log. *)
Definition appends {A} (m : M A) : Prop :=
  forall w, exists r t l, runs m w r t l.

(** [m] returns a value from every world: it never raises. *)
Definition returns {A} (m : M A) : Prop :=
  forall w, exists a t l, runs m w (Ok a) t l.

(** The token of a request: the value of its [X-Webhook-Token] header,
    falsy when the header is absent. *)
Definition token_of (header : option string) : string :=
  match header with
  | Some s => s
  | None => EmptyString
  end.

(** The header carries a token, under which the store finds [config], a
    configuration of the service [service]. *)
Definition authorises (order : list string) (config_manager : ConfigManager.t)
    (service : string) (header : option string) (config : gmap string atom) : Prop :=
  Str.is_empty (token_of header) = false /\
  Manager.get_config_by_token order config_manager (token_of header) = Some config /\
  config <> ∅ /\
  cfg_get config "service_type" = AStr service.

(** The route turned the request down: it replied 401, or 500, and sent
    nothing. *)
Definition turned_down (route : M (string * Z)) (w : world) : Prop :=
  exists reply l,
    runs route w (Ok reply) [] l /\
    (reply = ("Unauthorized", 401) \/ reply = ("Internal Server Error", 500)).

(** The reply of a webhook route after the orchestrator returned [result]. *)
Definition reply_of (result : bool) : string * Z :=
  if result then ("OK", 200) else ("Processing failed", 500).

(** The record written when the Sonarr scan is abandoned. *)
Definition sonarr_scan_abandoned (e : exn) : log_record :=
  mkLog ERROR [Lit "Error processing Sonarr force unmonitor: "; ExnText e].

(** A run of [n] slashes, and whether a string ends with a given
    character. *)
Fixpoint slashes (n : nat) : string :=
  match n with
  | O => EmptyString
  | S n' => String "/" (slashes n')
  end.

Fixpoint ends_with (c : ascii) (s : string) : bool :=
  match s with
  | EmptyString => false
  | String a EmptyString => Ascii.eqb a c
  | String _ s' => ends_with c s'
  end.

(** ** Strings *)

Lemma prefix_spec (p s : string) :
  String.prefix p s = true <-> exists post, s = p +:+ post.
Proof.
  revert s. induction p as [|a p IH]; intros s; simpl.
  - split; [intros _; exists s; reflexivity | intros _; destruct s; reflexivity].
  - destruct s as [|b s]; simpl.
    + split; [discriminate | intros [post H]; discriminate].
    + destruct (ascii_dec a b) as [->|Hne].
      * rewrite IH. split; intros [post H]; exists post.
        -- now rewrite H.
        -- now inversion H.
      * split; [discriminate | intros [post H]; inversion H; congruence].
Qed.

Lemma contains_nil (needle : string) :
  Str.contains needle EmptyString = String.prefix needle EmptyString || false.
Proof. reflexivity. Qed.

Lemma contains_cons (needle : string) (c : ascii) (hay : string) :
  Str.contains needle (String c hay) =
  String.prefix needle (String c hay) || Str.contains needle hay.
Proof. reflexivity. Qed.

Lemma contains_spec (needle hay : string) :
  Str.contains needle hay = true <->
  exists pre post, hay = pre +:+ needle +:+ post.
Proof.
  induction hay as [|c hay IH].
  - rewrite contains_nil, orb_false_r, prefix_spec. split.
    + intros [post H]. exists EmptyString, post. exact H.
    + intros [pre [post H]]. destruct pre; simpl in H.
      * exists post. exact H.
      * discriminate.
  - rewrite contains_cons, orb_true_iff, prefix_spec, IH. split.
    + intros [[post H] | [pre [post H]]].
      * exists EmptyString, post. exact H.
      * exists (String c pre), post. simpl. now rewrite H.
    + intros [pre [post H]]. destruct pre as [|a pre]; simpl in H.
      * left. exists post. exact H.
      * right. exists pre, post. now inversion H.
Qed.

Lemma is_empty_spec (s : string) : Str.is_empty s = true <-> s = EmptyString.
Proof. destruct s; simpl; split; congruence. Qed.

(** ** The state monad: which computations send requests *)

Create HintDb quiet.

Lemma quiet_ret {A} (a : A) : quiet (ret a).
Proof. intros w. reflexivity. Qed.

Lemma quiet_lift {A} (r : result A) : quiet (lift r).
Proof. intros w. reflexivity. Qed.

Lemma quiet_log lv msg : quiet (log lv msg).
Proof. intros w. reflexivity. Qed.

Lemma quiet_bind {A B} (m : M A) (k : A -> M B) :
  quiet m -> (forall a, quiet (k a)) -> quiet (bind m k).
Proof.
  intros Hm Hk w. unfold bind. specialize (Hm w).
  destruct (m w) as [[a|e] w']; simpl in *.
  - now rewrite Hk.
  - exact Hm.
Qed.

Lemma quiet_try_except {A} (m : M A) (h : exn -> M A) :
  quiet m -> (forall e, quiet (h e)) -> quiet (try_except m h).
Proof.
  intros Hm Hh w. unfold try_except. specialize (Hm w).
  destruct (m w) as [[a|e] w']; simpl in *.
  - exact Hm.
  - now rewrite Hh.
Qed.

Lemma quiet_for_fold {A} (step : A -> pyval -> M A) (l : list pyval) :
  (forall acc x, quiet (step acc x)) -> forall acc, quiet (for_fold step l acc).
Proof.
  intros Hs. induction l as [|x l IH]; intros acc; simpl.
  - apply quiet_ret.
  - apply quiet_bind; [apply Hs | exact IH].
Qed.

#[export] Hint Resolve quiet_ret quiet_lift quiet_log : quiet.

Ltac quiet_step :=
  match goal with
  | |- quiet (bind _ _) => apply quiet_bind; [| intros ?]
  | |- quiet (try_except _ _) => apply quiet_try_except; [| intros ?]
  | |- quiet (if ?c then _ else _) => destruct c
  | |- quiet (match ?x with _ => _ end) => destruct x
  | |- quiet _ => solve [auto with quiet]
  end.

(** ** The quality gate *)

Lemma match_format_quiet config format_name should_unmonitor :
  quiet (match_format config format_name should_unmonitor).
Proof.
  induction format_name as [|custom_format rest IH]; simpl.
  - apply quiet_ret.
  - repeat quiet_step.
Qed.

Lemma quality_gate_quiet config quality_score format_name :
  quiet (quality_gate config quality_score format_name).
Proof.
  unfold quality_gate.
  apply quiet_bind; [repeat quiet_step | intros b].
  destruct (_ && _); [apply match_format_quiet | apply quiet_ret].
Qed.

Lemma evaluate_quiet config quality : quiet (evaluate config quality).
Proof.
  unfold evaluate. apply quiet_bind; [apply quiet_lift | intros qi].
  apply quality_gate_quiet.
Qed.

#[export] Hint Resolve match_format_quiet quality_gate_quiet evaluate_quiet : quiet.

Lemma cfg_get_lookup config k a :
  cfg_get config k = a -> a <> ANone -> config !! k = Some a.
Proof.
  unfold cfg_get. destruct (config !! k) as [x|]; intros H Hne; congruence.
Qed.

Lemma cfg_item_of_get config k a :
  cfg_get config k = a -> a <> ANone -> cfg_item config k = Ok a.
Proof.
  intros H Hne. unfold cfg_item. now rewrite (cfg_get_lookup _ _ _ H Hne).
Qed.

(** The name loop on strings: it answers [true] at the first name that
    contains the wanted substring, and hands back the flag it was given
    when there is none. *)
Lemma match_format_strings config s names flag w :
  cfg_get config "format_name" = AStr s ->
  fst (match_format config (map (fun n => PStr n) names) flag w) =
  Ok (flag || existsb (fun n => Str.contains (Str.lower s) (Str.lower n)) names).
Proof.
  intros Hs. apply cfg_item_of_get in Hs; [| discriminate].
  revert w. induction names as [|n names IH]; intros w; simpl.
  - now rewrite orb_false_r.
  - unfold bind, lift. rewrite Hs. simpl.
    destruct (Str.contains (Str.lower s) (Str.lower n)); simpl.
    + now rewrite orb_true_r.
    + apply IH.
Qed.

Lemma existsb_contains_ci s names :
  existsb (fun n => Str.contains (Str.lower s) (Str.lower n)) names = true <->
  exists n, In n names /\ contains_ci s n.
Proof.
  rewrite existsb_exists. unfold contains_ci.
  split; intros [n [Hin H]]; exists n; split; auto; now apply contains_spec.
Qed.

Lemma score_metb_spec threshold score :
  score_metb threshold score = true <-> score_met threshold score.
Proof.
  unfold score_metb, score_met. destruct threshold as [t|].
  - rewrite Z.leb_le. split; [intros H; exists t; auto | intros [t' [E H]]; congruence].
  - split; [discriminate | intros [t [E _]]; discriminate].
Qed.

Lemma format_metb_spec substring names :
  format_metb substring names = true <-> format_met substring names.
Proof.
  unfold format_metb, format_met. destruct substring as [s|].
  - rewrite andb_true_iff, negb_true_iff, existsb_contains_ci. split.
    + intros [Hs Hn]. exists s. repeat split; auto.
      intros ->. discriminate.
    + intros [s' [E [Hs Hn]]]. inversion E; subst s'. split; auto.
      destruct s; [congruence | reflexivity].
  - split; [discriminate | intros [s [E _]]; discriminate].
Qed.

(** The gate on a typed quality input, computed. *)
Lemma quality_gate_typed config threshold substring score names w :
  cfg_get config "quality_score" = opt_int threshold ->
  cfg_get config "format_name" = opt_str substring ->
  fst (quality_gate config (PInt score) (map (fun n => PStr n) names) w) =
  Ok (score_metb threshold score || format_metb substring names).
Proof.
  intros Hq Hf. unfold quality_gate, bind at 1.
  assert (Hfirst : exists w1,
    (match cfg_get config "quality_score" with
     | ANone => ret false
     | _ =>
         let! threshold := lift (cfg_item config "quality_score") in
         let! met := lift (Py.ge (PInt score) threshold) in
         if met then
           log INFO [Lit "Quality score "; Val (PInt score);
                     Lit " meets requirement "; Val (PAtom threshold)] ;;
           ret true
         else ret false
     end) w = (Ok (score_metb threshold score), w1)).
  { destruct threshold as [t|]; simpl in Hq.
    - rewrite Hq. unfold bind, lift.
      rewrite (cfg_item_of_get _ _ _ Hq) by discriminate. simpl.
      destruct (t <=? score); simpl; eauto.
    - rewrite Hq. simpl. eauto. }
  destruct Hfirst as [w1 ->].
  rewrite Hf. destruct substring as [s|]; simpl.
  - destruct (Str.is_empty s) eqn:Es; simpl.
    + now rewrite orb_false_r.
    + destruct names as [|n names]; simpl.
      * now rewrite orb_false_r.
      * apply (match_format_strings config s (n :: names) _ w1 Hf).
  - now rewrite orb_false_r.
Qed.

(** C1. For every typed quality input (an integer score and a list of
    custom format names) and every configuration whose threshold is unset
    or an integer and whose format name is unset or a string, names and
    format name being ASCII text, the gate returns a verdict and sends
    nothing; the verdict is true exactly when the threshold is set and the
    score reaches it, or the substring is set, non-empty and contained,
    ignoring the case of the letters, in one of the names.  With neither
    criterion configured or met the verdict is false. *)
Theorem quality_gate_verdict (config : gmap string atom)
    (threshold : option Z) (substring : option string)
    (score : Z) (names : list string) (w : world) :
  cfg_get config "quality_score" = opt_int threshold ->
  cfg_get config "format_name" = opt_str substring ->
  ascii_text substring names = true ->
  exists verdict,
    fst (quality_gate config (PInt score) (map (fun n => PStr n) names) w) = Ok verdict /\
    trace (snd (quality_gate config (PInt score) (map (fun n => PStr n) names) w)) = trace w /\
    (verdict = true <-> score_met threshold score \/ format_met substring names) /\
    (~ score_met threshold score -> ~ format_met substring names -> verdict = false).
Proof.
  intros Hq Hf _.
  exists (score_metb threshold score || format_metb substring names).
  split; [now apply quality_gate_typed |].
  split; [apply quality_gate_quiet |].
  rewrite orb_true_iff, score_metb_spec, format_metb_spec.
  split; [reflexivity |].
  intros Hs Hn. apply orb_false_iff.
  split; apply not_true_is_false.
  - now rewrite score_metb_spec.
  - now rewrite format_metb_spec.
Qed.

Lemma quality_gate_verdict_witness :
  cfg_get Sample.sonarr_config "quality_score" = opt_int (Some 80) /\
  cfg_get Sample.sonarr_config "format_name" = opt_str (Some "HDR") /\
  ascii_text (Some "HDR") ["x265"; "Dolby hdr10+"] = true /\
  ~ score_met (Some 80) 70 /\
  fst (quality_gate Sample.sonarr_config (PInt 70)
         (map (fun n => PStr n) ["x265"; "Dolby hdr10+"]) Sample.w0) = Ok true /\
  exists verdict,
    fst (quality_gate Sample.sonarr_config (PInt 70)
           (map (fun n => PStr n) ["x265"; "Dolby hdr10+"]) Sample.w0) = Ok verdict /\
    trace (snd (quality_gate Sample.sonarr_config (PInt 70)
                  (map (fun n => PStr n) ["x265"; "Dolby hdr10+"]) Sample.w0))
      = trace Sample.w0 /\
    (verdict = true <->
     score_met (Some 80) 70 \/ format_met (Some "HDR") ["x265"; "Dolby hdr10+"]) /\
    (~ score_met (Some 80) 70 -> ~ format_met (Some "HDR") ["x265"; "Dolby hdr10+"] ->
     verdict = false).
Proof.
  split; [reflexivity |]. split; [reflexivity |]. split; [reflexivity |].
  split; [intros [t [Ht Hle]]; inversion Ht; subst t; lia |].
  split; [reflexivity |].
  apply (quality_gate_verdict Sample.sonarr_config (Some 80) (Some "HDR") 70
           ["x265"; "Dolby hdr10+"] Sample.w0); reflexivity.
Defined.

(** C3. When the format name of the configuration is a non-empty string
    (and no threshold is set, so that the verdict is the format criterion
    alone), the criterion holds, on ASCII text, exactly when the lower-case
    form of some custom format name contains the lower-case form of the
    configured substring: containment, not equality, and whatever the case
    of the letters on either side. *)
Theorem format_criterion_is_containment (config : gmap string atom)
    (s : string) (score : pyval) (names : list string) (w : world) :
  cfg_get config "quality_score" = ANone ->
  cfg_get config "format_name" = AStr s ->
  s <> EmptyString ->
  ascii_text (Some s) names = true ->
  exists verdict,
    fst (quality_gate config score (map (fun n => PStr n) names) w) = Ok verdict /\
    (verdict = true <->
     exists n, In n names /\
               exists pre post, Str.lower n = pre +:+ Str.lower s +:+ post).
Proof.
  intros Hq Hf Hs _.
  exists (existsb (fun n => Str.contains (Str.lower s) (Str.lower n)) names).
  split.
  - unfold quality_gate, bind at 1. rewrite Hq, Hf. simpl.
    destruct s as [|c s]; [congruence |]. simpl.
    destruct names as [|n names]; [reflexivity |].
    apply (match_format_strings config (String c s) (n :: names) false w Hf).
  - apply existsb_contains_ci.
Qed.

Lemma format_criterion_is_containment_witness :
  ascii_text (Some "HDR") ["x265"; "Dolby hdr10+"] = true /\
  fst (quality_gate Sample.hdr_config (PInt 0)
         (map (fun n => PStr n) ["x265"; "Dolby hdr10+"]) Sample.w0) = Ok true /\
  fst (quality_gate Sample.hdr_config (PInt 0)
         (map (fun n => PStr n) ["HDR10+"]) Sample.w0) = Ok true /\
  fst (quality_gate Sample.hdr_config (PInt 0)
         (map (fun n => PStr n) ["x265"; "HD"]) Sample.w0) = Ok false.
Proof.
  split; [reflexivity |].
  split; [| split; reflexivity].
  destruct (format_criterion_is_containment Sample.hdr_config "HDR" (PInt 0)
              ["x265"; "Dolby hdr10+"] Sample.w0)
    as [verdict [Hrun Hiff]]; [reflexivity | reflexivity | discriminate | reflexivity |].
  rewrite Hrun. f_equal. apply Hiff.
  exists "Dolby hdr10+". split; [right; left; reflexivity |].
  exists "dolby ", "10+". reflexivity.
Defined.

(** ** Reading a quality block *)

Lemma named_formats_wf (l : list pyval) :
  forallb wf_custom_format l = true ->
  named_formats l = Ok (map (fun n => PStr n) (flat_map name_of l)).
Proof.
  induction l as [|cf l IH]; simpl; [reflexivity |].
  rewrite andb_true_iff. intros [Hcf Hl]. rewrite (IH Hl).
  destruct cf as [a | l' | c]; simpl in Hcf; try discriminate.
  simpl. destruct (Py.assoc c "name") as [[[| b | z | s] | |] |];
    simpl in *; try discriminate; try reflexivity.
  destruct (Str.is_empty s); reflexivity.
Qed.

Lemma quality_info_wf (d : list (string * pyval)) :
  wf_quality (PDict d) = true ->
  quality_info (PDict d) = Ok (PInt (score_of d), map (fun n => PStr n) (names_of d)).
Proof.
  unfold wf_quality, quality_info, score_of, names_of. simpl.
  rewrite andb_true_iff. intros [Hs Hf].
  destruct (Py.assoc d "customFormatScore") as [[[| b | z | s] | |] |];
    try discriminate;
    (destruct (Py.assoc d "customFormats") as [[a | l | c] |];
     try discriminate; simpl;
     [rewrite (named_formats_wf l Hf) |]; reflexivity).
Qed.

(** C2, as the code has it.  For every configuration whose threshold is
    unset or an integer and whose format name is unset or a string, and
    every well-formed quality block, reading the block and evaluating the
    gate returns a verdict, raises nothing and sends nothing.  An absent
    score is read as 0 and absent custom formats as no names, so on a block
    that has neither the verdict is true exactly when a threshold of at
    most 0 is configured, and false otherwise. *)
Theorem evaluate_total_on_wellformed (config : gmap string atom)
    (threshold : option Z) (substring : option string)
    (d : list (string * pyval)) (w : world) :
  cfg_get config "quality_score" = opt_int threshold ->
  cfg_get config "format_name" = opt_str substring ->
  wf_quality (PDict d) = true ->
  exists verdict,
    fst (evaluate config (PDict d) w) = Ok verdict /\
    trace (snd (evaluate config (PDict d) w)) = trace w /\
    (verdict = true <->
     score_met threshold (score_of d) \/ format_met substring (names_of d)) /\
    (Py.assoc d "customFormatScore" = None ->
     Py.assoc d "customFormats" = None ->
     (verdict = true <-> exists t, threshold = Some t /\ t <= 0)).
Proof.
  intros Hq Hf Hwf.
  pose proof (quality_gate_typed config threshold substring (score_of d)
                (names_of d) w Hq Hf) as Hrun.
  set (verdict := score_metb threshold (score_of d) ||
                  format_metb substring (names_of d)) in *.
  assert (Hiff : verdict = true <->
                 score_met threshold (score_of d) \/
                 format_met substring (names_of d)).
  { unfold verdict. now rewrite orb_true_iff, score_metb_spec, format_metb_spec. }
  exists verdict.
  assert (Heval : evaluate config (PDict d) w =
                  quality_gate config (PInt (score_of d))
                    (map (fun n => PStr n) (names_of d)) w).
  { unfold evaluate, bind, lift. now rewrite (quality_info_wf d Hwf). }
  split; [now rewrite Heval |].
  split; [apply evaluate_quiet |].
  split; [exact Hiff |].
  intros Hs Hn. rewrite Hiff. unfold score_of, names_of. rewrite Hs, Hn.
  unfold score_met, format_met. split.
  - intros [H | [s [_ [_ [n [[] _]]]]]]. exact H.
  - intros H. left. exact H.
Qed.

Lemma evaluate_total_on_wellformed_witness :
  fst (evaluate Sample.sonarr_config (PDict []) Sample.w0) = Ok false /\
  fst (evaluate Sample.zero_config (PDict []) Sample.w0) = Ok true.
Proof.
  split.
  - destruct (evaluate_total_on_wellformed Sample.sonarr_config (Some 80)
                (Some "HDR") [] Sample.w0)
      as [verdict [Hrun [_ [_ Hmissing]]]]; [reflexivity | reflexivity | reflexivity |].
    rewrite Hrun. f_equal. apply not_true_is_false. intros Hv.
    apply Hmissing in Hv; [| reflexivity | reflexivity].
    destruct Hv as [t [Ht Hle]]. inversion Ht; subst t. lia.
  - destruct (evaluate_total_on_wellformed Sample.zero_config (Some 0)
                None [] Sample.w0)
      as [verdict [Hrun [_ [_ Hmissing]]]]; [reflexivity | reflexivity | reflexivity |].
    rewrite Hrun. f_equal. apply Hmissing; [reflexivity | reflexivity |].
    exists 0. split; [reflexivity | lia].
Defined.

(** The claim that a null score is read as 0 and that missing input always
    gives a false verdict fails: with a threshold of 80, a quality block
    whose score is [None] makes the comparison raise [TypeError], which the
    webhook handler reports as a failed run; and with a threshold of 0 an
    absent score, read as 0, meets it. *)
Lemma null_score_raises :
  fst (evaluate Sample.sonarr_config (PDict [("customFormatScore", PNone)]) Sample.w0)
    = Raise TypeError /\
  fst (process_sonarr_webhook Sample.down Sample.sonarr_config
         Sample.null_score_event Sample.w0) = Ok false /\
  fst (evaluate Sample.zero_config (PDict []) Sample.w0) = Ok true.
Proof. repeat split; vm_compute; reflexivity. Qed.

(** ** The webhook orchestrators *)

Lemma ne_str_spec (v : pyval) (s : string) :
  Py.ne_str v s = true <-> v <> PStr s.
Proof.
  unfold Py.ne_str. destruct v as [[| b | z | s'] | l | d];
    try (split; [intros _; discriminate | reflexivity]).
  rewrite negb_true_iff, String.eqb_neq. split; congruence.
Qed.

(** C4. A webhook payload (a JSON object) whose event type is anything
    but 'Download' is acknowledged: the Sonarr handler and the Radarr
    handler both return success, and all they do is write one debug record;
    no request is sent. *)
Theorem other_events_are_ignored
    (respond : list (request * response) -> request -> response)
    (config : gmap string atom) (d : list (string * pyval)) (w : world) :
  event_type_of d <> PStr "Download" ->
  process_sonarr_webhook respond config (PDict d) w =
    (Ok true,
     mkWorld (trace w)
       (logs w ++ [mkLog DEBUG [Lit "Ignoring Sonarr webhook event type: ";
                                Val (event_type_of d)]])) /\
  process_radarr_webhook respond config (PDict d) w =
    (Ok true,
     mkWorld (trace w)
       (logs w ++ [mkLog DEBUG [Lit "Ignoring Radarr webhook event type: ";
                                Val (event_type_of d)]])).
Proof.
  intros Hne. apply ne_str_spec in Hne.
  unfold process_sonarr_webhook, process_radarr_webhook, try_except, bind, lift.
  simpl. fold (event_type_of d). rewrite Hne. simpl. split; reflexivity.
Qed.

Lemma other_events_are_ignored_witness :
  event_type_of Sample.grab_fields <> PStr "Download" /\
  fst (process_sonarr_webhook Sample.down Sample.sonarr_config
         (PDict Sample.grab_fields) Sample.w0) = Ok true /\
  trace (snd (process_sonarr_webhook Sample.down Sample.sonarr_config
                (PDict Sample.grab_fields) Sample.w0)) = [] /\
  fst (process_radarr_webhook Sample.down Sample.radarr_config
         (PDict Sample.grab_fields) Sample.w0) = Ok true /\
  trace (snd (process_radarr_webhook Sample.down Sample.radarr_config
                (PDict Sample.grab_fields) Sample.w0)) = [].
Proof.
  split; [discriminate |].
  destruct (other_events_are_ignored Sample.down Sample.sonarr_config
              Sample.grab_fields Sample.w0) as [Hs _]; [discriminate |].
  destruct (other_events_are_ignored Sample.down Sample.radarr_config
              Sample.grab_fields Sample.w0) as [_ Hr]; [discriminate |].
  rewrite Hs, Hr. repeat split; reflexivity.
Defined.

(** ** The client *)

(** C9. Every operation of the client that belongs to one service, called
    on a client of another service type, returns [False] (the unmonitor
    operations) or [None] (the getters) and sends no request; the unmonitor
    operations only write an error record. *)
Theorem wrong_service_sends_nothing
    (respond : list (request * response) -> request -> response)
    (self : client) (item : pyval) (ids : list pyval)
    (custom_headers : list string) (w : world) :
  (service_type self <> "sonarr" ->
   fst (unmonitor_episode respond self item w) = Ok false /\
   trace (snd (unmonitor_episode respond self item w)) = trace w /\
   fst (unmonitor_episodes respond self ids w) = Ok false /\
   trace (snd (unmonitor_episodes respond self ids w)) = trace w /\
   get_series respond self w = (Ok PNone, w) /\
   get_episodes respond self item custom_headers w = (Ok PNone, w)) /\
  (service_type self <> "radarr" ->
   fst (unmonitor_movie respond self item w) = Ok false /\
   trace (snd (unmonitor_movie respond self item w)) = trace w /\
   get_movies respond self w = (Ok PNone, w) /\
   get_movie_file respond self item w = (Ok PNone, w)).
Proof.
  split; intros Hne; apply String.eqb_neq in Hne;
    unfold unmonitor_episode, unmonitor_episodes, unmonitor_movie,
           get_series, get_episodes, get_movies, get_movie_file;
    rewrite Hne; simpl; repeat split; reflexivity.
Qed.

Lemma wrong_service_sends_nothing_witness :
  service_type Sample.radarr_client <> "sonarr" /\
  service_type Sample.sonarr_client <> "radarr" /\
  unmonitor_episode Sample.down Sample.radarr_client (PInt 7) Sample.w0 =
    (Ok false,
     mkWorld [] [mkLog ERROR [Lit "unmonitor_episode called on non-Sonarr client"]]) /\
  get_episodes Sample.down Sample.radarr_client (PInt 3) ["includeEpisodeFile=true"]
    Sample.w0 = (Ok PNone, Sample.w0) /\
  fst (unmonitor_movie Sample.down Sample.sonarr_client (PInt 7) Sample.w0) = Ok false /\
  get_movie_file Sample.down Sample.sonarr_client (PInt 7) Sample.w0 =
    (Ok PNone, Sample.w0).
Proof.
  split; [discriminate |]. split; [discriminate |].
  destruct (wrong_service_sends_nothing Sample.down Sample.radarr_client (PInt 3)
              [] ["includeEpisodeFile=true"] Sample.w0) as [Hs _].
  destruct (wrong_service_sends_nothing Sample.down Sample.sonarr_client (PInt 7)
              [] [] Sample.w0) as [_ Hr].
  assert (Hs' := Hs ltac:(discriminate)).
  assert (Hr' := Hr ltac:(discriminate)).
  destruct Hs' as [_ [_ [_ [_ [_ He]]]]].
  destruct Hr' as [Hm [_ [_ Hf]]].
  split; [reflexivity |]. split; [exact He |]. split; [exact Hm | exact Hf].
Defined.

(** ** The configuration store *)

Lemma updatable_spec (k : string) :
  existsb (String.eqb k) ConfigManager.updatable = true <->
  In k ConfigManager.updatable.
Proof.
  rewrite existsb_exists. split.
  - intros [x [Hin Heq]]. apply String.eqb_eq in Heq. now subst.
  - intros Hin. exists k. split; [exact Hin | apply String.eqb_refl].
Qed.

Lemma apply_kwarg_frame (config : gmap string atom) (kv : string * atom) (k : string) :
  ~ In k ConfigManager.updatable ->
  ConfigManager.apply_kwarg config kv !! k = config !! k.
Proof.
  intros Hk. unfold ConfigManager.apply_kwarg.
  destruct (existsb (String.eqb (fst kv)) ConfigManager.updatable) eqn:E; [| reflexivity].
  apply updatable_spec in E. apply lookup_insert_ne.
  intros Heq. rewrite Heq in E. contradiction.
Qed.

Lemma kwargs_frame (kwargs : list (string * atom)) (config : gmap string atom)
    (k : string) :
  ~ In k ConfigManager.updatable ->
  fold_left ConfigManager.apply_kwarg kwargs config !! k = config !! k.
Proof.
  intros Hk. revert config.
  induction kwargs as [|kv kwargs IH]; intros config; simpl; [reflexivity |].
  rewrite IH. now apply apply_kwarg_frame.
Qed.

Lemma save_keeps_configs (self : ConfigManager.t) :
  ConfigManager.configs (snd (ConfigManager._save_configs self)) =
  ConfigManager.configs self.
Proof.
  unfold ConfigManager._save_configs.
  destruct (ConfigManager.on_write self); reflexivity.
Qed.

(** C10. [update_config] returns [True] exactly when the id is stored and
    leaves the whole store (memory and file) as it was when it returns
    [False].  On a stored id it rebinds only keys among name, service_type,
    ip_address, api_token, quality_score and format_name: every other key of
    that configuration, its id and its webhook_token among them, keeps its
    value, and every other configuration is untouched.  The webhook token
    changes through [regenerate_webhook_token], which rebinds that key and
    nothing else. *)
Theorem update_config_frame (self : ConfigManager.t) (config_id : string)
    (kwargs : list (string * atom)) (new_token : string) :
  let r := ConfigManager.update_config self config_id kwargs in
  let after := ConfigManager.configs (snd r) in
  (fst r = true <-> is_Some (ConfigManager.configs self !! config_id)) /\
  (fst r = false -> snd r = self) /\
  (forall other, other <> config_id ->
     after !! other = ConfigManager.configs self !! other) /\
  (forall config, ConfigManager.configs self !! config_id = Some config ->
     exists config',
       after !! config_id = Some config' /\
       (forall k, ~ In k ConfigManager.updatable -> config' !! k = config !! k) /\
       config' !! "id" = config !! "id" /\
       config' !! "webhook_token" = config !! "webhook_token") /\
  (forall config, ConfigManager.configs self !! config_id = Some config ->
     let r' := ConfigManager.regenerate_webhook_token self config_id new_token in
     fst r' = Some new_token /\
     ConfigManager.configs (snd r') =
       <[config_id := <["webhook_token" := AStr new_token]> config]>
         (ConfigManager.configs self)).
Proof.
  unfold ConfigManager.update_config, ConfigManager.regenerate_webhook_token.
  destruct (ConfigManager.configs self !! config_id) as [config|] eqn:E; simpl.
  - rewrite save_keeps_configs. simpl.
    split; [split; [eauto | reflexivity] |].
    split; [discriminate |].
    split; [intros other Hne; now apply lookup_insert_ne |].
    split.
    + intros c Hc. inversion Hc; subst c.
      exists (fold_left ConfigManager.apply_kwarg kwargs config).
      split; [apply lookup_insert_eq |].
      split; [intros k Hk; now apply kwargs_frame |].
      split; apply kwargs_frame; simpl; intros H;
        repeat (destruct H as [H | H]; [discriminate |]); exact H.
    + intros c Hc. inversion Hc; subst c.
      rewrite save_keeps_configs. split; reflexivity.
  - split; [split; [discriminate | intros [x Hx]; discriminate] |].
    split; [reflexivity |].
    split; [reflexivity |].
    split; intros c Hc; discriminate.
Qed.

(** ** Runs: what a computation sends and logs *)

Lemma world_eta (w : world) : mkWorld (trace w ++ []) (logs w ++ []) = w.
Proof. destruct w; simpl. now rewrite !app_nil_r. Qed.

Lemma runs_ret {A} (a : A) w : runs (ret a) w (Ok a) [] [].
Proof. unfold runs, ret. now rewrite world_eta. Qed.

Lemma runs_lift {A} (r : result A) w : runs (lift r) w r [] [].
Proof. unfold runs, lift. now rewrite world_eta. Qed.

Lemma runs_log lv msg w : runs (log lv msg) w (Ok tt) [] [mkLog lv msg].
Proof. unfold runs, log. now rewrite app_nil_r. Qed.

Lemma runs_bind {A B} (m : M A) (k : A -> M B) w a t1 l1 r t2 l2 :
  runs m w (Ok a) t1 l1 ->
  runs (k a) (mkWorld (trace w ++ t1) (logs w ++ l1)) r t2 l2 ->
  runs (bind m k) w r (t1 ++ t2) (l1 ++ l2).
Proof.
  unfold runs, bind. intros -> ->. simpl. now rewrite !app_assoc.
Qed.

Lemma runs_bind_quiet {A B} (m : M A) (k : A -> M B) w a l1 r l2 :
  runs m w (Ok a) [] l1 ->
  runs (k a) (mkWorld (trace w ++ []) (logs w ++ l1)) r [] l2 ->
  runs (bind m k) w r [] (l1 ++ l2).
Proof. apply (runs_bind m k w a [] l1 r [] l2). Qed.

Lemma runs_bind_raise {A B} (m : M A) (k : A -> M B) w e t l :
  runs m w (Raise e) t l -> runs (bind m k) w (Raise e) t l.
Proof. unfold runs, bind. now intros ->. Qed.

Lemma runs_try_ok {A} (m : M A) (h : exn -> M A) w a t l :
  runs m w (Ok a) t l -> runs (try_except m h) w (Ok a) t l.
Proof. unfold runs, try_except. now intros ->. Qed.

Lemma runs_try_raise {A} (m : M A) (h : exn -> M A) w e t1 l1 r t2 l2 :
  runs m w (Raise e) t1 l1 ->
  runs (h e) (mkWorld (trace w ++ t1) (logs w ++ l1)) r t2 l2 ->
  runs (try_except m h) w r (t1 ++ t2) (l1 ++ l2).
Proof.
  unfold runs, try_except. intros -> ->. simpl. now rewrite !app_assoc.
Qed.

Lemma runs_fst {A} (m : M A) w r t l : runs m w r t l -> fst (m w) = r.
Proof. unfold runs. now intros ->. Qed.

Lemma runs_trace {A} (m : M A) w r t l :
  runs m w r t l -> trace (snd (m w)) = trace w ++ t.
Proof. unfold runs. now intros ->. Qed.

Lemma runs_logs {A} (m : M A) w r t l :
  runs m w r t l -> logs (snd (m w)) = logs w ++ l.
Proof. unfold runs. now intros ->. Qed.

(** Two runs of one computation from one state are the same run. *)
Lemma runs_det {A} (m : M A) w r1 t1 l1 r2 t2 l2 :
  runs m w r1 t1 l1 -> runs m w r2 t2 l2 -> r1 = r2 /\ t1 = t2 /\ l1 = l2.
Proof.
  unfold runs. intros H1 H2. rewrite H1 in H2. inversion H2 as [[Hr Ht Hl]].
  apply app_inv_head in Ht, Hl. auto.
Qed.

Lemma plain_debug msg : plain (mkLog DEBUG msg).
Proof. repeat split. Qed.

Lemma plain_error text rest :
  String.eqb text "Failed to unmonitor Sonarr episode ID: " = false ->
  plain (mkLog ERROR (Lit text :: rest)).
Proof.
  intros H. unfold plain, outcome_of. simpl. rewrite H.
  destruct rest as [|[s | v | e] [|p rest]]; repeat split.
Qed.

Lemma plain_info text rest :
  String.eqb text "Successfully unmonitored Sonarr episode ID: " = false ->
  String.eqb text "Quality score " = false ->
  String.eqb text "Format name " = false ->
  plain (mkLog INFO (Lit text :: rest)).
Proof.
  intros H1 H2 H3. unfold plain, outcome_of, is_score_record, is_format_record.
  simpl. rewrite H1, H2, H3.
  destruct rest as [|[s | v | e] [|p rest]]; repeat split.
Qed.

Create HintDb plain.
#[export] Hint Resolve plain_debug : plain.
#[export] Hint Extern 1 (plain (mkLog ERROR (Lit _ :: _))) =>
  apply plain_error; reflexivity : plain.
#[export] Hint Extern 1 (plain (mkLog INFO (Lit _ :: _))) =>
  apply plain_info; reflexivity : plain.

(** Every request goes through [send]; it never raises. *)
Lemma runs_send respond req w :
  exists l,
    runs (send respond req) w (Ok (value_of (respond (trace w) req)))
      [(req, respond (trace w) req)] l /\ Forall plain l.
Proof.
  unfold send, runs.
  destruct (respond (trace w) req) eqn:E; simpl.
  - exists (@nil log_record). split; [| apply List.Forall_nil].
    now rewrite List.app_nil_r.
  - exists (@nil log_record). split; [| apply List.Forall_nil].
    now rewrite List.app_nil_r.
  - eexists. split; [reflexivity |].
    apply List.Forall_cons; [auto with plain | apply List.Forall_nil].
  - eexists. split; [reflexivity |].
    apply List.Forall_cons; [auto with plain | apply List.Forall_nil].
  - eexists. split; [reflexivity |].
    apply List.Forall_cons; [auto with plain | apply List.Forall_nil].
  - eexists. split; [reflexivity |].
    apply List.Forall_cons; [auto with plain | apply List.Forall_nil].
Qed.

Lemma runs_get respond self endpoint data w :
  exists l,
    runs (_make_request respond self "GET" endpoint data) w
      (Ok (value_of (respond (trace w) (get_request self endpoint))))
      [(get_request self endpoint, respond (trace w) (get_request self endpoint))] l /\
    Forall plain l.
Proof.
  destruct (runs_send respond (get_request self endpoint)
              (mkWorld (trace w) (logs w ++ [mkLog DEBUG
                 (Lit "Making " :: Lit "GET" :: Lit " request to: " ::
                  Lit (base_url self) :: Lit "/" :: endpoint)])))
    as [l [Hrun Hl]].
  eexists (_ :: l). split.
  - unfold runs in *. unfold _make_request, bind, log. simpl in *.
    unfold get_request in *. rewrite Hrun. now rewrite <- app_assoc.
  - apply List.Forall_cons; [auto with plain | exact Hl].
Qed.

Lemma runs_put respond self endpoint data w :
  exists l,
    runs (_make_request respond self "PUT" endpoint data) w
      (Ok (value_of (respond (trace w) (put_request self endpoint data))))
      [(put_request self endpoint data,
        respond (trace w) (put_request self endpoint data))] l /\
    Forall plain l.
Proof.
  destruct (runs_send respond (put_request self endpoint data)
              (mkWorld (trace w) (logs w ++ [mkLog DEBUG
                 (Lit "Making " :: Lit "PUT" :: Lit " request to: " ::
                  Lit (base_url self) :: Lit "/" :: endpoint)])))
    as [l [Hrun Hl]].
  eexists (_ :: l). split.
  - unfold runs in *. unfold _make_request, bind, log. simpl in *.
    unfold put_request in *. rewrite Hrun. now rewrite <- app_assoc.
  - apply List.Forall_cons; [auto with plain | exact Hl].
Qed.

Arguments _make_request : simpl never.
Arguments send : simpl never.

Lemma runs_bind_lift {A B} (a : A) (k : A -> M B) w r t l :
  runs (k a) w r t l -> runs (bind (lift (Ok a)) k) w r t l.
Proof. unfold runs, bind, lift. auto. Qed.

Lemma runs_bind_lift_raise {A B} (e : exn) (k : A -> M B) w :
  runs (bind (lift (Raise e)) k) w (Raise e) [] [].
Proof. unfold runs, bind, lift. now rewrite world_eta. Qed.

Lemma runs_bind_ret {A B} (a : A) (k : A -> M B) w r t l :
  runs (k a) w r t l -> runs (bind (ret a) k) w r t l.
Proof. unfold runs, bind, ret. auto. Qed.

Lemma runs_bind_log {B} lv msg (k : unit -> M B) w r t l :
  runs (k tt) (mkWorld (trace w) (logs w ++ [mkLog lv msg])) r t l ->
  runs (bind (log lv msg) k) w r t (mkLog lv msg :: l).
Proof.
  unfold runs, bind, log. simpl. intros ->. now rewrite <- app_assoc.
Qed.

(** One step of a run, read off the shape of the computation. *)
Ltac run_step :=
  match goal with
  | |- runs (bind (lift (Ok _)) _) _ _ _ _ => apply runs_bind_lift; cbv beta
  | |- runs (bind (lift (Raise _)) _) _ _ _ _ => apply runs_bind_lift_raise
  | H : ?x = Ok _ |- runs (bind (lift ?x) _) _ _ _ _ => rewrite H
  | H : ?x = Raise _ |- runs (bind (lift ?x) _) _ _ _ _ => rewrite H
  | |- runs (if true then ?a else _) ?w ?r ?t ?l => change (runs a w r t l)
  | |- runs (if false then _ else ?b) ?w ?r ?t ?l => change (runs b w r t l)
  | H : ?c = true |- runs (if ?c then _ else _) _ _ _ _ => rewrite H
  | H : ?c = false |- runs (if ?c then _ else _) _ _ _ _ => rewrite H
  | H : ?c = true |- runs (if negb ?c then _ else _) _ _ _ _ =>
      rewrite H; cbn [negb]
  | H : ?c = false |- runs (if negb ?c then _ else _) _ _ _ _ =>
      rewrite H; cbn [negb]
  | |- runs (bind (ret _) _) _ _ _ _ => apply runs_bind_ret; cbv beta
  | |- runs (bind (log _ _) _) _ _ _ _ => apply runs_bind_log; cbv beta
  | |- runs (ret _) _ _ _ _ => apply runs_ret
  | |- runs (lift _) _ _ _ _ => apply runs_lift
  | |- runs (log _ _) _ _ _ _ => apply runs_log
  | H : runs ?m ?w (Ok _) _ _ |- runs (bind ?m _) ?w _ _ _ =>
      eapply runs_bind; [exact H | cbv beta]
  | H : runs ?m ?w (Raise _) _ _ |- runs (bind ?m _) ?w _ _ _ =>
      eapply runs_bind_raise; exact H
  | H : runs ?m ?w _ _ _ |- runs ?m ?w _ _ _ => exact H
  | |- runs (if ?c then ?a else ?b) ?w ?r ?t ?l =>
      let c' := eval cbn in c in
      progress (change (runs (if c' then a else b) w r t l))
  | |- runs (bind (lift ?x) ?k) ?w ?r ?t ?l =>
      let x' := eval cbn in x in
      progress (change (runs (bind (lift x') k) w r t l))
  end.

Ltac all_plain :=
  repeat first
    [ apply List.Forall_nil
    | apply Forall_app_2
    | apply List.Forall_cons
    | assumption
    | solve [auto with plain] ].

(** [unmonitor_episode] on a Sonarr client never raises; it fetches the
    episode once, and sends the update only after a fetch that gave
    something. *)
Lemma runs_unmonitor_episode respond self episode_id w :
  service_type self = "sonarr" ->
  exists success t l,
    runs (unmonitor_episode respond self episode_id) w (Ok success) t l /\
    episode_fetches t = [episode_id] /\
    Forall plain l.
Proof.
  intros Hs. unfold unmonitor_episode. rewrite Hs. simpl.
  destruct (runs_get respond self [Lit "episode/"; Val episode_id] PNone w)
    as [l1 [H1 P1]].
  remember (value_of (respond (trace w)
              (get_request self [Lit "episode/"; Val episode_id]))) as episode.
  destruct (Py.truthy episode) eqn:T.
  - destruct (Py.setitem episode "monitored" (PBool false)) as [episode'|e] eqn:S.
    + destruct (runs_put respond self [Lit "episode/"; Val episode_id] episode'
                  (mkWorld (trace w ++ [(get_request self [Lit "episode/"; Val episode_id],
                      respond (trace w) (get_request self [Lit "episode/"; Val episode_id]))])
                     (logs w ++ l1))) as [l2 [H2 P2]].
      simpl in H2.
      remember (value_of (respond _ (put_request self _ episode'))) as result.
      destruct (Py.truthy result) eqn:T2.
      * eexists _, _, _. split; [| split].
        -- eapply runs_try_ok. run_step. rewrite T. simpl. rewrite S.
           run_step. run_step. rewrite T2. repeat run_step.
        -- reflexivity.
        -- all_plain.
      * eexists _, _, _. split; [| split].
        -- eapply runs_try_ok. run_step. rewrite T. simpl. rewrite S.
           run_step. run_step. rewrite T2. repeat run_step.
        -- reflexivity.
        -- all_plain.
    + eexists _, _, _. split; [| split].
      * eapply runs_try_raise.
        -- run_step. rewrite T. simpl. rewrite S. run_step.
        -- repeat run_step.
      * rewrite !List.app_nil_r. reflexivity.
      * all_plain.
  - eexists _, _, _. split; [| split].
    + eapply runs_try_ok. run_step. rewrite T. simpl. repeat run_step.
    + reflexivity.
    + all_plain.
Qed.

Lemma outcomes_app l1 l2 : outcomes (l1 ++ l2) = outcomes l1 ++ outcomes l2.
Proof. unfold outcomes. apply flat_map_app. Qed.

Lemma episode_fetches_app t1 t2 :
  episode_fetches (t1 ++ t2) = episode_fetches t1 ++ episode_fetches t2.
Proof. unfold episode_fetches. apply flat_map_app. Qed.

Lemma plain_outcomes l : Forall plain l -> outcomes l = [].
Proof.
  induction 1 as [|r l [Ho _] _ IH]; [reflexivity |].
  unfold outcomes in *. simpl. now rewrite Ho, IH.
Qed.

Lemma plain_score_records l : Forall plain l -> List.filter is_score_record l = [].
Proof.
  induction 1 as [|r l [_ [Hs _]] _ IH]; [reflexivity |].
  simpl. now rewrite Hs.
Qed.

Lemma plain_format_records l : Forall plain l -> List.filter is_format_record l = [].
Proof.
  induction 1 as [|r l [_ [_ Hf]] _ IH]; [reflexivity |].
  simpl. now rewrite Hf.
Qed.

(** What the name loop writes: nothing when it hands the flag back or
    raises, one format record when it answers [true] on a match. *)
Lemma runs_match_format config format_name flag w :
  exists r l,
    runs (match_format config format_name flag) w r [] l /\
    ((l = [] /\ r <> Ok (negb flag)) \/
     (r = Ok true /\ exists rec, l = [rec] /\ is_format_record rec = true /\
        is_score_record rec = false /\ outcome_of rec = [])).
Proof.
  revert w. induction format_name as [|custom_format rest IH]; intros w;
    cbn [match_format].
  - exists (Ok flag), []. split; [apply runs_ret |].
    left. split; [reflexivity |]. destruct flag; discriminate.
  - destruct (cfg_item config "format_name") as [wanted|e] eqn:E1.
    + destruct (Py.lower (PAtom wanted)) as [needle|e] eqn:E2.
      * destruct (Py.lower custom_format) as [hay|e] eqn:E3.
        -- destruct (Str.contains needle hay) eqn:C.
           ++ eexists _, _. split; [repeat run_step |].
              right. split; [reflexivity |]. eexists. repeat split.
           ++ destruct (IH w) as [r [l [Hrun Hl]]].
              exists r, l. split; [repeat run_step | exact Hl].
        -- exists (Raise e), []. split; [repeat run_step |].
           left. split; [reflexivity | discriminate].
      * exists (Raise e), []. split; [repeat run_step |].
        left. split; [reflexivity | discriminate].
    + exists (Raise e), []. split; [repeat run_step |].
      left. split; [reflexivity | discriminate].
Qed.

Lemma runs_quality_gate config quality_score format_name w :
  exists r l,
    runs (quality_gate config quality_score format_name) w r [] l /\ gate_log r l.
Proof.
  unfold quality_gate.
  set (score_part := match cfg_get config "quality_score" with
                     | ANone => ret false
                     | _ => _
                     end).
  assert (Hscore : exists r1 l1,
    runs score_part w r1 [] l1 /\
    ((l1 = [] /\ r1 <> Ok true) \/
     (r1 = Ok true /\ exists rec, l1 = [rec] /\ is_score_record rec = true /\
        is_format_record rec = false /\ outcome_of rec = []))).
  { subst score_part.
    destruct (cfg_get config "quality_score") eqn:G;
      [ exists (Ok false), []; split; [apply runs_ret | left; split; [reflexivity | discriminate]]
      | | | ];
      (destruct (cfg_item config "quality_score") as [threshold|e] eqn:E1;
       [ destruct (Py.ge quality_score threshold) as [[|]|e] eqn:E2 | ];
       eexists _, _; (split; [repeat run_step |]);
       first [ left; split; [reflexivity | discriminate]
             | right; split; [reflexivity |]; eexists; repeat split ]). }
  destruct Hscore as [r1 [l1 [H1 Hl1]]].
  destruct r1 as [flag|e].
  - destruct (Py.atom_truthy (cfg_get config "format_name") &&
              Py.truthy (PList format_name)) eqn:C.
    + destruct (runs_match_format config format_name flag
                  (mkWorld (trace w ++ []) (logs w ++ l1))) as [r [l2 [H2 Hl2]]].
      exists r, (l1 ++ l2). split.
      * change (@nil (request * response)) with (@nil (request * response) ++ []).
        eapply runs_bind; [exact H1 |]. exact H2.
      * unfold gate_log.
        destruct Hl1 as [[-> Hr1] | [Hr1 [rec1 [-> [S1 [F1 O1]]]]]];
        destruct Hl2 as [[-> Hr2] | [Hr2 [rec2 [-> [F2 [S2 O2]]]]]];
          unfold outcomes; simpl;
          rewrite ?S1, ?F1, ?O1, ?S2, ?F2, ?O2; simpl;
          repeat split; try lia; intros ->.
        -- destruct flag; [now contradiction Hr1 | now contradiction Hr2].
    + exists (Ok flag), (l1 ++ []). split.
      * change (@nil (request * response)) with (@nil (request * response) ++ []).
        eapply runs_bind; [exact H1 |]. apply runs_ret.
      * unfold gate_log. rewrite List.app_nil_r.
        destruct Hl1 as [[-> Hr1] | [Hr1 [rec1 [-> [S1 [F1 O1]]]]]];
          unfold outcomes; simpl; rewrite ?S1, ?F1, ?O1; simpl;
          repeat split; try lia; intros Hr; contradiction.
  - exists (Raise e), l1. split.
    + eapply runs_bind_raise. exact H1.
    + unfold gate_log.
      destruct Hl1 as [[-> Hr1] | [Hr1 _]]; [| discriminate].
      unfold outcomes; simpl. repeat split; try lia; discriminate.
Qed.

Lemma runs_evaluate config quality w :
  exists r l, runs (evaluate config quality) w r [] l /\ gate_log r l.
Proof.
  unfold evaluate. destruct (quality_info quality) as [qi|e] eqn:Q.
  - destruct (runs_quality_gate config (fst qi) (snd qi) w) as [r [l [H Hl]]].
    exists r, l. split; [repeat run_step | exact Hl].
  - exists (Raise e), []. split; [repeat run_step |].
    unfold gate_log. simpl. repeat split; try lia. discriminate.
Qed.

Lemma calls_made_nil : calls_made [] [] [].
Proof. repeat split. Qed.

Lemma calls_made_app ids1 ids2 t1 t2 l1 l2 :
  calls_made ids1 t1 l1 -> calls_made ids2 t2 l2 ->
  calls_made (ids1 ++ ids2) (t1 ++ t2) (l1 ++ l2).
Proof.
  intros [A1 [B1 [C1 D1]]] [A2 [B2 [C2 D2]]]. unfold calls_made.
  rewrite episode_fetches_app, outcomes_app, map_app, !List.filter_app.
  rewrite A1, A2, B1, B2, C1, C2, D1, D2. repeat split.
Qed.

(** One round of the episode loop of the Sonarr webhook handler: it never
    raises on a JSON object; with a truthy id it makes one unmonitor call and
    logs its outcome, otherwise it does nothing. *)
Lemma runs_webhook_episode_step respond self episode w :
  service_type self = "sonarr" ->
  Py.is_dict episode = true ->
  exists t l,
    runs (webhook_episode_step respond self episode) w (Ok tt) t l /\
    calls_made (truthy_id episode) t l.
Proof.
  intros Hs Hd. destruct episode as [a | x | e]; try discriminate.
  unfold webhook_episode_step, truthy_id. simpl Py.get.
  destruct (Py.assoc e "id") as [episode_id|] eqn:E.
  - destruct (Py.truthy episode_id) eqn:T.
    + destruct (runs_unmonitor_episode respond self episode_id w Hs)
        as [success [t [l [H [Hf Hp]]]]].
      destruct success.
      * eexists _, _. split; [repeat run_step |].
        unfold calls_made.
        rewrite episode_fetches_app, Hf, outcomes_app, (plain_outcomes l Hp).
        rewrite !List.filter_app, (plain_score_records l Hp),
          (plain_format_records l Hp).
        split; [reflexivity |]. split; [reflexivity |]. split; reflexivity.
      * eexists _, _. split; [repeat run_step |].
        unfold calls_made.
        rewrite episode_fetches_app, Hf, outcomes_app, (plain_outcomes l Hp).
        rewrite !List.filter_app, (plain_score_records l Hp),
          (plain_format_records l Hp).
        split; [reflexivity |]. split; [reflexivity |]. split; reflexivity.
    + exists [], []. split; [repeat run_step | apply calls_made_nil].
  - exists [], []. split; [repeat run_step | apply calls_made_nil].
Qed.

(** A round of the episode loop on a truthy id is the unmonitor call
    followed by the record of its outcome; it ends normally whether the call
    succeeded or not. *)
Lemma runs_webhook_episode_call respond self (e : list (string * pyval)) episode_id w :
  service_type self = "sonarr" ->
  Py.assoc e "id" = Some episode_id ->
  Py.truthy episode_id = true ->
  exists success t l,
    runs (unmonitor_episode respond self episode_id) w (Ok success) t l /\
    runs (webhook_episode_step respond self (PDict e)) w (Ok tt)
      t (l ++ [outcome_record episode_id success]).
Proof.
  intros Hs He T.
  destruct (runs_unmonitor_episode respond self episode_id w Hs)
    as [success [t [l [H _]]]].
  exists success, t, l. split; [exact H |].
  unfold webhook_episode_step. cbn [Py.get]. rewrite He.
  rewrite <- (List.app_nil_r t).
  destruct success; unfold outcome_record; repeat run_step.
Qed.

Lemma runs_webhook_episodes respond self episodes w :
  service_type self = "sonarr" ->
  forallb Py.is_dict episodes = true ->
  exists t l,
    runs (for_each (webhook_episode_step respond self) episodes) w (Ok tt) t l /\
    calls_made (truthy_ids episodes) t l.
Proof.
  intros Hs. revert w. unfold for_each.
  induction episodes as [|episode episodes IH]; intros w Hd; cbn [for_fold].
  - exists [], []. split; [apply runs_ret | apply calls_made_nil].
  - simpl in Hd. apply andb_true_iff in Hd. destruct Hd as [Hd Hds].
    destruct (runs_webhook_episode_step respond self episode w Hs Hd)
      as [t1 [l1 [H1 C1]]].
    destruct (IH (mkWorld (trace w ++ t1) (logs w ++ l1)) Hds)
      as [t2 [l2 [H2 C2]]].
    exists (t1 ++ t2), (l1 ++ l2). split.
    + eapply runs_bind; [exact H1 | exact H2].
    + apply (calls_made_app _ _ _ _ _ _ C1 C2).
Qed.

Lemma client_for_service config service self :
  client_for config service = Ok self -> service_type self = Str.lower service.
Proof.
  unfold client_for, rbind, SonarrRadarrClient.
  destruct (cfg_item config "ip_address") as [[| b | z | s]|]; try discriminate;
    destruct (cfg_item config "api_token"); try discriminate.
  intros H. inversion H. reflexivity.
Qed.

(** C5, as the code has it.  For a Sonarr 'Download' payload whose
    episodes are JSON objects and whose quality info passes the gate, the
    handler returns success whatever the remote service answers.  The log
    holds the records of one evaluation of the gate (at most one score record
    and one format record, at least one of them) followed by the records of
    the episode loop, which hold no gate record; the loop fetches, in order,
    exactly the episodes whose id is truthy, and logs exactly one outcome,
    success or failure, for each of them.  Each round on a truthy id is the
    unmonitor call followed by the record of its outcome, and ends normally
    when the call failed. *)
Theorem download_unmonitors_each_episode
    (respond : list (request * response) -> request -> response)
    (config : gmap string atom) (d : list (string * pyval))
    (episodes : list pyval) (self : client) (w : world) :
  event_type_of d = PStr "Download" ->
  Py.get (PDict d) "episodes" (PList []) = Ok (PList episodes) ->
  forallb Py.is_dict episodes = true ->
  fst (evaluate config (quality_block d) w) = Ok true ->
  client_for config "sonarr" = Ok self ->
  (forall (e : list (string * pyval)) episode_id w1,
     Py.assoc e "id" = Some episode_id ->
     Py.truthy episode_id = true ->
     exists success t l,
       runs (unmonitor_episode respond self episode_id) w1 (Ok success) t l /\
       runs (webhook_episode_step respond self (PDict e)) w1 (Ok tt)
         t (l ++ [outcome_record episode_id success])) /\
  exists t l_gate l_calls,
    runs (process_sonarr_webhook respond config (PDict d)) w (Ok true)
      t (l_gate ++ l_calls) /\
    gate_log (Ok true) l_gate /\
    calls_made (truthy_ids episodes) t l_calls.
Proof.
  intros Hev Hep Hdict Hgate Hclient.
  split.
  { intros e episode_id w1.
    apply (runs_webhook_episode_call respond self e episode_id w1
             (client_for_service _ _ _ Hclient)). }
  assert (E1 : Py.get (PDict d) "eventType" PNone = Ok (event_type_of d))
    by reflexivity.
  assert (E2 : Py.get (PDict d) "customFormatInfo" (PDict []) = Ok (quality_block d))
    by reflexivity.
  assert (E3 : Py.ne_str (event_type_of d) "Download" = false)
    by now rewrite Hev.
  assert (E4 : Py.iter (PList episodes) = Ok episodes) by reflexivity.
  destruct (runs_evaluate config (quality_block d) w) as [r [l1 [H1 G1]]].
  rewrite (runs_fst _ _ _ _ _ H1) in Hgate. subst r.
  destruct (runs_webhook_episodes respond self episodes
              (mkWorld (trace w ++ []) (logs w ++ l1))
              (client_for_service _ _ _ Hclient) Hdict) as [t2 [l2 [H2 C2]]].
  eexists _, l1, _. split; [| split].
  - unfold process_sonarr_webhook. apply runs_try_ok.
    repeat run_step. eapply runs_bind; [repeat run_step | apply runs_ret].
  - exact G1.
  - simpl. now rewrite !List.app_nil_r.
Qed.

Lemma download_unmonitors_each_episode_witness :
  event_type_of Sample.download_fields = PStr "Download" /\
  forallb Py.is_dict Sample.download_episodes = true /\
  fst (evaluate Sample.sonarr_config (quality_block Sample.download_fields)
         Sample.w0) = Ok true /\
  truthy_ids Sample.download_episodes = [PInt 7; PInt 9] /\
  client_for Sample.sonarr_config "sonarr" = Ok Sample.sonarr_client /\
  exists t l_gate l_calls,
    runs (process_sonarr_webhook Sample.down Sample.sonarr_config
            (PDict Sample.download_fields)) Sample.w0 (Ok true)
      t (l_gate ++ l_calls) /\
    gate_log (Ok true) l_gate /\
    calls_made (truthy_ids Sample.download_episodes) t l_calls.
Proof.
  split; [reflexivity |]. split; [reflexivity |]. split; [reflexivity |].
  split; [reflexivity |]. split; [reflexivity |].
  apply (download_unmonitors_each_episode Sample.down Sample.sonarr_config
           Sample.download_fields Sample.download_episodes Sample.sonarr_client
           Sample.w0); reflexivity.
Defined.

(** An episode listed with the id 0 gets no unmonitor call although the
    gate passed: [if episode_id:] takes 0 for a missing id. *)
Lemma zero_id_is_not_unmonitored :
  fst (evaluate Sample.sonarr_config (quality_block Sample.zero_id_fields)
         Sample.w0) = Ok true /\
  Py.get (PDict Sample.zero_id_fields) "episodes" (PList []) =
    Ok (PList [PDict [("id", PInt 0)]]) /\
  fst (process_sonarr_webhook Sample.up Sample.sonarr_config
         (PDict Sample.zero_id_fields) Sample.w0) = Ok true /\
  trace (snd (process_sonarr_webhook Sample.up Sample.sonarr_config
                (PDict Sample.zero_id_fields) Sample.w0)) = [].
Proof. repeat split; vm_compute; reflexivity. Qed.

(** ** The verdict does not depend on the state *)

Lemma match_format_fst config format_name flag w w' :
  fst (match_format config format_name flag w) =
  fst (match_format config format_name flag w').
Proof.
  revert w w'. induction format_name as [|custom_format rest IH]; intros w w';
    cbn [match_format]; [reflexivity |].
  unfold bind, lift.
  destruct (cfg_item config "format_name") as [wanted|e]; [| reflexivity].
  destruct (Py.lower (PAtom wanted)) as [needle|e]; [| reflexivity].
  destruct (Py.lower custom_format) as [hay|e]; [| reflexivity].
  destruct (Str.contains needle hay); [reflexivity | apply IH].
Qed.

Lemma quality_gate_fst config quality_score format_name w w' :
  fst (quality_gate config quality_score format_name w) =
  fst (quality_gate config quality_score format_name w').
Proof.
  unfold quality_gate, bind, lift.
  destruct (cfg_get config "quality_score");
    [ simpl | | | ];
    try (destruct (cfg_item config "quality_score") as [threshold|e]; [| reflexivity];
         destruct (Py.ge quality_score threshold) as [[|]|e]; [| | reflexivity]; simpl);
    (destruct (_ && _); [apply match_format_fst | reflexivity]).
Qed.

Lemma evaluate_fst config quality w w' :
  fst (evaluate config quality w) = fst (evaluate config quality w').
Proof.
  unfold evaluate, bind, lift.
  destruct (quality_info quality) as [qi|e]; [apply quality_gate_fst | reflexivity].
Qed.

(** On a typed configuration and a well-formed quality block the gate
    gives a verdict. *)
Lemma evaluate_wf_ok config threshold substring d w :
  cfg_get config "quality_score" = opt_int threshold ->
  cfg_get config "format_name" = opt_str substring ->
  wf_quality (PDict d) = true ->
  exists verdict l, runs (evaluate config (PDict d)) w (Ok verdict) [] l.
Proof.
  intros Hq Hf Hwf.
  destruct (runs_evaluate config (PDict d) w) as [r [l [H _]]].
  pose proof (runs_fst _ _ _ _ _ H) as Hfst.
  unfold evaluate, bind, lift in Hfst. rewrite (quality_info_wf d Hwf) in Hfst.
  cbn [fst snd] in Hfst.
  rewrite (quality_gate_typed config threshold substring _ _ w Hq Hf) in Hfst.
  subst r. eauto.
Qed.

(** ** The Sonarr scan *)

Lemma runs_scan_episode_step config acc episode w :
  exists r l, runs (scan_episode_step config acc episode) w r [] l.
Proof.
  unfold scan_episode_step.
  destruct (Py.get episode "id" PNone) as [episode_id|e] eqn:E1;
    [| eexists _, _; repeat run_step].
  destruct (Py.is_none episode_id) eqn:N; [eexists _, _; repeat run_step |].
  destruct (Py.get episode "monitored" (PBool false)) as [mon|e] eqn:E2;
    [| eexists _, _; repeat run_step].
  destruct (Py.truthy mon) eqn:T1; [| eexists _, _; repeat run_step].
  destruct (Py.get episode "hasFile" (PBool false)) as [has|e] eqn:E3;
    [| eexists _, _; repeat run_step].
  destruct (Py.truthy has) eqn:T2; [| eexists _, _; repeat run_step].
  destruct (Py.get episode "episodeFile" (PDict [])) as [file|e] eqn:E4;
    [| eexists _, _; repeat run_step].
  destruct (runs_evaluate config file w) as [r [l [H _]]].
  destruct r as [[|]|e].
  - exists (Ok (acc ++ [episode_id])), (l ++ []).
    repeat run_step. eapply runs_bind_quiet; [exact H | apply runs_ret].
  - exists (Ok acc), (l ++ []).
    repeat run_step. eapply runs_bind_quiet; [exact H | apply runs_ret].
  - exists (Raise e), l. repeat run_step.
Qed.

Lemma scan_episode_step_fst config acc episode w :
  fst (scan_episode_step config acc episode w) =
  match fst (scan_episode_step config [] episode (mkWorld [] [])) with
  | Ok ids => Ok (acc ++ ids)
  | Raise e => Raise e
  end.
Proof.
  unfold scan_episode_step, bind, lift, ret.
  destruct (Py.get episode "id" PNone) as [episode_id|e]; [| reflexivity].
  destruct (Py.is_none episode_id); [simpl; now rewrite List.app_nil_r |].
  destruct (Py.get episode "monitored" (PBool false)) as [mon|e]; [| reflexivity].
  destruct (Py.truthy mon); simpl; [| now rewrite List.app_nil_r].
  destruct (Py.get episode "hasFile" (PBool false)) as [has|e]; [| reflexivity].
  destruct (Py.truthy has); simpl; [| now rewrite List.app_nil_r].
  destruct (Py.get episode "episodeFile" (PDict [])) as [file|e]; [| reflexivity].
  pose proof (evaluate_fst config file w (mkWorld [] [])) as Hfst.
  destruct (evaluate config file w) as [r1 w1].
  destruct (evaluate config file (mkWorld [] [])) as [r2 w2].
  simpl in Hfst. subst r2.
  destruct r1 as [[|]|e]; simpl; [reflexivity | now rewrite List.app_nil_r | reflexivity].
Qed.

Lemma scan_episode_step_selected config acc episode w ids :
  fst (scan_episode_step config acc episode w) = Ok ids ->
  ids = acc ++ selected config episode.
Proof.
  rewrite scan_episode_step_fst. unfold selected.
  destruct (fst (scan_episode_step config [] episode (mkWorld [] [])));
    intros H; inversion H. reflexivity.
Qed.

(** The episode loop over one list of episodes: it sends nothing and
    appends the selected ids, in order. *)
Lemma runs_scan_episodes config episodes acc w :
  exists r l,
    runs (for_fold (scan_episode_step config) episodes acc) w r [] l /\
    (forall ids, r = Ok ids -> ids = acc ++ flat_map (selected config) episodes).
Proof.
  revert acc w. induction episodes as [|episode episodes IH]; intros acc w;
    cbn [for_fold flat_map].
  - exists (Ok acc), []. split; [apply runs_ret |].
    intros ids H. inversion H. now rewrite List.app_nil_r.
  - destruct (runs_scan_episode_step config acc episode w) as [r1 [l1 H1]].
    destruct r1 as [acc1|e].
    + destruct (IH acc1 (mkWorld (trace w ++ []) (logs w ++ l1))) as [r2 [l2 [H2 S2]]].
      exists r2, (l1 ++ l2). split.
      * eapply runs_bind_quiet; [exact H1 | exact H2].
      * intros ids Hr. rewrite (S2 ids Hr).
        rewrite (scan_episode_step_selected config acc episode w acc1
                   (runs_fst _ _ _ _ _ H1)).
        now rewrite <- app_assoc.
    + exists (Raise e), l1. split; [now apply runs_bind_raise | discriminate].
Qed.

Lemma episodes_listed_app t1 t2 :
  episodes_listed (t1 ++ t2) = episodes_listed t1 ++ episodes_listed t2.
Proof. unfold episodes_listed. apply flat_map_app. Qed.

Lemma episodes_listed_single self series_id resp :
  episodes_listed
    [(get_request self (episodes_endpoint series_id ["includeEpisodeFile=true"]), resp)] =
  match value_of resp with
  | PList l => l
  | _ => []
  end.
Proof.
  unfold episodes_listed, episodes_listed_by, episodes_endpoint. simpl.
  destruct (Py.truthy series_id); simpl; rewrite List.app_nil_r; reflexivity.
Qed.

Lemma runs_get_episodes respond self series_id custom_headers w :
  service_type self = "sonarr" ->
  exists l,
    let req := get_request self (episodes_endpoint series_id custom_headers) in
    let v := value_of (respond (trace w) req) in
    runs (get_episodes respond self series_id custom_headers) w
      (Ok (if Py.is_list v then v else PNone)) [(req, respond (trace w) req)] l /\
    Forall plain l.
Proof.
  intros Hs. unfold get_episodes. rewrite Hs. simpl negb. cbv iota.
  destruct (runs_get respond self (episodes_endpoint series_id custom_headers) PNone w)
    as [l [H P]].
  exists (l ++ []). split; [| all_plain].
  change [(get_request self (episodes_endpoint series_id custom_headers),
           respond (trace w) (get_request self (episodes_endpoint series_id custom_headers)))]
    with ([(get_request self (episodes_endpoint series_id custom_headers),
            respond (trace w) (get_request self (episodes_endpoint series_id custom_headers)))]
          ++ []).
  eapply runs_bind; [exact H |]. cbv beta.
  destruct (Py.is_list _); apply runs_ret.
Qed.

Lemma runs_get_series respond self w :
  service_type self = "sonarr" ->
  exists l,
    let req := get_request self [Lit "series"] in
    let v := value_of (respond (trace w) req) in
    runs (get_series respond self) w
      (Ok (if Py.is_list v then v else PNone)) [(req, respond (trace w) req)] l /\
    Forall plain l.
Proof.
  intros Hs. unfold get_series. rewrite Hs. simpl negb. cbv iota.
  destruct (runs_get respond self [Lit "series"] PNone w) as [l [H P]].
  exists (l ++ []). split; [| all_plain].
  change [(get_request self [Lit "series"],
           respond (trace w) (get_request self [Lit "series"]))]
    with ([(get_request self [Lit "series"],
            respond (trace w) (get_request self [Lit "series"]))] ++ []).
  eapply runs_bind; [exact H |]. cbv beta.
  destruct (Py.is_list _); apply runs_ret.
Qed.

Lemma iter_of_list_or_none (v : pyval) :
  Py.iter (if Py.is_list v then v else PNone) =
  match v with
  | PList l => Ok l
  | _ => Raise TypeError
  end.
Proof. destruct v as [[| b | z | s] | l | d]; reflexivity. Qed.

(** One round of the series loop: at most one request, a GET that lists
    the episodes of the series; the ids selected among them are appended. *)
Lemma runs_scan_serie_step respond self config acc serie w :
  service_type self = "sonarr" ->
  exists r t l,
    runs (scan_serie_step respond self config acc serie) w r t l /\
    forallb is_get t = true /\
    (forall ids, r = Ok ids ->
       ids = acc ++ flat_map (selected config) (episodes_listed t)).
Proof.
  intros Hs. unfold scan_serie_step.
  destruct (Py.get serie "id" PNone) as [serie_id|e] eqn:E1.
  - destruct (Py.is_none serie_id) eqn:N.
    + exists (Ok acc), [], []. split; [repeat run_step |]. split; [reflexivity |].
      intros ids H. inversion H. simpl. now rewrite List.app_nil_r.
    + destruct (runs_get_episodes respond self serie_id ["includeEpisodeFile=true"] w Hs)
        as [l1 [H1 _]]. cbv zeta in H1.
      set (req := get_request self
                    (episodes_endpoint serie_id ["includeEpisodeFile=true"])) in *.
      set (resp := respond (trace w) req) in *.
      pose proof (iter_of_list_or_none (value_of resp)) as Hiter.
      pose proof (episodes_listed_single self serie_id resp) as Hlisted.
      fold req in Hlisted.
      destruct (value_of resp) as [a | episodes | d] eqn:V.
      * exists (Raise TypeError), ([(req, resp)] ++ []), (l1 ++ []).
        split; [repeat run_step |]. split; [reflexivity | discriminate].
      * destruct (runs_scan_episodes config episodes acc
                    (mkWorld (trace w ++ [(req, resp)]) (logs w ++ l1)))
          as [r2 [l2 [H2 S2]]].
        exists r2, ([(req, resp)] ++ []), (l1 ++ l2).
        split; [repeat run_step |]. split; [reflexivity |].
        intros ids Hr. rewrite List.app_nil_r, Hlisted. now apply S2.
      * exists (Raise TypeError), ([(req, resp)] ++ []), (l1 ++ []).
        split; [repeat run_step |]. split; [reflexivity | discriminate].
  - exists (Raise e), [], []. split; [repeat run_step |].
    split; [reflexivity | discriminate].
Qed.

Lemma runs_scan_series_loop respond self config series acc w :
  service_type self = "sonarr" ->
  exists r t l,
    runs (for_fold (scan_serie_step respond self config) series acc) w r t l /\
    forallb is_get t = true /\
    (forall ids, r = Ok ids ->
       ids = acc ++ flat_map (selected config) (episodes_listed t)).
Proof.
  intros Hs. revert acc w.
  induction series as [|serie series IH]; intros acc w; cbn [for_fold].
  - exists (Ok acc), [], []. split; [apply runs_ret |]. split; [reflexivity |].
    intros ids H. inversion H. simpl. now rewrite List.app_nil_r.
  - destruct (runs_scan_serie_step respond self config acc serie w Hs)
      as [r1 [t1 [l1 [H1 [G1 S1]]]]].
    destruct r1 as [acc1|e].
    + destruct (IH acc1 (mkWorld (trace w ++ t1) (logs w ++ l1)))
        as [r2 [t2 [l2 [H2 [G2 S2]]]]].
      exists r2, (t1 ++ t2), (l1 ++ l2). split; [| split].
      * eapply runs_bind; [exact H1 | exact H2].
      * rewrite forallb_app, G1, G2. reflexivity.
      * intros ids Hr. rewrite (S2 ids Hr), (S1 acc1 eq_refl).
        rewrite episodes_listed_app, flat_map_app. now rewrite <- app_assoc.
    + exists (Raise e), t1, l1. split; [now apply runs_bind_raise |].
      split; [exact G1 | discriminate].
Qed.

(** The enumeration of the Sonarr scan sends only GET requests, and when
    it completes it has collected, in order, the ids selected among all the
    episodes that were listed. *)
Lemma runs_scan_series respond self config w :
  service_type self = "sonarr" ->
  exists r t l,
    runs (scan_series respond self config) w r t l /\
    forallb is_get t = true /\
    (forall ids, r = Ok ids ->
       ids = flat_map (selected config) (episodes_listed t)).
Proof.
  intros Hs. unfold scan_series.
  destruct (runs_get_series respond self w Hs) as [l1 [H1 _]]. cbv zeta in H1.
  set (req := get_request self [Lit "series"]) in *.
  set (resp := respond (trace w) req) in *.
  destruct (value_of resp) as [a | series | d] eqn:V.
  - exists (Raise TypeError), ([(req, resp)] ++ []), (l1 ++ []).
    split; [repeat run_step |]. split; [reflexivity | discriminate].
  - destruct (runs_scan_series_loop respond self config series []
                (mkWorld (trace w ++ [(req, resp)]) (logs w ++ l1)) Hs)
      as [r2 [t2 [l2 [H2 [G2 S2]]]]].
    exists r2, ([(req, resp)] ++ t2), (l1 ++ l2). split; [| split].
    + repeat run_step.
    + simpl. exact G2.
    + intros ids Hr. rewrite (S2 ids Hr). rewrite episodes_listed_app. reflexivity.
  - exists (Raise TypeError), ([(req, resp)] ++ []), (l1 ++ []).
    split; [repeat run_step |]. split; [reflexivity | discriminate].
Qed.

Lemma runs_unmonitor_episodes respond self id ids w :
  service_type self = "sonarr" ->
  exists l,
    let req := bulk_request self (id :: ids) in
    runs (unmonitor_episodes respond self (id :: ids)) w
      (Ok (Py.truthy (value_of (respond (trace w) req))))
      [(req, respond (trace w) req)] l.
Proof.
  intros Hs. unfold unmonitor_episodes. rewrite Hs. simpl negb. cbv iota.
  cbn [length Nat.eqb].
  destruct (runs_put respond self [Lit "episode/monitor"]
              (PDict [("episodeIds", PList (id :: ids)); ("monitored", PBool false)]) w)
    as [l1 [H1 _]].
  fold (bulk_request self (id :: ids)) in H1. cbv zeta.
  set (req := bulk_request self (id :: ids)) in *.
  destruct (Py.truthy (value_of (respond (trace w) req))) eqn:T.
  - eexists. apply runs_try_ok.
    change [(req, respond (trace w) req)] with ([(req, respond (trace w) req)] ++ []).
    eapply runs_bind; [exact H1 |]. cbv beta. rewrite T. repeat run_step.
  - eexists. apply runs_try_ok.
    change [(req, respond (trace w) req)] with ([(req, respond (trace w) req)] ++ []).
    eapply runs_bind; [exact H1 |]. cbv beta. rewrite T. repeat run_step.
Qed.

Lemma selected_skip config (e : list (string * pyval)) :
  Py.truthy (field e "monitored" (PBool false)) = false \/
  Py.truthy (field e "hasFile" (PBool false)) = false ->
  selected config (PDict e) = [].
Proof.
  intros H. unfold selected, scan_episode_step, bind at 1, lift.
  cbn [Py.get]. fold (field e "id" PNone).
  destruct (Py.is_none (field e "id" PNone)); [reflexivity |].
  unfold bind at 1. fold (field e "monitored" (PBool false)).
  destruct (Py.truthy (field e "monitored" (PBool false))); [| reflexivity].
  cbn [negb]. unfold bind at 1. fold (field e "hasFile" (PBool false)).
  destruct H as [H | H]; [discriminate |]. rewrite H. reflexivity.
Qed.

Lemma selected_match config (e : list (string * pyval)) :
  Py.is_none (field e "id" PNone) = false ->
  Py.truthy (field e "monitored" (PBool false)) = true ->
  Py.truthy (field e "hasFile" (PBool false)) = true ->
  selected config (PDict e) =
  match verdict_of config (field e "episodeFile" (PDict [])) with
  | Ok true => [field e "id" PNone]
  | _ => []
  end.
Proof.
  intros Hid Hmon Hfile. unfold selected, verdict_of, scan_episode_step, lift.
  unfold bind at 1. cbn [Py.get]. fold (field e "id" PNone). rewrite Hid.
  unfold bind at 1. fold (field e "monitored" (PBool false)). rewrite Hmon.
  cbn [negb]. unfold bind at 1. fold (field e "hasFile" (PBool false)).
  rewrite Hfile. cbn [negb]. unfold bind at 1. unfold bind at 1.
  fold (field e "episodeFile" (PDict [])).
  destruct (evaluate config (field e "episodeFile" (PDict [])) (mkWorld [] []))
    as [[[|]|x] w1]; reflexivity.
Qed.

(** The trace of one round of the series loop: nothing for a series
    without an id, the request for its episodes otherwise; an item that is
    not a JSON object makes the round raise at once. *)
Lemma scan_serie_step_trace respond self config acc serie w r t l :
  service_type self = "sonarr" ->
  runs (scan_serie_step respond self config acc serie) w r t l ->
  match serie with
  | PDict d =>
      t = if Py.is_none (field d "id" PNone) then []
          else [(episodes_request self (field d "id" PNone),
                 respond (trace w) (episodes_request self (field d "id" PNone)))]
  | _ => t = [] /\ ended_well r = false
  end.
Proof.
  intros Hs H.
  assert (Hdet : forall r' t' l',
            runs (scan_serie_step respond self config acc serie) w r' t' l' ->
            r = r' /\ t = t').
  { intros r' t' l' H'. destruct (runs_det _ _ _ _ _ _ _ _ H H') as [? [? _]]. auto. }
  unfold scan_serie_step in Hdet.
  destruct serie as [a | x | d].
  - destruct (Hdet (Raise AttributeError) [] []) as [-> ->]; [repeat run_step |].
    split; reflexivity.
  - destruct (Hdet (Raise AttributeError) [] []) as [-> ->]; [repeat run_step |].
    split; reflexivity.
  - assert (E1 : Py.get (PDict d) "id" PNone = Ok (field d "id" PNone)) by reflexivity.
    destruct (Py.is_none (field d "id" PNone)) eqn:N.
    + destruct (Hdet (Ok acc) [] []) as [_ ->]; [repeat run_step | reflexivity].
    + destruct (runs_get_episodes respond self (field d "id" PNone)
                  ["includeEpisodeFile=true"] w Hs) as [l1 [H1 _]]. cbv zeta in H1.
      fold (episodes_request self (field d "id" PNone)) in H1.
      set (req := episodes_request self (field d "id" PNone)) in *.
      set (resp := respond (trace w) req) in *.
      pose proof (iter_of_list_or_none (value_of resp)) as Hiter.
      destruct (value_of resp) as [a | episodes | d'] eqn:V.
      * destruct (Hdet (Raise TypeError) ([(req, resp)] ++ []) (l1 ++ []))
          as [_ ->]; [repeat run_step | reflexivity].
      * destruct (runs_scan_episodes config episodes acc
                    (mkWorld (trace w ++ [(req, resp)]) (logs w ++ l1)))
          as [r2 [l2 [H2 _]]].
        destruct (Hdet r2 ([(req, resp)] ++ []) (l1 ++ l2))
          as [_ ->]; [repeat run_step | reflexivity].
      * destruct (Hdet (Raise TypeError) ([(req, resp)] ++ []) (l1 ++ []))
          as [_ ->]; [repeat run_step | reflexivity].
Qed.

(** When the series loop completes, every listed series was a JSON object
    and the exchanges are the listings of their episodes. *)
Lemma scan_series_loop_ok respond self config series acc w ids t l :
  service_type self = "sonarr" ->
  runs (for_fold (scan_serie_step respond self config) series acc) w (Ok ids) t l ->
  forallb Py.is_dict series = true /\
  t = episode_listings respond self (trace w) series.
Proof.
  intros Hs. revert acc w ids t l.
  induction series as [|serie series IH]; intros acc w ids t l H; cbn [for_fold] in H.
  - destruct (runs_det _ _ _ _ _ _ _ _ H (runs_ret acc w)) as [_ [-> _]].
    split; reflexivity.
  - destruct (runs_scan_serie_step respond self config acc serie w Hs)
      as [r1 [t1 [l1 [H1 _]]]].
    pose proof (scan_serie_step_trace respond self config acc serie w r1 t1 l1 Hs H1)
      as Htrace.
    destruct r1 as [acc1|e].
    + destruct (runs_scan_series_loop respond self config series acc1
                  (mkWorld (trace w ++ t1) (logs w ++ l1)) Hs)
        as [r2 [t2 [l2 [H2 _]]]].
      destruct (runs_det _ _ _ _ _ _ _ _ H (runs_bind _ _ _ _ _ _ _ _ _ H1 H2))
        as [<- [-> _]].
      destruct (IH acc1 _ ids t2 l2 H2) as [Hd Ht]. cbn [trace] in Ht.
      destruct serie as [a | x | d]; [now destruct Htrace | now destruct Htrace |].
      cbn [forallb Py.is_dict episode_listings]. split; [exact Hd |].
      destruct (Py.is_none (field d "id" PNone)); subst t1.
      * rewrite List.app_nil_r in Ht. exact Ht.
      * cbv zeta. rewrite Ht. reflexivity.
    + pose proof (runs_bind_raise _
                    (fun acc' => for_fold (scan_serie_step respond self config) series acc')
                    _ _ _ _ H1) as Hr.
      destruct (runs_det _ _ _ _ _ _ _ _ H Hr) as [Habs _]. discriminate.
Qed.

(** When the enumeration completes, the listing of the series was a list
    of JSON objects and the exchanges are that listing followed by the
    listings of the episodes of each series. *)
Lemma scan_series_ok respond self config w ids t l :
  service_type self = "sonarr" ->
  runs (scan_series respond self config) w (Ok ids) t l ->
  let listing := get_request self [Lit "series"] in
  let listed := respond (trace w) listing in
  exists series,
    value_of listed = PList series /\
    forallb Py.is_dict series = true /\
    t = (listing, listed) ::
        episode_listings respond self (trace w ++ [(listing, listed)]) series.
Proof.
  intros Hs H. cbv zeta.
  assert (Hdet : forall r' t' l',
            runs (scan_series respond self config) w r' t' l' ->
            Ok ids = r' /\ t = t').
  { intros r' t' l' H'. destruct (runs_det _ _ _ _ _ _ _ _ H H') as [? [? _]]. auto. }
  unfold scan_series in Hdet.
  destruct (runs_get_series respond self w Hs) as [l1 [H1 _]]. cbv zeta in H1.
  set (req := get_request self [Lit "series"]) in *.
  set (resp := respond (trace w) req) in *.
  destruct (value_of resp) as [a | series | d] eqn:V.
  - destruct (Hdet (Raise TypeError) ([(req, resp)] ++ []) (l1 ++ [])) as [Habs _];
      [repeat run_step | discriminate].
  - destruct (runs_scan_series_loop respond self config series []
                (mkWorld (trace w ++ [(req, resp)]) (logs w ++ l1)) Hs)
      as [r2 [t2 [l2 [H2 _]]]].
    destruct (Hdet r2 ([(req, resp)] ++ t2) (l1 ++ l2)) as [<- ->];
      [repeat run_step |].
    destruct (scan_series_loop_ok respond self config series [] _ ids t2 l2 Hs H2)
      as [Hd Ht].
    exists series. split; [reflexivity |]. split; [exact Hd |].
    rewrite Ht. reflexivity.
  - destruct (Hdet (Raise TypeError) ([(req, resp)] ++ []) (l1 ++ [])) as [Habs _];
      [repeat run_step | discriminate].
Qed.

(** On a typed configuration, a round of the episode loop on a well-formed
    episode ends normally. *)
Lemma scan_episode_step_wf config threshold substring acc episode w :
  cfg_get config "quality_score" = opt_int threshold ->
  cfg_get config "format_name" = opt_str substring ->
  wf_episode episode = true ->
  exists acc1 l, runs (scan_episode_step config acc episode) w (Ok acc1) [] l.
Proof.
  intros Hq Hf Hwf. destruct episode as [a | x | e]; try discriminate.
  unfold scan_episode_step. cbn [Py.get].
  fold (field e "id" PNone) (field e "monitored" (PBool false))
       (field e "hasFile" (PBool false)) (field e "episodeFile" (PDict [])).
  destruct (Py.is_none (field e "id" PNone)) eqn:N; [eexists _, _; repeat run_step |].
  destruct (Py.truthy (field e "monitored" (PBool false))) eqn:T1;
    [| eexists _, _; repeat run_step].
  destruct (Py.truthy (field e "hasFile" (PBool false))) eqn:T2;
    [| eexists _, _; repeat run_step].
  cbn [wf_episode] in Hwf.
  destruct (field e "episodeFile" (PDict [])) as [a | x | file] eqn:F; try discriminate.
  destruct (evaluate_wf_ok config threshold substring file w Hq Hf Hwf)
    as [verdict [l H]].
  destruct verdict.
  - exists (acc ++ [field e "id" PNone]), (l ++ []).
    repeat run_step. eapply runs_bind_quiet; [exact H | apply runs_ret].
  - exists acc, (l ++ []).
    repeat run_step. eapply runs_bind_quiet; [exact H | apply runs_ret].
Qed.

Lemma scan_episodes_wf config threshold substring episodes acc w :
  cfg_get config "quality_score" = opt_int threshold ->
  cfg_get config "format_name" = opt_str substring ->
  forallb wf_episode episodes = true ->
  exists ids l, runs (for_fold (scan_episode_step config) episodes acc) w (Ok ids) [] l.
Proof.
  intros Hq Hf. revert acc w.
  induction episodes as [|episode episodes IH]; intros acc w Hwf; cbn [for_fold].
  - exists acc, []. apply runs_ret.
  - simpl in Hwf. apply andb_true_iff in Hwf. destruct Hwf as [Hw Hws].
    destruct (scan_episode_step_wf config threshold substring acc episode w Hq Hf Hw)
      as [acc1 [l1 H1]].
    destruct (IH acc1 (mkWorld (trace w ++ []) (logs w ++ l1)) Hws) as [ids [l2 H2]].
    exists ids, (l1 ++ l2). eapply runs_bind_quiet; [exact H1 | exact H2].
Qed.

(** On well-formed data the series loop completes. *)
Lemma scan_series_loop_wf respond self config threshold substring series acc w :
  service_type self = "sonarr" ->
  cfg_get config "quality_score" = opt_int threshold ->
  cfg_get config "format_name" = opt_str substring ->
  forallb Py.is_dict series = true ->
  (forall h d,
     In (PDict d) series ->
     Py.is_none (field d "id" PNone) = false ->
     exists episodes,
       value_of (respond h (episodes_request self (field d "id" PNone)))
         = PList episodes /\
       forallb wf_episode episodes = true) ->
  exists ids t l,
    runs (for_fold (scan_serie_step respond self config) series acc) w (Ok ids) t l.
Proof.
  intros Hs Hq Hf. revert acc w.
  induction series as [|serie series IH]; intros acc w Hd Heps; cbn [for_fold].
  - exists acc, [], []. apply runs_ret.
  - simpl in Hd. apply andb_true_iff in Hd. destruct Hd as [Hd Hds].
    destruct serie as [a | x | d]; try discriminate.
    assert (Hstep : exists acc1 t1 l1,
              runs (scan_serie_step respond self config acc (PDict d)) w (Ok acc1) t1 l1).
    { unfold scan_serie_step. cbn [Py.get]. fold (field d "id" PNone).
      destruct (Py.is_none (field d "id" PNone)) eqn:N;
        [eexists _, _, _; repeat run_step |].
      destruct (runs_get_episodes respond self (field d "id" PNone)
                  ["includeEpisodeFile=true"] w Hs) as [l1 [H1 _]]. cbv zeta in H1.
      fold (episodes_request self (field d "id" PNone)) in H1.
      destruct (Heps (trace w) d (or_introl eq_refl) N) as [episodes [V Hwf]].
      rewrite V in H1. cbn [Py.is_list] in H1.
      destruct (scan_episodes_wf config threshold substring episodes acc
                  (mkWorld (trace w ++ [(episodes_request self (field d "id" PNone),
                      respond (trace w) (episodes_request self (field d "id" PNone)))])
                     (logs w ++ l1)) Hq Hf Hwf) as [ids [l2 H2]].
      eexists _, _, _. repeat run_step. }
    destruct Hstep as [acc1 [t1 [l1 H1]]].
    destruct (IH acc1 (mkWorld (trace w ++ t1) (logs w ++ l1)) Hds
                (fun h d' Hin => Heps h d' (or_intror Hin))) as [ids [t2 [l2 H2]]].
    exists ids, (t1 ++ t2), (l1 ++ l2). eapply runs_bind; [exact H1 | exact H2].
Qed.

(** C6. In the Sonarr scan the enumeration sends only GET requests.  An
    episode that is unmonitored or has no file adds nothing to the collected
    ids; an episode with an id, monitored and with a file adds its id exactly
    when the gate passes on its file metadata.  When the enumeration
    completes, it has run over the whole listing: what it exchanged is the
    listing of the series followed, for each listed series with an id, by the
    listing of its episodes, and the collected ids are those selected among
    all the episodes listed, in order; on well-formed data (a typed
    configuration, a listing of series that are JSON objects, episode
    listings of well-formed episodes) it does complete.  With no id
    collected, the scan sends nothing more and reports success; with some
    ids, it sends exactly one more request, the bulk PUT carrying these ids
    with monitored false.  When the enumeration fails, no PUT is sent and the
    scan reports failure. *)
Theorem sonarr_scan_one_bulk_call
    (respond : list (request * response) -> request -> response)
    (config : gmap string atom) (self : client) (w : world) :
  client_for config "sonarr" = Ok self ->
  let listing := get_request self [Lit "series"] in
  let listed := respond (trace w) listing in
  (forall e,
     Py.truthy (field e "monitored" (PBool false)) = false \/
     Py.truthy (field e "hasFile" (PBool false)) = false ->
     selected config (PDict e) = []) /\
  (forall e,
     Py.is_none (field e "id" PNone) = false ->
     Py.truthy (field e "monitored" (PBool false)) = true ->
     Py.truthy (field e "hasFile" (PBool false)) = true ->
     selected config (PDict e) =
     match verdict_of config (field e "episodeFile" (PDict [])) with
     | Ok true => [field e "id" PNone]
     | _ => []
     end) /\
  exists r t l,
    runs (scan_series respond self config) w r t l /\
    forallb is_get t = true /\
    (forall threshold substring series,
       cfg_get config "quality_score" = opt_int threshold ->
       cfg_get config "format_name" = opt_str substring ->
       value_of listed = PList series ->
       forallb Py.is_dict series = true ->
       (forall h d,
          In (PDict d) series ->
          Py.is_none (field d "id" PNone) = false ->
          exists episodes,
            value_of (respond h (episodes_request self (field d "id" PNone)))
              = PList episodes /\
            forallb wf_episode episodes = true) ->
       ended_well r = true) /\
    match r with
    | Ok ids =>
        (exists series,
           value_of listed = PList series /\
           forallb Py.is_dict series = true /\
           t = (listing, listed) ::
               episode_listings respond self (trace w ++ [(listing, listed)]) series) /\
        ids = flat_map (selected config) (episodes_listed t) /\
        match ids with
        | [] =>
            exists l',
              runs (process_sonarr_force_unmonitor respond config) w (Ok true) t l'
        | _ :: _ =>
            let resp := respond (trace w ++ t) (bulk_request self ids) in
            exists l',
              runs (process_sonarr_force_unmonitor respond config) w
                (Ok (Py.truthy (value_of resp)))
                (t ++ [(bulk_request self ids, resp)]) l'
        end
    | Raise e =>
        exists l',
          runs (process_sonarr_force_unmonitor respond config) w (Ok false) t l'
    end.
Proof.
  intros Hclient. cbv zeta.
  split; [intros e; apply selected_skip |].
  split; [intros e; apply selected_match |].
  pose proof (client_for_service _ _ _ Hclient) as Hs. simpl in Hs.
  destruct (runs_scan_series respond self config w Hs) as [r [t [l [H [G S]]]]].
  exists r, t, l. split; [exact H |]. split; [exact G |].
  split.
  { intros threshold substring series Hq Hf V Hd Heps.
    destruct (runs_get_series respond self w Hs) as [l1 [H1 _]]. cbv zeta in H1.
    rewrite V in H1. cbn [Py.is_list] in H1.
    destruct (scan_series_loop_wf respond self config threshold substring series []
                (mkWorld (trace w ++ [(get_request self [Lit "series"],
                    respond (trace w) (get_request self [Lit "series"]))])
                   (logs w ++ l1)) Hs Hq Hf Hd Heps) as [ids [t2 [l2 H2]]].
    assert (Hrun : runs (scan_series respond self config) w (Ok ids)
                     ([(get_request self [Lit "series"],
                        respond (trace w) (get_request self [Lit "series"]))] ++ t2)
                     (l1 ++ l2)).
    { unfold scan_series. eapply runs_bind; [exact H1 | cbv beta].
      cbn [Py.iter]. run_step. exact H2. }
    destruct (runs_det _ _ _ _ _ _ _ _ H Hrun) as [-> _]. reflexivity. }
  unfold process_sonarr_force_unmonitor.
  destruct r as [ids|e].
  - split; [exact (scan_series_ok respond self config w ids t l Hs H) |].
    split; [now apply S |].
    destruct ids as [|id ids].
    + eexists. rewrite <- (List.app_nil_r t) at 1.
      apply runs_try_ok. repeat run_step.
    + destruct (runs_unmonitor_episodes respond self id ids
                  (mkWorld (trace w ++ t) (logs w ++ l)) Hs) as [l2 H2].
      cbv zeta in *. simpl in H2.
      eexists. apply runs_try_ok. repeat run_step.
  - eexists. rewrite <- (List.app_nil_r t) at 1.
    eapply runs_try_raise; repeat run_step.
Qed.

Lemma sonarr_scan_one_bulk_call_witness :
  let listing := get_request Sample.sonarr_client [Lit "series"] in
  let first := episodes_request Sample.sonarr_client (PInt 1) in
  let second := episodes_request Sample.sonarr_client (PInt 2) in
  let enumeration :=
    [(listing, RespJson (PList [PDict [("id", PInt 1)]; PDict [("id", PInt 2)]]));
     (first, RespJson (PList [Sample.episode_a]));
     (second, RespJson (PList [Sample.episode_b]))] in
  client_for Sample.sonarr_config "sonarr" = Ok Sample.sonarr_client /\
  selected Sample.sonarr_config Sample.episode_a = [] /\
  selected Sample.sonarr_config Sample.episode_b = [PInt 22] /\
  exists l l',
    runs (scan_series Sample.library Sample.sonarr_client Sample.sonarr_config)
      Sample.w0 (Ok [PInt 22]) enumeration l /\
    runs (process_sonarr_force_unmonitor Sample.library Sample.sonarr_config)
      Sample.w0 (Ok true)
      (enumeration ++ [(bulk_request Sample.sonarr_client [PInt 22], RespNoJson)]) l'.
Proof.
  cbv zeta. split; [reflexivity |].
  destruct (sonarr_scan_one_bulk_call Sample.library Sample.sonarr_config
              Sample.sonarr_client Sample.w0 eq_refl)
    as [Hskip [Hmatch [r [t [l [H [_ [Hwf Hscan]]]]]]]].
  split; [apply Hskip; right; reflexivity |].
  split; [unfold Sample.episode_b; rewrite Hmatch by reflexivity; reflexivity |].
  assert (Hok : ended_well r = true).
  { apply (Hwf (Some 80) (Some "HDR")
             [PDict [("id", PInt 1)]; PDict [("id", PInt 2)]]);
      [reflexivity | reflexivity | reflexivity | reflexivity |].
    intros h d [Hd | [Hd | []]] _; inversion Hd; subst d.
    - exists [Sample.episode_a]. split; reflexivity.
    - exists [Sample.episode_b]. split; reflexivity. }
  destruct r as [ids|e]; [| discriminate].
  destruct Hscan as [[series [V [_ Ht]]] [Hids Hput]].
  vm_compute in V. inversion V; subst series. clear V.
  cbn [episode_listings field Py.assoc String.eqb Ascii.eqb Bool.eqb Py.is_none] in Ht.
  cbv zeta in Ht.
  assert (Ht' : t =
    [(get_request Sample.sonarr_client [Lit "series"],
      RespJson (PList [PDict [("id", PInt 1)]; PDict [("id", PInt 2)]]));
     (episodes_request Sample.sonarr_client (PInt 1), RespJson (PList [Sample.episode_a]));
     (episodes_request Sample.sonarr_client (PInt 2), RespJson (PList [Sample.episode_b]))]).
  { rewrite Ht. reflexivity. }
  clear Ht. subst t.
  assert (Hids' : ids = [PInt 22]) by (rewrite Hids; reflexivity).
  subst ids. cbv zeta in Hput. destruct Hput as [l' Hput].
  exists l, l'. split; [exact H | exact Hput].
Defined.

(** The scenario of the specification, run: two series with one episode
    each; the scan lists the series, lists the episodes of each, and sends
    one bulk request for the episode that has a file and passes the gate. *)
Example sonarr_scan_scenario :
  fst (process_sonarr_force_unmonitor Sample.library Sample.sonarr_config Sample.w0)
    = Ok true /\
  map (fun ex => (verb (fst ex), endpoint_of (fst ex), body (fst ex)))
      (trace (snd (process_sonarr_force_unmonitor Sample.library
                     Sample.sonarr_config Sample.w0))) =
  [("GET", [Lit "series"], PNone);
   ("GET", [Lit "episode"; Lit "?seriesId="; Val (PInt 1); Lit "&";
            Lit "includeEpisodeFile=true"], PNone);
   ("GET", [Lit "episode"; Lit "?seriesId="; Val (PInt 2); Lit "&";
            Lit "includeEpisodeFile=true"], PNone);
   ("PUT", [Lit "episode/monitor"],
    PDict [("episodeIds", PList [PInt 22]); ("monitored", PBool false)])].
Proof. split; vm_compute; reflexivity. Qed.

Lemma runs_cast_both {A} (m : M A) w r t t' l l' :
  runs m w r t l -> t = t' -> l = l' -> runs m w r t' l'.
Proof. now intros H <- <-. Qed.

(** ** Computations that only append to the world *)

Lemma appends_ret {A} (a : A) : appends (ret a).
Proof. intros w. eexists _, _, _. apply runs_ret. Qed.

Lemma appends_lift {A} (r : result A) : appends (lift r).
Proof. intros w. eexists _, _, _. apply runs_lift. Qed.

Lemma appends_log lv msg : appends (log lv msg).
Proof. intros w. eexists _, _, _. apply runs_log. Qed.

Lemma appends_bind {A B} (m : M A) (k : A -> M B) :
  appends m -> (forall a, appends (k a)) -> appends (bind m k).
Proof.
  intros Hm Hk w. destruct (Hm w) as [[a|e] [t1 [l1 H1]]].
  - destruct (Hk a (mkWorld (trace w ++ t1) (logs w ++ l1))) as [r [t2 [l2 H2]]].
    eexists _, _, _. eapply runs_bind; eassumption.
  - eexists _, _, _. eapply runs_bind_raise; eassumption.
Qed.

Lemma appends_try {A} (m : M A) (h : exn -> M A) :
  appends m -> (forall e, appends (h e)) -> appends (try_except m h).
Proof.
  intros Hm Hh w. destruct (Hm w) as [[a|e] [t1 [l1 H1]]].
  - eexists _, _, _. eapply runs_try_ok; eassumption.
  - destruct (Hh e (mkWorld (trace w ++ t1) (logs w ++ l1))) as [r [t2 [l2 H2]]].
    eexists _, _, _. eapply runs_try_raise; eassumption.
Qed.

Lemma appends_for_fold {A} (step : A -> pyval -> M A) (l : list pyval) :
  (forall acc x, appends (step acc x)) -> forall acc, appends (for_fold step l acc).
Proof.
  intros Hstep. induction l as [|x l IH]; intros acc; cbn [for_fold].
  - apply appends_ret.
  - apply appends_bind; [apply Hstep | exact IH].
Qed.

Lemma appends_for_each (step : pyval -> M unit) (l : list pyval) :
  (forall x, appends (step x)) -> appends (for_each step l).
Proof. intros Hstep. apply appends_for_fold. intros _ x. apply Hstep. Qed.

Lemma appends_send respond req : appends (send respond req).
Proof.
  intros w. destruct (runs_send respond req w) as [l [H _]]. eexists _, _, _. exact H.
Qed.

Lemma appends_evaluate config quality : appends (evaluate config quality).
Proof.
  intros w. destruct (runs_evaluate config quality w) as [r [l [H _]]].
  eexists _, _, _. exact H.
Qed.

Lemma returns_appends {A} (m : M A) : returns m -> appends m.
Proof. intros H w. destruct (H w) as [a [t [l Hr]]]. eexists _, _, _. exact Hr. Qed.

(** A [try] whose handler only logs and returns never raises. *)
Lemma returns_try {A} (m : M A) (h : exn -> M A) :
  appends m -> (forall e, returns (h e)) -> returns (try_except m h).
Proof.
  intros Hm Hh w. destruct (Hm w) as [[a|e] [t1 [l1 H1]]].
  - eexists _, _, _. eapply runs_try_ok; eassumption.
  - destruct (Hh e (mkWorld (trace w ++ t1) (logs w ++ l1))) as [r [t2 [l2 H2]]].
    eexists _, _, _. eapply runs_try_raise; eassumption.
Qed.

Lemma returns_log_ret {A} lv msg (a : A) : returns (log lv msg ;; ret a).
Proof. intros w. eexists _, _, _. repeat run_step. Qed.

Lemma returns_ret {A} (a : A) : returns (ret a).
Proof. intros w. eexists _, _, _. apply runs_ret. Qed.

Lemma returns_bind {A B} (m : M A) (k : A -> M B) :
  returns m -> (forall a, returns (k a)) -> returns (bind m k).
Proof.
  intros Hm Hk w. destruct (Hm w) as [a [t1 [l1 H1]]].
  destruct (Hk a (mkWorld (trace w ++ t1) (logs w ++ l1))) as [r [t2 [l2 H2]]].
  eexists _, _, _. eapply runs_bind; eassumption.
Qed.

(** One step of the proof that a computation only appends, read off its
    shape. *)
Ltac appends_step :=
  match goal with
  | |- appends (send _ _) => apply appends_send
  | |- appends (evaluate _ _) => apply appends_evaluate
  | |- appends (for_each _ _) => apply appends_for_each; intros ?
  | |- appends (for_fold _ _ _) => apply appends_for_fold; intros ? ?
  | |- appends (try_except _ _) => apply appends_try; [| intros ?]
  | |- appends (bind _ _) => apply appends_bind; [| intros ?]
  | |- appends (ret _) => apply appends_ret
  | |- appends (lift _) => apply appends_lift
  | |- appends (log _ _) => apply appends_log
  | |- appends (if ?c then _ else _) => destruct c
  | |- appends (match ?x with _ => _ end) => destruct x
  | |- appends (_make_request _ _ _ _ _) => unfold _make_request; cbv zeta
  | |- appends (unmonitor_episode _ _ _) => unfold unmonitor_episode
  | |- appends (unmonitor_episodes _ _ _) => unfold unmonitor_episodes
  | |- appends (unmonitor_movie _ _ _) => unfold unmonitor_movie
  | |- appends (get_episodes _ _ _ _) => unfold get_episodes
  | |- appends (get_series _ _) => unfold get_series
  | |- appends (get_movies _ _) => unfold get_movies
  | |- appends (get_movie_file _ _ _) => unfold get_movie_file
  | |- appends (test_connection _ _) => unfold test_connection
  | |- appends (webhook_episode_step _ _ _) => unfold webhook_episode_step
  | |- appends (scan_episode_step _ _ _) => unfold scan_episode_step
  | |- appends (scan_serie_step _ _ _ _ _) => unfold scan_serie_step
  | |- appends (scan_series _ _ _) => unfold scan_series
  | |- appends (scan_movie_step _ _ _ _) => unfold scan_movie_step
  end.

Lemma appends_scan_movie_step respond self config movie :
  appends (scan_movie_step respond self config movie).
Proof. repeat appends_step. Qed.

(** ** The Radarr scan *)

Lemma runs_unmonitor_movie respond self movie_id w :
  service_type self = "radarr" ->
  exists success t l, runs (unmonitor_movie respond self movie_id) w (Ok success) t l.
Proof.
  intros Hs. unfold unmonitor_movie. rewrite Hs. simpl negb. cbv iota.
  destruct (runs_get respond self [Lit "movie/"; Val movie_id] PNone w)
    as [l1 [H1 _]].
  remember (value_of (respond (trace w)
              (get_request self [Lit "movie/"; Val movie_id]))) as movie.
  destruct (Py.truthy movie) eqn:T.
  - destruct (Py.setitem movie "monitored" (PBool false)) as [movie'|e] eqn:S.
    + destruct (runs_put respond self [Lit "movie/"; Val movie_id] movie'
                  (mkWorld (trace w ++ [(get_request self [Lit "movie/"; Val movie_id],
                      respond (trace w) (get_request self [Lit "movie/"; Val movie_id]))])
                     (logs w ++ l1))) as [l2 [H2 _]].
      simpl in H2.
      remember (value_of (respond _ (put_request self _ movie'))) as result.
      destruct (Py.truthy result) eqn:T2;
        eexists _, _, _; eapply runs_try_ok; repeat run_step.
    + eexists _, _, _. eapply runs_try_raise; repeat run_step.
  - eexists _, _, _. eapply runs_try_ok. repeat run_step.
Qed.

Lemma runs_get_movie_file respond self movie_file_id w :
  service_type self = "radarr" ->
  Py.is_none movie_file_id = false ->
  exists l,
    let req := movie_file_request self movie_file_id in
    let v := value_of (respond (trace w) req) in
    runs (get_movie_file respond self movie_file_id) w
      (Ok (if Py.is_dict v then v else PNone)) [(req, respond (trace w) req)] l.
Proof.
  intros Hs Hn. unfold get_movie_file. rewrite Hs, Hn. simpl negb. cbv iota.
  destruct (runs_get respond self [Lit "moviefile/"; Val movie_file_id] PNone w)
    as [l [H _]].
  exists (l ++ []). cbv zeta. unfold movie_file_request.
  set (req := get_request self [Lit "moviefile/"; Val movie_file_id]) in *.
  change [(req, respond (trace w) req)] with ([(req, respond (trace w) req)] ++ []).
  eapply runs_bind; [exact H |]. cbv beta.
  destruct (Py.is_dict _); apply runs_ret.
Qed.

Lemma runs_get_movies respond self w :
  service_type self = "radarr" ->
  exists l,
    let req := get_request self [Lit "movie"] in
    let v := value_of (respond (trace w) req) in
    runs (get_movies respond self) w
      (Ok (if Py.is_list v then v else PNone)) [(req, respond (trace w) req)] l.
Proof.
  intros Hs. unfold get_movies. rewrite Hs. simpl negb. cbv iota.
  destruct (runs_get respond self [Lit "movie"] PNone w) as [l [H _]].
  exists (l ++ []). cbv zeta.
  set (req := get_request self [Lit "movie"]) in *.
  change [(req, respond (trace w) req)] with ([(req, respond (trace w) req)] ++ []).
  eapply runs_bind; [exact H |]. cbv beta.
  destruct (Py.is_list _); apply runs_ret.
Qed.

(** A movie whose file cannot be fetched: the round sends the fetch and
    nothing else, and ends normally. *)
Lemma runs_scan_movie_step_no_file respond self config (d : list (string * pyval)) w :
  service_type self = "radarr" ->
  Py.is_none (field d "id" PNone) = false ->
  Py.is_none (field d "movieFileId" PNone) = false ->
  Py.truthy (field d "monitored" (PBool false)) = true ->
  Py.is_dict (value_of (respond (trace w)
                (movie_file_request self (field d "movieFileId" PNone)))) = false ->
  exists l,
    runs (scan_movie_step respond self config (PDict d)) w (Ok tt)
      [(movie_file_request self (field d "movieFileId" PNone),
        respond (trace w) (movie_file_request self (field d "movieFileId" PNone)))] l.
Proof.
  intros Hs Hid Hfid Hmon Hfetch. unfold scan_movie_step. cbn [Py.get].
  fold (field d "id" PNone) (field d "movieFileId" PNone)
       (field d "monitored" (PBool false)).
  destruct (runs_get_movie_file respond self (field d "movieFileId" PNone) w Hs Hfid)
    as [l H]. cbv zeta in H. rewrite Hfetch in H.
  exists (l ++ []).
  rewrite <- (List.app_nil_r [(movie_file_request self (field d "movieFileId" PNone), _)]).
  repeat run_step.
Qed.

(** On well-formed data a round of the movie loop ends normally. *)
Lemma runs_scan_movie_step respond self config threshold substring movie w :
  service_type self = "radarr" ->
  cfg_get config "quality_score" = opt_int threshold ->
  cfg_get config "format_name" = opt_str substring ->
  (forall h movie_file_id d,
     value_of (respond h (movie_file_request self movie_file_id)) = PDict d ->
     wf_quality (PDict d) = true) ->
  Py.is_dict movie = true ->
  exists t l, runs (scan_movie_step respond self config movie) w (Ok tt) t l.
Proof.
  intros Hs Hq Hf Hwf Hd. destruct movie as [a | x | d]; try discriminate.
  unfold scan_movie_step. cbn [Py.get].
  fold (field d "id" PNone) (field d "movieFileId" PNone)
       (field d "monitored" (PBool false)).
  destruct (Py.is_none (field d "id" PNone)) eqn:Hid;
    [eexists _, _; repeat run_step |].
  destruct (Py.is_none (field d "movieFileId" PNone)) eqn:Hfid;
    [eexists _, _; repeat run_step |].
  destruct (Py.truthy (field d "monitored" (PBool false))) eqn:Hmon;
    [| eexists _, _; repeat run_step].
  destruct (runs_get_movie_file respond self (field d "movieFileId" PNone) w Hs Hfid)
    as [l1 H1]. cbv zeta in H1.
  specialize (Hwf (trace w) (field d "movieFileId" PNone)).
  destruct (value_of (respond (trace w)
              (movie_file_request self (field d "movieFileId" PNone))))
    as [a | x | f] eqn:V; cbn [Py.is_dict] in H1.
  - eexists _, _. repeat run_step.
  - eexists _, _. repeat run_step.
  - destruct (evaluate_wf_ok config threshold substring f
                (mkWorld (trace w ++ [(movie_file_request self (field d "movieFileId" PNone),
                    respond (trace w)
                      (movie_file_request self (field d "movieFileId" PNone)))])
                   (logs w ++ l1)) Hq Hf (Hwf f eq_refl)) as [verdict [l2 H2]].
    destruct verdict.
    + destruct (runs_unmonitor_movie respond self (field d "id" PNone)
                  (mkWorld ((trace w ++ [(movie_file_request self (field d "movieFileId" PNone),
                      respond (trace w)
                        (movie_file_request self (field d "movieFileId" PNone)))]) ++ [])
                     ((logs w ++ l1) ++ l2)) Hs) as [success [t3 [l3 H3]]].
      destruct success; eexists _, _; repeat run_step.
    + eexists _, _. repeat run_step.
Qed.

Lemma runs_scan_movies respond self config threshold substring movies w :
  service_type self = "radarr" ->
  cfg_get config "quality_score" = opt_int threshold ->
  cfg_get config "format_name" = opt_str substring ->
  (forall h movie_file_id d,
     value_of (respond h (movie_file_request self movie_file_id)) = PDict d ->
     wf_quality (PDict d) = true) ->
  forallb Py.is_dict movies = true ->
  exists t l,
    runs (for_each (scan_movie_step respond self config) movies) w (Ok tt) t l.
Proof.
  intros Hs Hq Hf Hwf. revert w. unfold for_each.
  induction movies as [|movie movies IH]; intros w Hd; cbn [for_fold].
  - exists [], []. apply runs_ret.
  - simpl in Hd. apply andb_true_iff in Hd. destruct Hd as [Hd Hds].
    destruct (runs_scan_movie_step respond self config threshold substring movie w
                Hs Hq Hf Hwf Hd) as [t1 [l1 H1]].
    destruct (IH (mkWorld (trace w ++ t1) (logs w ++ l1)) Hds) as [t2 [l2 H2]].
    exists (t1 ++ t2), (l1 ++ l2). eapply runs_bind; [exact H1 | exact H2].
Qed.

(** The listing of the movies, when it is answered with a list: one
    exchange and one debug record. *)
Lemma runs_get_movies_list respond self w movies :
  service_type self = "radarr" ->
  value_of (respond (trace w) (get_request self [Lit "movie"])) = PList movies ->
  runs (get_movies respond self) w (Ok (PList movies))
    [(get_request self [Lit "movie"], respond (trace w) (get_request self [Lit "movie"]))]
    [request_record self "GET" [Lit "movie"]].
Proof.
  intros Hs V. unfold get_movies. rewrite Hs. simpl negb. cbv iota.
  assert (H : runs (_make_request respond self "GET" [Lit "movie"] PNone) w
                (Ok (PList movies))
                [(get_request self [Lit "movie"],
                  respond (trace w) (get_request self [Lit "movie"]))]
                [request_record self "GET" [Lit "movie"]]).
  { unfold get_request, request_record in *.
    unfold runs, _make_request.
    change (String.eqb (Str.upper "GET") "GET") with true. cbv iota.
    unfold bind, log, send. cbn [trace logs].
    destruct (respond (trace w)
                (mkRequest "GET" (Lit (base_url self) :: Lit "/" :: [Lit "movie"])
                   (api_token self) PNone)) as [v | | | | |] eqn:E;
      cbn [value_of] in V; try discriminate.
    subst v. reflexivity. }
  rewrite <- (List.app_nil_r [(get_request self [Lit "movie"], _)]).
  rewrite <- (List.app_nil_r [request_record self "GET" [Lit "movie"]]).
  eapply runs_bind; [exact H | cbv beta]. cbn [Py.is_list]. apply runs_ret.
Qed.

(** C7. In the Radarr scan, a monitored movie whose file metadata cannot
    be fetched costs the fetch and nothing else: the round ends normally and
    the loop goes on with the remaining movies from there.  When the listing
    of the movies gives a list, the scan is that listing followed by the
    loop over all the movies listed: what it exchanges is the listing and
    then the exchanges of the loop, and it reports success exactly when the
    loop ends normally, which it does on well-formed data (movies that are
    JSON objects, movie files that are well-formed quality blocks, a typed
    configuration).  A round that raises, on data that is not well-formed,
    ends the scan with a failure although the listing succeeded.  When the
    listing does not give a list, the scan sends nothing else and reports
    failure. *)
Theorem radarr_scan_survives_fetch_failure
    (respond : list (request * response) -> request -> response)
    (config : gmap string atom) (self : client) (w : world) :
  client_for config "radarr" = Ok self ->
  let listing := get_request self [Lit "movie"] in
  let listed := respond (trace w) listing in
  (forall (d : list (string * pyval)) (rest : list pyval) (w1 : world),
     Py.is_none (field d "id" PNone) = false ->
     Py.is_none (field d "movieFileId" PNone) = false ->
     Py.truthy (field d "monitored" (PBool false)) = true ->
     let req := movie_file_request self (field d "movieFileId" PNone) in
     let resp := respond (trace w1) req in
     Py.is_dict (value_of resp) = false ->
     exists l1,
       runs (scan_movie_step respond self config (PDict d)) w1 (Ok tt) [(req, resp)] l1 /\
       forall r t l,
         runs (for_each (scan_movie_step respond self config) rest)
           (mkWorld (trace w1 ++ [(req, resp)]) (logs w1 ++ l1)) r t l ->
         runs (for_each (scan_movie_step respond self config) (PDict d :: rest))
           w1 r ([(req, resp)] ++ t) (l1 ++ l)) /\
  (forall movies,
     value_of listed = PList movies ->
     exists r t l,
       runs (for_each (scan_movie_step respond self config) movies)
         (mkWorld (trace w ++ [(listing, listed)])
            (logs w ++ [request_record self "GET" [Lit "movie"]])) r t l /\
       runs (process_radarr_force_unmonitor respond config) w (Ok (ended_well r))
         ((listing, listed) :: t)
         (request_record self "GET" [Lit "movie"] :: l ++
          match r with
          | Ok _ => []
          | Raise e => [scan_abandoned e]
          end) /\
       (forall threshold substring,
          cfg_get config "quality_score" = opt_int threshold ->
          cfg_get config "format_name" = opt_str substring ->
          (forall h movie_file_id d,
             value_of (respond h (movie_file_request self movie_file_id)) = PDict d ->
             wf_quality (PDict d) = true) ->
          forallb Py.is_dict movies = true ->
          ended_well r = true)) /\
  (Py.is_list (value_of listed) = false ->
   exists l,
     runs (process_radarr_force_unmonitor respond config) w (Ok false)
       [(listing, listed)] l).
Proof.
  intros Hclient. cbv zeta.
  pose proof (client_for_service _ _ _ Hclient) as Hs. simpl in Hs.
  split; [| split].
  - intros d rest w1 Hid Hfid Hmon Hfetch.
    destruct (runs_scan_movie_step_no_file respond self config d w1
                Hs Hid Hfid Hmon Hfetch) as [l1 H1].
    exists l1. split; [exact H1 |].
    intros r t l Hrest. unfold for_each. cbn [for_fold].
    eapply runs_bind; [exact H1 | exact Hrest].
  - intros movies V.
    pose proof (runs_get_movies_list respond self w movies Hs V) as H0.
    set (listing := get_request self [Lit "movie"]) in *.
    set (listed := respond (trace w) listing) in *.
    set (w1 := mkWorld (trace w ++ [(listing, listed)])
                 (logs w ++ [request_record self "GET" [Lit "movie"]])).
    destruct (appends_for_each (scan_movie_step respond self config) movies
                (appends_scan_movie_step respond self config) w1) as [r [t [l H1]]].
    exists r, t, l. split; [exact H1 |]. split.
    + unfold process_radarr_force_unmonitor.
      destruct r as [[]|e]; cbn [ended_well].
      * eapply runs_cast_both.
        -- apply runs_try_ok. rewrite Hclient. run_step.
           eapply runs_bind; [exact H0 | cbv beta]. cbn [Py.iter]. run_step.
           eapply runs_bind; [exact H1 | apply runs_ret].
        -- simpl. now rewrite List.app_nil_r.
        -- simpl. rewrite ?List.app_nil_r, <- ?app_assoc. reflexivity.
      * eapply runs_cast_both.
        -- eapply runs_try_raise.
           ++ rewrite Hclient. run_step.
              eapply runs_bind; [exact H0 | cbv beta]. cbn [Py.iter]. run_step.
              apply runs_bind_raise. exact H1.
           ++ apply runs_bind_log. apply runs_ret.
        -- simpl. now rewrite List.app_nil_r.
        -- simpl. rewrite ?List.app_nil_r, <- ?app_assoc. reflexivity.
    + intros threshold substring Hq Hf Hwf Hd.
      destruct (runs_scan_movies respond self config threshold substring movies w1
                  Hs Hq Hf Hwf Hd) as [t2 [l2 H2]].
      destruct (runs_det _ _ _ _ _ _ _ _ H1 H2) as [-> _]. reflexivity.
  - intros Hlist.
    destruct (runs_get_movies respond self w Hs) as [l1 H1]. cbv zeta in H1.
    rewrite Hlist in H1.
    eexists. unfold process_radarr_force_unmonitor. eapply runs_cast_both.
    + eapply runs_try_raise.
      * rewrite Hclient. run_step.
        eapply runs_bind; [exact H1 | cbv beta]. cbn [Py.iter].
        apply runs_bind_lift_raise.
      * repeat run_step.
    + reflexivity.
    + reflexivity.
Qed.

Lemma radarr_scan_survives_fetch_failure_witness :
  client_for Sample.radarr_config "radarr" = Ok Sample.radarr_client /\
  Py.is_dict (value_of (Sample.cinema []
                 (movie_file_request Sample.radarr_client (PInt 101)))) = false /\
  exists t l,
    runs (process_radarr_force_unmonitor Sample.cinema Sample.radarr_config)
      Sample.w0 (Ok true) t l /\
    map (fun ex => (verb (fst ex), endpoint_of (fst ex))) t =
    [("GET", [Lit "movie"]);
     ("GET", [Lit "moviefile/"; Val (PInt 101)]);
     ("GET", [Lit "moviefile/"; Val (PInt 102)]);
     ("GET", [Lit "movie/"; Val (PInt 2)]);
     ("PUT", [Lit "movie/"; Val (PInt 2)]);
     ("GET", [Lit "moviefile/"; Val (PInt 103)])].
Proof.
  split; [reflexivity |]. split; [reflexivity |].
  destruct (radarr_scan_survives_fetch_failure Sample.cinema Sample.radarr_config
              Sample.radarr_client Sample.w0 eq_refl) as [_ [Hscan _]].
  destruct (Hscan [Sample.movie 1 101; Sample.movie 2 102; Sample.movie 3 103] eq_refl)
    as [r [t [l [Hloop [Hrun Hwf]]]]].
  assert (Hok : ended_well r = true).
  { apply (Hwf (Some 80) None); [reflexivity | reflexivity | | reflexivity].
    intros h movie_file_id d. unfold Sample.cinema, movie_file_request. simpl.
    destruct movie_file_id as [[| b | z | s] | x | y]; simpl;
      try (intros H; inversion H; reflexivity).
    destruct z as [| p | p]; simpl; try (intros H; inversion H; reflexivity).
    repeat (destruct p as [p | p |]; simpl;
            try (intros H; inversion H; reflexivity)). }
  rewrite Hok in Hrun. destruct r as [[]|e]; [| discriminate].
  eexists _, _. split; [exact Hrun |].
  assert (Ht : t = Sample.cinema_rounds).
  { assert (Hc : runs (for_each (scan_movie_step Sample.cinema Sample.radarr_client
                                   Sample.radarr_config)
                         [Sample.movie 1 101; Sample.movie 2 102; Sample.movie 3 103])
                   (mkWorld (trace Sample.w0 ++
                       [(get_request Sample.radarr_client [Lit "movie"],
                         Sample.cinema (trace Sample.w0)
                           (get_request Sample.radarr_client [Lit "movie"]))])
                      (logs Sample.w0 ++
                       [request_record Sample.radarr_client "GET" [Lit "movie"]]))
                   (Ok tt) Sample.cinema_rounds Sample.cinema_records)
      by (vm_compute; reflexivity).
    destruct (runs_det _ _ _ _ _ _ _ _ Hloop Hc) as [_ [Ht _]]. exact Ht. }
  rewrite Ht. vm_compute. reflexivity.
Defined.

(** The listing succeeds and the scan still reports failure: the file of
    the one movie listed carries a null score, on which the gate raises. *)
Lemma listed_movies_yet_failure :
  Py.is_list (value_of (Sample.null_cinema []
                (get_request Sample.radarr_client [Lit "movie"]))) = true /\
  fst (process_radarr_force_unmonitor Sample.null_cinema Sample.radarr_config
         Sample.w0) = Ok false /\
  map (fun ex => (verb (fst ex), endpoint_of (fst ex)))
      (trace (snd (process_radarr_force_unmonitor Sample.null_cinema
                     Sample.radarr_config Sample.w0))) =
  [("GET", [Lit "movie"]); ("GET", [Lit "moviefile/"; Val (PInt 101)])].
Proof. repeat split; vm_compute; reflexivity. Qed.

(** The scenario of the specification, run: the file of the first movie
    cannot be fetched, the second passes the gate and is unmonitored, the
    third does not pass. *)
Example radarr_scan_scenario :
  fst (process_radarr_force_unmonitor Sample.cinema Sample.radarr_config Sample.w0)
    = Ok true /\
  map (fun ex => (verb (fst ex), endpoint_of (fst ex)))
      (trace (snd (process_radarr_force_unmonitor Sample.cinema
                     Sample.radarr_config Sample.w0))) =
  [("GET", [Lit "movie"]);
   ("GET", [Lit "moviefile/"; Val (PInt 101)]);
   ("GET", [Lit "moviefile/"; Val (PInt 102)]);
   ("GET", [Lit "movie/"; Val (PInt 2)]);
   ("PUT", [Lit "movie/"; Val (PInt 2)]);
   ("GET", [Lit "moviefile/"; Val (PInt 103)])].
Proof. split; vm_compute; reflexivity. Qed.

(** ** Items that are already unmonitored *)

Lemma scan_episode_step_unmonitored config acc (e : list (string * pyval)) w :
  Py.truthy (field e "monitored" (PBool false)) = false ->
  scan_episode_step config acc (PDict e) w = (Ok acc, w).
Proof.
  intros H. unfold scan_episode_step, bind at 1, lift. cbn [Py.get].
  destruct (Py.is_none _); [reflexivity |].
  unfold bind at 1. fold (field e "monitored" (PBool false)). rewrite H.
  reflexivity.
Qed.

Lemma scan_movie_step_unmonitored respond self config (d : list (string * pyval)) w :
  Py.truthy (field d "monitored" (PBool false)) = false ->
  scan_movie_step respond self config (PDict d) w = (Ok tt, w).
Proof.
  intros H. unfold scan_movie_step, bind at 1, lift. cbn [Py.get].
  destruct (Py.is_none _); [reflexivity |].
  unfold bind at 1. destruct (Py.is_none _); [reflexivity |].
  unfold bind at 1. fold (field d "monitored" (PBool false)). rewrite H.
  reflexivity.
Qed.

Lemma selected_unmonitored config episodes :
  forallb unmonitored episodes = true ->
  flat_map (selected config) episodes = [].
Proof.
  induction episodes as [|episode episodes IH]; [reflexivity |].
  simpl. rewrite andb_true_iff. intros [H Hs]. rewrite (IH Hs).
  destruct episode as [a | x | e]; try discriminate.
  simpl in H. apply negb_true_iff in H.
  rewrite (selected_skip config e (or_introl H)). reflexivity.
Qed.

Lemma scan_movies_unmonitored respond self config movies w :
  forallb unmonitored movies = true ->
  for_each (scan_movie_step respond self config) movies w = (Ok tt, w).
Proof.
  unfold for_each. revert w.
  induction movies as [|movie movies IH]; intros w; [reflexivity |].
  simpl. rewrite andb_true_iff. intros [H Hs].
  destruct movie as [a | x | d]; try discriminate.
  simpl in H. apply negb_true_iff in H.
  unfold bind. rewrite (scan_movie_step_unmonitored respond self config d w H).
  now apply IH.
Qed.

(** C8. An episode or a movie that is listed with a false or absent
    monitored flag is skipped before the gate is evaluated: the round of the
    scan loop leaves the collected ids and the whole state as they were.
    Hence a Sonarr scan in which every listed episode is unmonitored sends
    no PUT request, and a Radarr scan in which every listed movie is
    unmonitored sends the listing request and nothing else. *)
Theorem unmonitored_items_are_skipped
    (respond : list (request * response) -> request -> response)
    (sonarr_config radarr_config : gmap string atom)
    (sonarr radarr : client) (w : world) :
  client_for sonarr_config "sonarr" = Ok sonarr ->
  client_for radarr_config "radarr" = Ok radarr ->
  (forall config acc (e : list (string * pyval)) w1,
     Py.truthy (field e "monitored" (PBool false)) = false ->
     scan_episode_step config acc (PDict e) w1 = (Ok acc, w1)) /\
  (forall config self (d : list (string * pyval)) w1,
     Py.truthy (field d "monitored" (PBool false)) = false ->
     scan_movie_step respond self config (PDict d) w1 = (Ok tt, w1)) /\
  (forall r t l,
     runs (scan_series respond sonarr sonarr_config) w r t l ->
     forallb unmonitored (episodes_listed t) = true ->
     forallb is_get t = true /\
     exists success l',
       runs (process_sonarr_force_unmonitor respond sonarr_config) w
         (Ok success) t l') /\
  (forall movies,
     value_of (respond (trace w) (get_request radarr [Lit "movie"])) = PList movies ->
     forallb unmonitored movies = true ->
     exists l,
       runs (process_radarr_force_unmonitor respond radarr_config) w (Ok true)
         [(get_request radarr [Lit "movie"],
           respond (trace w) (get_request radarr [Lit "movie"]))] l).
Proof.
  intros Hsonarr Hradarr.
  pose proof (client_for_service _ _ _ Hsonarr) as Hs. simpl in Hs.
  pose proof (client_for_service _ _ _ Hradarr) as Hr. simpl in Hr.
  split; [intros; now apply scan_episode_step_unmonitored |].
  split; [intros; now apply scan_movie_step_unmonitored |].
  split.
  - intros r t l Hrun Hun.
    destruct (runs_scan_series respond sonarr sonarr_config w Hs)
      as [r' [t' [l' [H' [G' S']]]]].
    destruct (runs_det _ _ _ _ _ _ _ _ Hrun H') as [-> [-> ->]].
    split; [exact G' |].
    unfold process_sonarr_force_unmonitor.
    destruct r' as [ids|e].
    + rewrite (S' ids eq_refl), (selected_unmonitored _ _ Hun) in H'.
      exists true. eexists. rewrite <- (List.app_nil_r t') at 1.
      apply runs_try_ok. repeat run_step.
    + exists false. eexists. rewrite <- (List.app_nil_r t') at 1.
      eapply runs_try_raise; repeat run_step.
  - intros movies Hlist Hun.
    unfold process_radarr_force_unmonitor.
    destruct (runs_get_movies respond radarr w Hr) as [l1 H1]. cbv zeta in H1.
    rewrite Hlist in H1. cbn [Py.is_list] in H1.
    set (ex := (get_request radarr [Lit "movie"],
                respond (trace w) (get_request radarr [Lit "movie"]))) in *.
    assert (H2 : runs (for_each (scan_movie_step respond radarr radarr_config) movies)
                   (mkWorld (trace w ++ [ex]) (logs w ++ l1)) (Ok tt) [] []).
    { unfold runs. rewrite (scan_movies_unmonitored _ _ _ _ _ Hun). simpl.
      now rewrite !List.app_nil_r. }
    eexists. change [ex] with ([ex] ++ [] ++ []).
    apply runs_try_ok. repeat run_step.
Qed.

Lemma unmonitored_items_are_skipped_witness :
  client_for Sample.sonarr_config "sonarr" = Ok Sample.sonarr_client /\
  client_for Sample.radarr_config "radarr" = Ok Sample.radarr_client /\
  existsb is_put (trace Sample.after_first_scan) = true /\
  forallb unmonitored (episodes_listed Sample.second_trace) = true /\
  forallb is_get Sample.second_trace = true /\
  exists success l',
    runs (process_sonarr_force_unmonitor Sample.server Sample.sonarr_config)
      Sample.after_first_scan (Ok success) Sample.second_trace l'.
Proof.
  split; [reflexivity |]. split; [reflexivity |].
  split; [vm_compute; reflexivity |]. split; [vm_compute; reflexivity |].
  destruct (unmonitored_items_are_skipped Sample.server Sample.sonarr_config
              Sample.radarr_config Sample.sonarr_client Sample.radarr_client
              Sample.after_first_scan eq_refl eq_refl) as [_ [_ [Hscan _]]].
  apply (Hscan (fst Sample.second_enumeration) Sample.second_trace Sample.second_logs).
  - unfold runs. vm_compute. reflexivity.
  - vm_compute. reflexivity.
Defined.

(** Two scans in a row of a server that applies the bulk request: the
    first scan sends one PUT, the second lists the episode as unmonitored and
    sends none. *)
Example second_scan_sends_no_put :
  map (fun ex => verb (fst ex)) (trace Sample.after_first_scan) =
    ["GET"; "GET"; "PUT"] /\
  fst (process_sonarr_force_unmonitor Sample.server Sample.sonarr_config
         Sample.after_first_scan) = Ok true /\
  map (fun ex => verb (fst ex))
      (trace (snd (process_sonarr_force_unmonitor Sample.server Sample.sonarr_config
                     Sample.after_first_scan))) =
    ["GET"; "GET"; "PUT"; "GET"; "GET"].
Proof. repeat split; vm_compute; reflexivity. Qed.

(** An update that tries to rebind the webhook token and the id along with
    the threshold changes the threshold only. *)
Example update_config_keeps_token :
  let r := ConfigManager.update_config Sample.store "id-tv"
             [("webhook_token", AStr "forged"); ("quality_score", AInt 90);
              ("id", AStr "other")] in
  fst r = true /\
  (ConfigManager.configs (snd r) !! "id-tv") ≫= (fun c => c !! "webhook_token")
    = Some (AStr "hook-tv") /\
  (ConfigManager.configs (snd r) !! "id-tv") ≫= (fun c => c !! "id")
    = Some (AStr "id-tv") /\
  (ConfigManager.configs (snd r) !! "id-tv") ≫= (fun c => c !! "quality_score")
    = Some (AInt 90) /\
  ConfigManager.configs (snd r) !! "id-film" =
    ConfigManager.configs Sample.store !! "id-film" /\
  ConfigManager.update_config Sample.store "missing" [("name", AStr "x")] =
    (false, Sample.store).
Proof. repeat split; vm_compute; reflexivity. Qed.


(** * Further properties of the code *)

(** ** The configuration store: deleting, adding, searching *)

(** X1. [delete_config] returns [True] exactly when the id was stored and
    leaves the whole store as it was when it returns [False]; afterwards the
    id is absent, every other configuration is untouched, and deleting the
    same id again returns [False]. *)
Theorem delete_config_removes (self : ConfigManager.t) (config_id : string) :
  let r := Manager.delete_config self config_id in
  (fst r = true <-> is_Some (ConfigManager.configs self !! config_id)) /\
  (fst r = false -> snd r = self) /\
  ConfigManager.get_config (snd r) config_id = None /\
  (forall other, other <> config_id ->
     ConfigManager.get_config (snd r) other = ConfigManager.get_config self other) /\
  fst (Manager.delete_config (snd r) config_id) = false.
Proof.
  unfold Manager.delete_config, ConfigManager.get_config.
  destruct (ConfigManager.configs self !! config_id) as [config|] eqn:E; simpl.
  - rewrite save_keeps_configs. simpl.
    split; [split; [eauto | reflexivity] |].
    split; [discriminate |].
    split; [apply lookup_delete_eq |].
    split; [intros other Hne; now apply lookup_delete_ne |].
    now rewrite lookup_delete_eq.
  - split; [split; [discriminate | intros [x Hx]; discriminate] |].
    split; [reflexivity |]. split; [exact E |].
    split; [reflexivity |]. now rewrite E.
Qed.

Lemma add_config_stores self config_id webhook_token name service ip key q f :
  ConfigManager.configs
    (snd (ConfigManager.add_config self config_id webhook_token name service ip key q f)) =
  <[config_id :=
      <["id" := AStr config_id]>
      (<["name" := AStr name]>
      (<["service_type" := AStr service]>
      (<["ip_address" := AStr ip]>
      (<["api_token" := AStr key]>
      (<["webhook_token" := AStr webhook_token]>
      (<["quality_score" := opt_int q]>
      (<["format_name" := match f with
                          | Some s => if Str.is_empty s then ANone else AStr s
                          | None => ANone
                          end]> ∅)))))))]> (ConfigManager.configs self).
Proof.
  unfold ConfigManager.add_config. cbn [snd]. unfold ConfigManager.info.
  cbn [ConfigManager.configs]. rewrite save_keeps_configs. reflexivity.
Qed.

(** X2. [add_config] returns the webhook token it was given, and
    [get_config] on the new id then returns a record with exactly the eight
    keys of the source, holding the arguments; an empty format name is stored
    as [None].  Every other id reads as before. *)
Theorem add_config_round_trip (self : ConfigManager.t)
    (config_id webhook_token name service ip key : string)
    (q : option Z) (f : option string) :
  let r := ConfigManager.add_config self config_id webhook_token name service ip key q f in
  fst r = webhook_token /\
  (exists config,
     ConfigManager.get_config (snd r) config_id = Some config /\
     config !! "id" = Some (AStr config_id) /\
     config !! "name" = Some (AStr name) /\
     config !! "service_type" = Some (AStr service) /\
     config !! "ip_address" = Some (AStr ip) /\
     config !! "api_token" = Some (AStr key) /\
     config !! "webhook_token" = Some (AStr webhook_token) /\
     config !! "quality_score" = Some (opt_int q) /\
     config !! "format_name" =
       Some (match f with
             | Some s => if Str.is_empty s then ANone else AStr s
             | None => ANone
             end) /\
     forall k, is_Some (config !! k) ->
       In k ["id"; "name"; "service_type"; "ip_address"; "api_token";
             "webhook_token"; "quality_score"; "format_name"]) /\
  (forall other, other <> config_id ->
     ConfigManager.get_config (snd r) other = ConfigManager.get_config self other).
Proof.
  cbv zeta. split; [reflexivity |].
  unfold ConfigManager.get_config. rewrite add_config_stores.
  split.
  - eexists. split; [apply lookup_insert_eq |].
    repeat (split; [simplify_map_eq; reflexivity |]).
    intros k [v Hk]. simpl.
    repeat (rewrite lookup_insert in Hk; case_decide; [subst; tauto |]).
    rewrite lookup_empty in Hk. discriminate.
  - intros other Hne. now apply lookup_insert_ne.
Qed.

Lemma has_spec key value config :
  Manager.has key value config = true <-> cfg_get config key = AStr value.
Proof.
  unfold Manager.has. destruct (cfg_get config key) as [| b | z | s];
    try (split; [discriminate | congruence]).
  rewrite String.eqb_eq. split; congruence.
Qed.

(** The search loop over the values taken in [order]: it returns the
    configuration of the first id that matches, and [None] when no id of
    [order] matches. *)
Lemma first_with_values key value self order :
  (forall config_id, In config_id order ->
     is_Some (ConfigManager.configs self !! config_id)) ->
  match Manager.first_with key value (Manager.values order self) with
  | Some config =>
      exists before config_id after,
        order = before ++ config_id :: after /\
        stored self config_id config /\
        Manager.has key value config = true /\
        forall earlier c, In earlier before -> stored self earlier c ->
                          Manager.has key value c = false
  | None =>
      forall config_id c, In config_id order -> stored self config_id c ->
                          Manager.has key value c = false
  end.
Proof.
  induction order as [|config_id order IH]; intros Hin.
  - simpl. intros config_id c [].
  - unfold Manager.values. cbn [omap list_omap].
    destruct (Hin config_id (or_introl eq_refl)) as [config Hc]. rewrite Hc.
    fold (Manager.values order self). cbn [Manager.first_with].
    destruct (Manager.has key value config) eqn:Hhas.
    + exists [], config_id, order. repeat split; auto. intros earlier c [].
    + specialize (IH (fun i Hi => Hin i (or_intror Hi))).
      destruct (Manager.first_with key value (Manager.values order self)) as [found|].
      * destruct IH as [before [i [after [-> [Hs [Hh Hb]]]]]].
        exists (config_id :: before), i, after. repeat split; auto.
        intros earlier c [<- | Hin'] Hst.
        -- unfold stored in Hst. rewrite Hc in Hst. now inversion Hst; subst.
        -- now apply (Hb earlier c).
      * intros i c [<- | Hin'] Hst.
        -- unfold stored in Hst. rewrite Hc in Hst. now inversion Hst; subst.
        -- now apply (IH i c).
Qed.

(** X3. With [order] the insertion order of the stored ids, the two
    searches return the first match: [get_config_by_token] (and
    [get_config_by_name] likewise) returns the configuration stored under the
    first id of [order] whose record carries the token (the name), and
    [None] exactly when no stored record carries it. *)
Theorem search_returns_first_match (order : list string) (self : ConfigManager.t)
    (value : string) :
  lists_ids order self ->
  let first_match key found :=
    match found with
    | Some config =>
        exists before config_id after,
          order = before ++ config_id :: after /\
          stored self config_id config /\
          cfg_get config key = AStr value /\
          forall earlier c, In earlier before -> stored self earlier c ->
                            cfg_get c key <> AStr value
    | None =>
        forall config_id c, stored self config_id c -> cfg_get c key <> AStr value
    end in
  first_match "webhook_token" (Manager.get_config_by_token order self value) /\
  first_match "name" (Manager.get_config_by_name order self value).
Proof.
  intros [Hnodup Hids]. cbv zeta.
  assert (Hgen : forall key,
    match Manager.first_with key value (Manager.values order self) with
    | Some config =>
        exists before config_id after,
          order = before ++ config_id :: after /\
          stored self config_id config /\
          cfg_get config key = AStr value /\
          forall earlier c, In earlier before -> stored self earlier c ->
                            cfg_get c key <> AStr value
    | None =>
        forall config_id c, stored self config_id c -> cfg_get c key <> AStr value
    end).
  { intros key.
    pose proof (first_with_values key value self order
                  (fun i Hi => proj1 (Hids i) Hi)) as H.
    destruct (Manager.first_with key value (Manager.values order self)) as [found|].
    - destruct H as [before [i [after [Ho [Hs [Hh Hb]]]]]].
      exists before, i, after. repeat split; auto.
      + now apply has_spec.
      + intros earlier c Hin Hst Heq. apply has_spec in Heq.
        rewrite (Hb earlier c Hin Hst) in Heq. discriminate.
    - intros i c Hst Heq. apply has_spec in Heq.
      rewrite (H i c (proj2 (Hids i) (ex_intro _ c Hst)) Hst) in Heq. discriminate. }
  split; apply Hgen.
Qed.

Lemma sample_order_lists_ids : lists_ids Sample2.order Sample.store.
Proof.
  split.
  - repeat constructor; simpl; intuition discriminate.
  - intros i. unfold Sample.store. rewrite !add_config_stores. simpl. split.
    + intros [<- | [<- | []]]; simplify_map_eq; eauto.
    + intros [c Hc].
      rewrite lookup_insert in Hc. case_decide; [subst; right; left; reflexivity |].
      rewrite lookup_insert in Hc. case_decide; [subst; left; reflexivity |].
      rewrite lookup_empty in Hc. discriminate.
Qed.

Lemma search_returns_first_match_witness :
  lists_ids Sample2.order Sample.store /\
  Manager.get_config_by_token Sample2.order Sample.store "hook-film" =
    Some Sample.radarr_config /\
  Manager.get_config_by_name Sample2.order Sample.store "nobody" = None /\
  (forall config_id c, stored Sample.store config_id c ->
     cfg_get c "name" <> AStr "nobody").
Proof.
  split; [exact sample_order_lists_ids |].
  split; [reflexivity |]. split; [reflexivity |].
  pose proof (search_returns_first_match Sample2.order Sample.store "nobody"
                sample_order_lists_ids) as [_ Hname].
  exact Hname.
Defined.

(** When a single stored configuration carries the value, the search
    finds it, whatever the order. *)
Lemma search_finds_the_only_one key value order self config_id config :
  lists_ids order self ->
  stored self config_id config ->
  Manager.has key value config = true ->
  only_at self key value config_id ->
  Manager.first_with key value (Manager.values order self) = Some config.
Proof.
  intros [Hnodup Hids] Hst Hhas Honly.
  pose proof (first_with_values key value self order
                (fun i Hi => proj1 (Hids i) Hi)) as H.
  destruct (Manager.first_with key value (Manager.values order self)) as [found|].
  - destruct H as [before [i [after [_ [Hs [Hh _]]]]]].
    rewrite (Honly i found Hs Hh) in Hs. unfold stored in *. congruence.
  - rewrite (H config_id config (proj2 (Hids config_id) (ex_intro _ config Hst)) Hst)
      in Hhas. discriminate.
Qed.

(** X4. A configuration added under a token that no other stored
    configuration carries is the one [get_config_by_token] returns for that
    token, whatever the insertion order of the store. *)
Theorem added_config_is_found_by_its_token (self : ConfigManager.t)
    (config_id webhook_token name service ip key : string)
    (q : option Z) (f : option string) (order : list string) :
  let after := snd (ConfigManager.add_config self config_id webhook_token
                      name service ip key q f) in
  lists_ids order after ->
  only_at self "webhook_token" webhook_token config_id ->
  Manager.get_config_by_token order after webhook_token =
  ConfigManager.get_config after config_id /\
  is_Some (ConfigManager.get_config after config_id).
Proof.
  cbv zeta. intros Hids Honly.
  unfold ConfigManager.get_config. rewrite add_config_stores.
  rewrite lookup_insert_eq. split; [| eauto].
  eapply (search_finds_the_only_one "webhook_token" webhook_token order _ config_id _ Hids).
  - unfold stored. rewrite add_config_stores. apply lookup_insert_eq.
  - apply has_spec. unfold cfg_get. simplify_map_eq. reflexivity.
  - intros other c Hst Hhas.
    destruct (decide (other = config_id)) as [-> | Hne]; [reflexivity |].
    apply (Honly other c); [| exact Hhas].
    unfold stored in *. rewrite add_config_stores in Hst.
    now rewrite lookup_insert_ne in Hst.
Qed.

Lemma search_finds_nothing key value order self :
  lists_ids order self ->
  (forall config_id c, stored self config_id c -> Manager.has key value c = false) ->
  Manager.first_with key value (Manager.values order self) = None.
Proof.
  intros [Hnodup Hids] Hnone.
  pose proof (first_with_values key value self order
                (fun i Hi => proj1 (Hids i) Hi)) as H.
  destruct (Manager.first_with key value (Manager.values order self)) as [found|];
    [| reflexivity].
  destruct H as [before [i [after [_ [Hs [Hh _]]]]]].
  rewrite (Hnone i found Hs) in Hh. discriminate.
Qed.

Lemma regenerate_stores self config_id new_token config :
  stored self config_id config ->
  ConfigManager.regenerate_webhook_token self config_id new_token =
    (Some new_token,
     snd (ConfigManager.regenerate_webhook_token self config_id new_token)) /\
  ConfigManager.configs
    (snd (ConfigManager.regenerate_webhook_token self config_id new_token)) =
  <[config_id := <["webhook_token" := AStr new_token]> config]>
    (ConfigManager.configs self).
Proof.
  unfold stored, ConfigManager.regenerate_webhook_token. intros ->.
  split; [reflexivity |]. cbn [snd]. unfold ConfigManager.info.
  cbn [ConfigManager.configs]. now rewrite save_keeps_configs.
Qed.

Lemma lists_ids_rebind order self self' config_id config config' :
  stored self config_id config ->
  ConfigManager.configs self' = <[config_id := config']> (ConfigManager.configs self) ->
  lists_ids order self -> lists_ids order self'.
Proof.
  intros Hst Heq [Hnodup Hids]. split; [exact Hnodup |].
  intros i. rewrite Hids, Heq. unfold stored in Hst.
  destruct (decide (i = config_id)) as [-> | Hne].
  - rewrite lookup_insert_eq, Hst. split; eauto.
  - now rewrite lookup_insert_ne.
Qed.

(** X5. Regenerating the webhook token of a stored configuration rotates
    it: provided no other configuration carries the old or the new token,
    [get_config_by_token] afterwards finds the configuration, with its new
    token and all its other fields, under the new token, and finds nothing
    under the old one. *)
Theorem regenerated_token_replaces_the_old (self : ConfigManager.t)
    (config_id old_token new_token : string) (config : gmap string atom)
    (order : list string) :
  lists_ids order self ->
  stored self config_id config ->
  cfg_get config "webhook_token" = AStr old_token ->
  old_token <> new_token ->
  only_at self "webhook_token" old_token config_id ->
  only_at self "webhook_token" new_token config_id ->
  let r := ConfigManager.regenerate_webhook_token self config_id new_token in
  fst r = Some new_token /\
  Manager.get_config_by_token order (snd r) new_token =
    Some (<["webhook_token" := AStr new_token]> config) /\
  Manager.get_config_by_token order (snd r) old_token = None.
Proof.
  intros Hids Hst Hold Hne Honly_old Honly_new. cbv zeta.
  destruct (regenerate_stores self config_id new_token config Hst) as [Hr Hconfigs].
  set (after := snd (ConfigManager.regenerate_webhook_token self config_id new_token)) in *.
  pose proof (lists_ids_rebind order self after config_id config _ Hst Hconfigs Hids)
    as Hids'.
  assert (Hat : forall i c, stored after i c ->
            (i = config_id /\ c = <["webhook_token" := AStr new_token]> config) \/
            (i <> config_id /\ stored self i c)).
  { intros i c Hc. unfold stored in *. rewrite Hconfigs in Hc.
    destruct (decide (i = config_id)) as [-> | Hni].
    - rewrite lookup_insert_eq in Hc. left. split; congruence.
    - rewrite lookup_insert_ne in Hc by congruence. right. split; assumption. }
  split; [now rewrite Hr |]. split.
  - apply (search_finds_the_only_one "webhook_token" new_token order after config_id _ Hids').
    + unfold stored. rewrite Hconfigs. apply lookup_insert_eq.
    + apply has_spec. unfold cfg_get. now rewrite lookup_insert_eq.
    + intros i c Hc Hhas. destruct (Hat i c Hc) as [[-> _] | [_ Hs]]; [reflexivity |].
      now apply (Honly_new i c).
  - apply (search_finds_nothing "webhook_token" old_token order after Hids').
    intros i c Hc. destruct (Hat i c Hc) as [[-> ->] | [Hni Hs]].
    + apply not_true_is_false. rewrite has_spec. unfold cfg_get.
      rewrite lookup_insert_eq. congruence.
    + apply not_true_is_false. intros Hhas. apply Hni. now apply (Honly_old i c).
Qed.

Lemma sample_stored config_id c :
  stored Sample.store config_id c ->
  (config_id = "id-tv" /\ c = Sample.sonarr_config) \/
  (config_id = "id-film" /\ c = Sample.radarr_config).
Proof.
  unfold stored, Sample.sonarr_config, Sample.radarr_config, Sample.config_of,
    ConfigManager.get_config.
  unfold Sample.store at 1. rewrite !add_config_stores. intros Hc.
  rewrite lookup_insert in Hc. case_decide.
  - subst. right. split; [reflexivity |]. inversion Hc. reflexivity.
  - rewrite lookup_insert in Hc. case_decide.
    + subst. left. split; [reflexivity |]. inversion Hc. reflexivity.
    + unfold Sample.empty_store in Hc. cbn [ConfigManager.configs] in Hc.
      rewrite lookup_empty in Hc. discriminate.
Qed.

Lemma regenerated_token_replaces_the_old_witness :
  let r := ConfigManager.regenerate_webhook_token Sample.store "id-tv" "hook-new" in
  stored Sample.store "id-tv" Sample.sonarr_config /\
  cfg_get Sample.sonarr_config "webhook_token" = AStr "hook-tv" /\
  fst r = Some "hook-new" /\
  Manager.get_config_by_token Sample2.order (snd r) "hook-new" =
    Some (<["webhook_token" := AStr "hook-new"]> Sample.sonarr_config) /\
  Manager.get_config_by_token Sample2.order (snd r) "hook-tv" = None.
Proof.
  cbv zeta. split; [reflexivity |]. split; [reflexivity |].
  apply (regenerated_token_replaces_the_old Sample.store "id-tv" "hook-tv" "hook-new"
           Sample.sonarr_config Sample2.order sample_order_lists_ids).
  - reflexivity.
  - reflexivity.
  - discriminate.
  - intros other c Hst Hhas.
    destruct (sample_stored other c Hst) as [[-> _] | [_ ->]]; [reflexivity |].
    vm_compute in Hhas. discriminate.
  - intros other c Hst Hhas.
    destruct (sample_stored other c Hst) as [[-> _] | [_ ->]]; [reflexivity |].
    vm_compute in Hhas. discriminate.
Defined.

Lemma added_config_is_found_by_its_token_witness :
  let after := snd (ConfigManager.add_config Sample.store "id-new" "hook-new"
                      "anime" "sonarr" "10.0.0.7:8989" "key-new" None (Some "x265")) in
  let order := ["id-tv"; "id-new"; "id-film"] in
  stored Sample.store "id-tv" Sample.sonarr_config /\
  stored Sample.store "id-film" Sample.radarr_config /\
  lists_ids order after /\
  only_at Sample.store "webhook_token" "hook-new" "id-new" /\
  Manager.get_config_by_token order after "hook-new" =
    ConfigManager.get_config after "id-new" /\
  is_Some (ConfigManager.get_config after "id-new").
Proof.
  cbv zeta.
  assert (Hids : lists_ids ["id-tv"; "id-new"; "id-film"]
            (snd (ConfigManager.add_config Sample.store "id-new" "hook-new"
                    "anime" "sonarr" "10.0.0.7:8989" "key-new" None (Some "x265")))).
  { split.
    - repeat constructor; simpl; intuition discriminate.
    - intros i. rewrite add_config_stores, lookup_insert_is_Some.
      rewrite <- (proj2 sample_order_lists_ids i). unfold Sample2.order.
      destruct (decide ("id-new" = i)) as [<- | Hne]; simpl; [tauto |].
      split.
      + intros [<- | [Heq | [<- | []]]]; [| congruence |]; right; tauto.
      + intros [Heq | [_ [<- | [<- | []]]]]; [congruence | tauto | tauto]. }
  assert (Honly : only_at Sample.store "webhook_token" "hook-new" "id-new").
  { intros other c Hst Hhas.
    destruct (sample_stored other c Hst) as [[_ ->] | [_ ->]];
      vm_compute in Hhas; discriminate. }
  split; [reflexivity |]. split; [reflexivity |].
  split; [exact Hids |]. split; [exact Honly |].
  exact (added_config_is_found_by_its_token Sample.store "id-new" "hook-new"
           "anime" "sonarr" "10.0.0.7:8989" "key-new" None (Some "x265")
           ["id-tv"; "id-new"; "id-film"] Hids Honly).
Defined.

(** ** The configuration store: what reaches the file *)

Lemma save_written (self self1 : ConfigManager.t) msg :
  ConfigManager.on_write self1 = ConfigManager.on_write self ->
  ConfigManager.file self1 = ConfigManager.file self ->
  ConfigManager.journal self1 = ConfigManager.journal self ->
  written self (ConfigManager.info msg (snd (ConfigManager._save_configs self1))).
Proof.
  intros Hw Hf Hj.
  unfold written, logged_an_error, ConfigManager._save_configs, ConfigManager.info,
    ConfigManager.error.
  rewrite Hw. destruct (ConfigManager.on_write self) as [| | remains] eqn:W;
    cbn [snd ConfigManager.on_write ConfigManager.file ConfigManager.configs
         ConfigManager.journal].
  - split; [reflexivity |]. split; reflexivity.
  - rewrite Hf, Hj. split; [reflexivity |]. split; [reflexivity |].
    eexists. split; [now rewrite <- app_assoc | reflexivity].
  - rewrite Hj. split; [reflexivity |]. split; [reflexivity |].
    eexists. split; [now rewrite <- app_assoc | reflexivity].
Qed.

Lemma info_save_configs (self1 : ConfigManager.t) msg :
  ConfigManager.configs (ConfigManager.info msg (snd (ConfigManager._save_configs self1)))
  = ConfigManager.configs self1.
Proof. unfold ConfigManager.info. cbn [ConfigManager.configs]. apply save_keeps_configs. Qed.

(** X6. Every operation that changes the store changes the memory, writes
    the whole store to the file, and reports success whether or not that
    worked ([update_config] and [delete_config] return [True], [add_config]
    and [regenerate_webhook_token] return the token).  When the file is
    written, it holds exactly the configurations in memory, and a manager
    started on it loads them back.  When opening the file fails, the file
    keeps its content and an error is logged.  When the file is opened and
    the dump then fails, the former content is gone, the file holds what the
    interrupted dump left, and an error is logged.  In both failures the
    change lives in memory only. *)
Theorem changes_are_saved_or_silently_lost (self : ConfigManager.t)
    (new_id config_id token name service ip key : string)
    (q : option Z) (f : option string)
    (kwargs : list (string * atom)) (config : gmap string atom) :
  stored self config_id config ->
  let added := ConfigManager.add_config self new_id token name service ip key q f in
  let updated := ConfigManager.update_config self config_id kwargs in
  let rotated := ConfigManager.regenerate_webhook_token self config_id token in
  let deleted := Manager.delete_config self config_id in
  (fst added = token /\
   (exists c, stored (snd added) new_id c /\
              c !! "webhook_token" = Some (AStr token)) /\
   written self (snd added)) /\
  (fst updated = true /\
   stored (snd updated) config_id (fold_left ConfigManager.apply_kwarg kwargs config) /\
   written self (snd updated)) /\
  (fst rotated = Some token /\
   stored (snd rotated) config_id (<["webhook_token" := AStr token]> config) /\
   written self (snd rotated)) /\
  (fst deleted = true /\
   ConfigManager.get_config (snd deleted) config_id = None /\
   written self (snd deleted)).
Proof.
  intros Hst. cbv zeta. unfold stored in *.
  unfold ConfigManager.add_config, ConfigManager.update_config,
    ConfigManager.regenerate_webhook_token, Manager.delete_config,
    ConfigManager.get_config.
  rewrite Hst. cbn [fst snd].
  split; [| split; [| split]].
  - split; [reflexivity |]. split; [| apply save_written; reflexivity].
    rewrite info_save_configs. cbn [ConfigManager.configs]. eexists.
    split; [apply lookup_insert_eq |].
    rewrite !lookup_insert_ne by discriminate. apply lookup_insert_eq.
  - split; [reflexivity |]. split; [| apply save_written; reflexivity].
    rewrite info_save_configs. apply lookup_insert_eq.
  - split; [reflexivity |]. split; [| apply save_written; reflexivity].
    rewrite info_save_configs. apply lookup_insert_eq.
  - split; [reflexivity |]. split; [| apply save_written; reflexivity].
    rewrite info_save_configs. apply lookup_delete_eq.
Qed.

Lemma changes_are_saved_or_silently_lost_witness :
  let broken :=
    ConfigManager.mk (ConfigManager.configs Sample.store)
      (ConfigManager.Document (ConfigManager.configs Sample.store))
      (ConfigManager.DumpFails (Some ∅)) [] in
  let updated := ConfigManager.update_config broken "id-tv" [("name", AStr "shows")] in
  stored broken "id-tv" Sample.sonarr_config /\
  fst updated = true /\
  (exists c, stored (snd updated) "id-tv" c /\ c !! "name" = Some (AStr "shows")) /\
  ConfigManager.file (snd updated) = ConfigManager.Document ∅ /\
  ConfigManager.configs
    (Manager.init (ConfigManager.file (snd updated))
       (ConfigManager.on_write (snd updated))) = ∅ /\
  logged_an_error broken (snd updated).
Proof.
  cbv zeta.
  pose proof (changes_are_saved_or_silently_lost
                (ConfigManager.mk (ConfigManager.configs Sample.store)
                   (ConfigManager.Document (ConfigManager.configs Sample.store))
                   (ConfigManager.DumpFails (Some ∅)) [])
                "id-new" "id-tv" "t" "n" "s" "i" "k" None None [("name", AStr "shows")]
                Sample.sonarr_config eq_refl)
    as [_ [[Hret [Hmem [_ [Hfile Herr]]]] _]].
  split; [reflexivity |]. split; [exact Hret |].
  split; [eexists; split; [exact Hmem | reflexivity] |].
  split; [exact Hfile |].
  split; [rewrite Hfile; reflexivity | exact Herr].
Defined.

(** ** The configuration store: what an update writes *)

Lemma kwargs_skip (kwargs : list (string * atom)) (config : gmap string atom) k :
  ~ In k (map fst kwargs) ->
  fold_left ConfigManager.apply_kwarg kwargs config !! k = config !! k.
Proof.
  revert config. induction kwargs as [|[k0 v0] kwargs IH]; intros config Hk;
    [reflexivity |].
  cbn [fold_left map fst In] in *. rewrite IH by tauto.
  unfold ConfigManager.apply_kwarg. cbn [fst snd].
  destruct (existsb (String.eqb k0) ConfigManager.updatable); [| reflexivity].
  apply lookup_insert_ne. intros ->. tauto.
Qed.

Lemma kwargs_apply (kwargs : list (string * atom)) (config : gmap string atom) k v :
  List.NoDup (map fst kwargs) ->
  In (k, v) kwargs ->
  In k ConfigManager.updatable ->
  fold_left ConfigManager.apply_kwarg kwargs config !! k = Some v.
Proof.
  revert config. induction kwargs as [|[k0 v0] kwargs IH]; intros config Hnd Hin Hup;
    [destruct Hin |].
  cbn [map fst] in Hnd. inversion Hnd as [|? ? Hnotin Hnd']; subst.
  cbn [fold_left]. destruct Hin as [Heq | Hin].
  - inversion Heq; subst. rewrite kwargs_skip by exact Hnotin.
    unfold ConfigManager.apply_kwarg. cbn [fst snd].
    rewrite (proj2 (updatable_spec k) Hup). apply lookup_insert_eq.
  - now apply IH.
Qed.

(** X7. On a stored id, [update_config] followed by [get_config] reads
    back every keyword argument whose key is one of the six updatable keys
    (keyword arguments have distinct keys); a keyword argument with any
    other key leaves the record as it was under that key. *)
Theorem update_config_is_read_back (self : ConfigManager.t) (config_id : string)
    (kwargs : list (string * atom)) (config : gmap string atom) :
  stored self config_id config ->
  List.NoDup (map fst kwargs) ->
  exists config',
    ConfigManager.get_config (snd (ConfigManager.update_config self config_id kwargs))
      config_id = Some config' /\
    forall k v, In (k, v) kwargs ->
      (In k ConfigManager.updatable -> config' !! k = Some v) /\
      (~ In k ConfigManager.updatable -> config' !! k = config !! k).
Proof.
  intros Hst Hnd. unfold stored in Hst.
  unfold ConfigManager.update_config, ConfigManager.get_config. rewrite Hst.
  cbn [snd]. unfold ConfigManager.info. cbn [ConfigManager.configs].
  rewrite save_keeps_configs. cbn [ConfigManager.configs].
  eexists. split; [apply lookup_insert_eq |].
  intros k v Hin. split.
  - now apply kwargs_apply.
  - now apply kwargs_frame.
Qed.

Lemma update_config_is_read_back_witness :
  stored Sample.store "id-tv" Sample.sonarr_config /\
  List.NoDup (map fst [("quality_score", AInt 95); ("webhook_token", AStr "forged")]) /\
  exists config',
    ConfigManager.get_config
      (snd (ConfigManager.update_config Sample.store "id-tv"
              [("quality_score", AInt 95); ("webhook_token", AStr "forged")]))
      "id-tv" = Some config' /\
    forall k v, In (k, v) [("quality_score", AInt 95); ("webhook_token", AStr "forged")] ->
      (In k ConfigManager.updatable -> config' !! k = Some v) /\
      (~ In k ConfigManager.updatable -> config' !! k = Sample.sonarr_config !! k).
Proof.
  assert (Hnd : List.NoDup (map fst [("quality_score", AInt 95);
                                      ("webhook_token", AStr "forged")])).
  { repeat constructor; simpl; intuition discriminate. }
  split; [reflexivity |]. split; [exact Hnd |].
  exact (update_config_is_read_back Sample.store "id-tv" _ Sample.sonarr_config
           eq_refl Hnd).
Defined.

(** ** The client: requests *)

(** X8. [_make_request] never raises and sends at most one request.  When
    the method, put in upper case, is GET, POST, PUT or DELETE it sends
    exactly one request to base url / endpoint with the API key, carrying the
    data for POST and PUT only, and returns what the outcome comes to: the
    decoded body, [{'status': 'success'}] for a body that is not JSON, [None]
    after an error.  For any other method it sends nothing and returns
    [None]. *)
Theorem make_request_sends_at_most_one
    (respond : list (request * response) -> request -> response)
    (self : client) (method : string) (endpoint : list piece) (data : pyval)
    (w : world) :
  let verb := Str.upper method in
  let url := Lit (base_url self) :: Lit "/" :: endpoint in
  let carried :=
    if String.eqb verb "POST" || String.eqb verb "PUT" then data else PNone in
  let req := mkRequest verb url (api_token self) carried in
  (In verb ["GET"; "POST"; "PUT"; "DELETE"] ->
   exists l,
     runs (_make_request respond self method endpoint data) w
       (Ok (value_of (respond (trace w) req))) [(req, respond (trace w) req)] l) /\
  (~ In verb ["GET"; "POST"; "PUT"; "DELETE"] ->
   exists l,
     runs (_make_request respond self method endpoint data) w (Ok PNone) [] l).
Proof.
  cbv zeta. unfold _make_request.
  set (verb := Str.upper method).
  set (url := Lit (base_url self) :: Lit "/" :: endpoint).
  assert (Hsend : forall req,
    exists l,
      runs (log DEBUG (Lit "Making " :: Lit method :: Lit " request to: " :: url) ;;
            send respond req) w
        (Ok (value_of (respond (trace w) req))) [(req, respond (trace w) req)] l).
  { intros req.
    destruct (runs_send respond req
                (mkWorld (trace w) (logs w ++ [mkLog DEBUG
                   (Lit "Making " :: Lit method :: Lit " request to: " :: url)])))
      as [l [H _]].
    eexists. apply runs_bind_log. exact H. }
  split.
  - intros Hin.
    destruct (String.eqb verb "GET") eqn:E1.
    { apply String.eqb_eq in E1. rewrite E1. apply Hsend. }
    destruct (String.eqb verb "POST") eqn:E2.
    { apply String.eqb_eq in E2. rewrite E2. apply Hsend. }
    destruct (String.eqb verb "PUT") eqn:E3.
    { apply String.eqb_eq in E3. rewrite E3. apply Hsend. }
    destruct (String.eqb verb "DELETE") eqn:E4.
    { apply String.eqb_eq in E4. rewrite E4. apply Hsend. }
    apply String.eqb_neq in E1, E2, E3, E4.
    simpl in Hin. intuition congruence.
  - intros Hnot.
    assert (E : String.eqb verb "GET" = false /\ String.eqb verb "POST" = false /\
                String.eqb verb "PUT" = false /\ String.eqb verb "DELETE" = false).
    { repeat split; apply String.eqb_neq; intros Heq; apply Hnot; rewrite Heq;
        simpl; tauto. }
    destruct E as [-> [-> [-> ->]]].
    eexists. repeat run_step.
Qed.

Lemma make_request_sends_at_most_one_witness :
  In (Str.upper "put") ["GET"; "POST"; "PUT"; "DELETE"] /\
  ~ In (Str.upper "patch") ["GET"; "POST"; "PUT"; "DELETE"] /\
  (exists l,
     runs (_make_request Sample.down Sample.sonarr_client "put" [Lit "episode/monitor"]
             (PDict [])) Sample.w0 (Ok PNone)
       [(put_request Sample.sonarr_client [Lit "episode/monitor"] (PDict []),
         RespTimeout)] l) /\
  (exists l,
     runs (_make_request Sample.down Sample.sonarr_client "patch" [Lit "episode/monitor"]
             (PDict [])) Sample.w0 (Ok PNone) [] l).
Proof.
  assert (Hno : ~ In (Str.upper "patch") ["GET"; "POST"; "PUT"; "DELETE"]).
  { simpl. intuition discriminate. }
  split; [simpl; tauto |]. split; [exact Hno |].
  destruct (make_request_sends_at_most_one Sample.down Sample.sonarr_client "put"
              [Lit "episode/monitor"] (PDict []) Sample.w0) as [Hyes _].
  destruct (make_request_sends_at_most_one Sample.down Sample.sonarr_client "patch"
              [Lit "episode/monitor"] (PDict []) Sample.w0) as [_ Hnot].
  split; [apply Hyes; simpl; tauto | exact (Hnot Hno)].
Defined.

Lemma runs_cast {A} (m : M A) w r t t' l :
  runs m w r t l -> t = t' -> runs m w r t' l.
Proof. now intros H <-. Qed.

Lemma assoc_set_same d k x : Py.assoc (Py.assoc_set d k x) k = Some x.
Proof.
  induction d as [|[k' v] d IH]; simpl.
  - now rewrite String.eqb_refl.
  - destruct (String.eqb k' k) eqn:E; simpl; rewrite E; [reflexivity | exact IH].
Qed.

Lemma assoc_set_other d k x k0 :
  k0 <> k -> Py.assoc (Py.assoc_set d k x) k0 = Py.assoc d k0.
Proof.
  intros Hne. induction d as [|[k' v] d IH]; simpl.
  - apply String.eqb_neq in Hne. rewrite String.eqb_sym in Hne. now rewrite Hne.
  - destruct (String.eqb k' k) eqn:E; simpl.
    + apply String.eqb_eq in E. subst k'.
      assert (String.eqb k k0 = false) as -> by (apply String.eqb_neq; congruence).
      reflexivity.
    + destruct (String.eqb k' k0); [reflexivity | exact IH].
Qed.

(** X9. [unmonitor_episode] on a Sonarr client reads, modifies and writes
    back.  It first fetches the episode.  When the fetch gives a non-empty
    JSON object, it sends one PUT whose body binds [monitored] to [False]
    and agrees with the fetched object on every other key, and returns
    whether the answer to the PUT is truthy.  When the fetch gives anything
    else (an error, null, an empty object, a list, a number, a string), it
    sends no PUT and returns [False]. *)
Theorem unmonitor_episode_read_modify_write
    (respond : list (request * response) -> request -> response)
    (self : client) (episode_id : pyval) (w : world) :
  service_type self = "sonarr" ->
  let fetch := get_request self [Lit "episode/"; Val episode_id] in
  let fetched := respond (trace w) fetch in
  match value_of fetched with
  | PDict (binding :: d) =>
      let body := Py.assoc_set (binding :: d) "monitored" (PBool false) in
      let put := put_request self [Lit "episode/"; Val episode_id] (PDict body) in
      let answer := respond (trace w ++ [(fetch, fetched)]) put in
      (exists l,
         runs (unmonitor_episode respond self episode_id) w
           (Ok (Py.truthy (value_of answer))) [(fetch, fetched); (put, answer)] l) /\
      Py.assoc body "monitored" = Some (PBool false) /\
      (forall k, k <> "monitored" -> Py.assoc body k = Py.assoc (binding :: d) k)
  | _ =>
      exists l,
        runs (unmonitor_episode respond self episode_id) w (Ok false)
          [(fetch, fetched)] l
  end.
Proof.
  intros Hs. cbv zeta. unfold unmonitor_episode. rewrite Hs. simpl negb. cbv iota.
  destruct (runs_get respond self [Lit "episode/"; Val episode_id] PNone w)
    as [l1 [H1 _]].
  set (fetch := get_request self [Lit "episode/"; Val episode_id]) in *.
  set (fetched := respond (trace w) fetch) in *.
  assert (Hfail : forall v, value_of fetched = v ->
            match v with PDict (_ :: _) => False | _ => True end ->
            exists l,
              runs (try_except
                      (let! episode := _make_request respond self "GET"
                                         [Lit "episode/"; Val episode_id] PNone in
                       if negb (Py.truthy episode) then
                         log ERROR [Lit "Could not retrieve episode "; Val episode_id] ;;
                         ret false
                       else
                         let! episode' := lift (Py.setitem episode "monitored" (PBool false)) in
                         let! result := _make_request respond self "PUT"
                                          [Lit "episode/"; Val episode_id] episode' in
                         if Py.truthy result then
                           log INFO [Lit "Successfully unmonitored Sonarr episode ";
                                     Val episode_id] ;;
                           ret true
                         else
                           log ERROR [Lit "Failed to unmonitor Sonarr episode ";
                                      Val episode_id] ;;
                           ret false)
                      (fun e =>
                         log ERROR [Lit "Error unmonitoring episode "; Val episode_id;
                                    Lit ": "; ExnText e] ;;
                         ret false)) w (Ok false) [(fetch, fetched)] l).
  { intros v Hv Hshape. rewrite Hv in H1.
    destruct (Py.truthy v) eqn:T.
    - assert (S : Py.setitem v "monitored" (PBool false) = Raise TypeError).
      { destruct v as [a | x | [|b d]]; try reflexivity; [discriminate | contradiction]. }
      eexists. eapply runs_cast;
        [eapply runs_try_raise; repeat run_step | reflexivity].
    - eexists. eapply runs_cast; [apply runs_try_ok; repeat run_step | reflexivity]. }
  destruct (value_of fetched) as [a | x | [|binding d]] eqn:V;
    try (apply (Hfail _ eq_refl I)).
  split; [| split; [apply assoc_set_same | intros k Hk; now apply assoc_set_other]].
  set (body := Py.assoc_set (binding :: d) "monitored" (PBool false)).
  destruct (runs_put respond self [Lit "episode/"; Val episode_id] (PDict body)
              (mkWorld (trace w ++ [(fetch, fetched)]) (logs w ++ l1))) as [l2 [H2 _]].
  cbn [trace] in H2.
  set (put := put_request self [Lit "episode/"; Val episode_id] (PDict body)) in *.
  set (answer := respond (trace w ++ [(fetch, fetched)]) put) in *.
  assert (T : Py.truthy (PDict (binding :: d)) = true) by reflexivity.
  assert (S : Py.setitem (PDict (binding :: d)) "monitored" (PBool false) = Ok (PDict body))
    by reflexivity.
  destruct (Py.truthy (value_of answer)) eqn:T2;
    eexists; (eapply runs_cast; [apply runs_try_ok; repeat run_step | reflexivity]).
Qed.

Lemma unmonitor_episode_read_modify_write_witness :
  service_type Sample.sonarr_client = "sonarr" /\
  exists l,
    runs (unmonitor_episode Sample2.terse Sample.sonarr_client (PInt 7)) Sample.w0
      (Ok false)
      [(get_request Sample.sonarr_client [Lit "episode/"; Val (PInt 7)],
        RespJson (PDict Sample2.fetched_episode));
       (put_request Sample.sonarr_client [Lit "episode/"; Val (PInt 7)]
          (PDict [("id", PInt 7); ("monitored", PBool false); ("title", PStr "Pilot")]),
        RespJson (PDict []))] l.
Proof.
  split; [reflexivity |].
  exact (proj1 (unmonitor_episode_read_modify_write Sample2.terse Sample.sonarr_client
                  (PInt 7) Sample.w0 eq_refl)).
Defined.

(** X10. [unmonitor_movie] on a Radarr client reads, modifies and writes
    back.  It first fetches the movie.  When the fetch gives a non-empty
    JSON object, it sends one PUT whose body binds [monitored] to [False]
    and agrees with the fetched object on every other key, and returns
    whether the answer to the PUT is truthy.  When the fetch gives anything
    else (an error, null, an empty object, a list, a number, a string), it
    sends no PUT and returns [False]. *)
Theorem unmonitor_movie_read_modify_write
    (respond : list (request * response) -> request -> response)
    (self : client) (movie_id : pyval) (w : world) :
  service_type self = "radarr" ->
  let fetch := get_request self [Lit "movie/"; Val movie_id] in
  let fetched := respond (trace w) fetch in
  match value_of fetched with
  | PDict (binding :: d) =>
      let body := Py.assoc_set (binding :: d) "monitored" (PBool false) in
      let put := put_request self [Lit "movie/"; Val movie_id] (PDict body) in
      let answer := respond (trace w ++ [(fetch, fetched)]) put in
      (exists l,
         runs (unmonitor_movie respond self movie_id) w
           (Ok (Py.truthy (value_of answer))) [(fetch, fetched); (put, answer)] l) /\
      Py.assoc body "monitored" = Some (PBool false) /\
      (forall k, k <> "monitored" -> Py.assoc body k = Py.assoc (binding :: d) k)
  | _ =>
      exists l,
        runs (unmonitor_movie respond self movie_id) w (Ok false)
          [(fetch, fetched)] l
  end.
Proof.
  intros Hs. cbv zeta. unfold unmonitor_movie. rewrite Hs. simpl negb. cbv iota.
  destruct (runs_get respond self [Lit "movie/"; Val movie_id] PNone w)
    as [l1 [H1 _]].
  set (fetch := get_request self [Lit "movie/"; Val movie_id]) in *.
  set (fetched := respond (trace w) fetch) in *.
  assert (Hfail : forall v, value_of fetched = v ->
            match v with PDict (_ :: _) => False | _ => True end ->
            exists l,
              runs (try_except
                      (let! movie := _make_request respond self "GET"
                                         [Lit "movie/"; Val movie_id] PNone in
                       if negb (Py.truthy movie) then
                         log ERROR [Lit "Could not retrieve movie "; Val movie_id] ;;
                         ret false
                       else
                         let! movie' := lift (Py.setitem movie "monitored" (PBool false)) in
                         let! result := _make_request respond self "PUT"
                                          [Lit "movie/"; Val movie_id] movie' in
                         if Py.truthy result then
                           log INFO [Lit "Successfully unmonitored Radarr movie ";
                                     Val movie_id] ;;
                           ret true
                         else
                           log ERROR [Lit "Failed to unmonitor Radarr movie ";
                                      Val movie_id] ;;
                           ret false)
                      (fun e =>
                         log ERROR [Lit "Error unmonitoring movie "; Val movie_id;
                                    Lit ": "; ExnText e] ;;
                         ret false)) w (Ok false) [(fetch, fetched)] l).
  { intros v Hv Hshape. rewrite Hv in H1.
    destruct (Py.truthy v) eqn:T.
    - assert (S : Py.setitem v "monitored" (PBool false) = Raise TypeError).
      { destruct v as [a | x | [|b d]]; try reflexivity; [discriminate | contradiction]. }
      eexists. eapply runs_cast;
        [eapply runs_try_raise; repeat run_step | reflexivity].
    - eexists. eapply runs_cast; [apply runs_try_ok; repeat run_step | reflexivity]. }
  destruct (value_of fetched) as [a | x | [|binding d]] eqn:V;
    try (apply (Hfail _ eq_refl I)).
  split; [| split; [apply assoc_set_same | intros k Hk; now apply assoc_set_other]].
  set (body := Py.assoc_set (binding :: d) "monitored" (PBool false)).
  destruct (runs_put respond self [Lit "movie/"; Val movie_id] (PDict body)
              (mkWorld (trace w ++ [(fetch, fetched)]) (logs w ++ l1))) as [l2 [H2 _]].
  cbn [trace] in H2.
  set (put := put_request self [Lit "movie/"; Val movie_id] (PDict body)) in *.
  set (answer := respond (trace w ++ [(fetch, fetched)]) put) in *.
  assert (T : Py.truthy (PDict (binding :: d)) = true) by reflexivity.
  assert (S : Py.setitem (PDict (binding :: d)) "monitored" (PBool false) = Ok (PDict body))
    by reflexivity.
  destruct (Py.truthy (value_of answer)) eqn:T2;
    eexists; (eapply runs_cast; [apply runs_try_ok; repeat run_step | reflexivity]).
Qed.

Lemma unmonitor_movie_read_modify_write_witness :
  service_type Sample.radarr_client = "radarr" /\
  exists l,
    runs (unmonitor_movie Sample2.terse Sample.radarr_client (PInt 7)) Sample.w0
      (Ok false)
      [(get_request Sample.radarr_client [Lit "movie/"; Val (PInt 7)],
        RespJson (PDict Sample2.fetched_episode));
       (put_request Sample.radarr_client [Lit "movie/"; Val (PInt 7)]
          (PDict [("id", PInt 7); ("monitored", PBool false); ("title", PStr "Pilot")]),
        RespJson (PDict []))] l.
Proof.
  split; [reflexivity |].
  exact (proj1 (unmonitor_movie_read_modify_write Sample2.terse Sample.radarr_client
                  (PInt 7) Sample.w0 eq_refl)).
Defined.

(** X11. [unmonitor_episodes] on a Sonarr client refuses an empty list:
    it returns [False] and sends nothing.  For a non-empty list it sends
    exactly one request, PUT episode/monitor, whose body carries the given
    ids in the given order with [monitored] false, and returns whether the
    answer is truthy. *)
Theorem unmonitor_episodes_one_put
    (respond : list (request * response) -> request -> response)
    (self : client) (episode_ids : list pyval) (w : world) :
  service_type self = "sonarr" ->
  match episode_ids with
  | [] => exists l, runs (unmonitor_episodes respond self []) w (Ok false) [] l
  | _ :: _ =>
      let req := put_request self [Lit "episode/monitor"]
                   (PDict [("episodeIds", PList episode_ids); ("monitored", PBool false)]) in
      let answer := respond (trace w) req in
      exists l,
        runs (unmonitor_episodes respond self episode_ids) w
          (Ok (Py.truthy (value_of answer))) [(req, answer)] l
  end.
Proof.
  intros Hs. destruct episode_ids as [|id ids].
  - unfold unmonitor_episodes. rewrite Hs. simpl negb. cbv iota. cbn [length Nat.eqb].
    eexists. repeat run_step.
  - cbv zeta. apply (runs_unmonitor_episodes respond self id ids w Hs).
Qed.

Lemma unmonitor_episodes_one_put_witness :
  service_type Sample.sonarr_client = "sonarr" /\
  (exists l,
     runs (unmonitor_episodes Sample.down Sample.sonarr_client []) Sample.w0
       (Ok false) [] l) /\
  (exists l,
     runs (unmonitor_episodes Sample2.terse Sample.sonarr_client [PInt 3; PInt 1])
       Sample.w0 (Ok false)
       [(put_request Sample.sonarr_client [Lit "episode/monitor"]
           (PDict [("episodeIds", PList [PInt 3; PInt 1]); ("monitored", PBool false)]),
         RespJson (PDict []))] l).
Proof.
  split; [reflexivity |]. split.
  - exact (unmonitor_episodes_one_put Sample.down Sample.sonarr_client []
             Sample.w0 eq_refl).
  - exact (unmonitor_episodes_one_put Sample2.terse Sample.sonarr_client
             [PInt 3; PInt 1] Sample.w0 eq_refl).
Defined.

(** X12. [test_connection] never raises, whatever the service type of the
    client: it sends exactly one request, GET system/status, and returns
    whether the outcome is truthy.  A 2xx answer whose body is not JSON
    counts as connected; an error, a null body or an empty JSON object does
    not. *)
Theorem test_connection_one_probe
    (respond : list (request * response) -> request -> response)
    (self : client) (w : world) :
  let probe := get_request self [Lit "system/status"] in
  let answer := respond (trace w) probe in
  (exists l,
     runs (test_connection respond self) w (Ok (Py.truthy (value_of answer)))
       [(probe, answer)] l) /\
  (answer = RespNoJson -> Py.truthy (value_of answer) = true) /\
  (In answer [RespTimeout; RespConnectionError; RespHTTPError; RespOtherError;
              RespJson PNone; RespJson (PDict [])] ->
   Py.truthy (value_of answer) = false).
Proof.
  cbv zeta. unfold test_connection.
  destruct (runs_get respond self [Lit "system/status"] PNone w) as [l1 [H1 _]].
  set (probe := get_request self [Lit "system/status"]) in *.
  set (answer := respond (trace w) probe) in *.
  split; [| split].
  - destruct (Py.truthy (value_of answer)) eqn:T;
      eexists; (eapply runs_cast; [apply runs_try_ok; repeat run_step | reflexivity]).
  - intros ->. reflexivity.
  - intros Hin. simpl in Hin.
    repeat (destruct Hin as [<- | Hin]; [reflexivity |]). destruct Hin.
Qed.

(** ** The client: the episode listing *)

Lemma custom_headers_appended (custom_headers : list string) (endpoint : list piece) :
  fold_left add_custom_header custom_headers (endpoint, true) =
  (endpoint ++ flat_map (fun h => [Lit "&"; Lit h]) custom_headers, true).
Proof.
  revert endpoint. induction custom_headers as [|h hs IH]; intros endpoint; simpl.
  - now rewrite List.app_nil_r.
  - rewrite IH. now rewrite <- app_assoc.
Qed.

(** X13. The endpoint [get_episodes] asks for is a well-formed query: a
    truthy series id gives episode?seriesId=<id> followed by each custom
    header after an ampersand; a falsy series id ([None], but also 0) gives
    no series filter at all, the first custom header then follows the
    question mark and the others an ampersand, and with no header the
    endpoint is plain episode. *)
Theorem episodes_endpoint_is_a_query (series_id : pyval) (custom_headers : list string) :
  episodes_endpoint series_id custom_headers =
  if Py.truthy series_id then
    [Lit "episode"; Lit "?seriesId="; Val series_id] ++
    flat_map (fun h => [Lit "&"; Lit h]) custom_headers
  else
    match custom_headers with
    | [] => [Lit "episode"]
    | h :: rest =>
        [Lit "episode"; Lit "?"; Lit h] ++ flat_map (fun h => [Lit "&"; Lit h]) rest
    end.
Proof.
  unfold episodes_endpoint. destruct (Py.truthy series_id).
  - now rewrite custom_headers_appended.
  - destruct custom_headers as [|h rest]; [reflexivity |].
    simpl. now rewrite custom_headers_appended.
Qed.

(** X14. Whatever the service answers and whatever the service type of
    the client, the getters never raise, send at most one request, and hand
    back only what their callers iterate on or read: [get_series],
    [get_episodes] and [get_movies] return a list or [None], and
    [get_movie_file] returns a dict or [None]. *)
Theorem getters_return_what_they_promise
    (respond : list (request * response) -> request -> response)
    (self : client) (item : pyval) (custom_headers : list string) (w : world) :
  let listing (m : M pyval) :=
    exists v t l, runs m w (Ok v) t l /\ (length t <= 1)%nat /\
                  (v = PNone \/ Py.is_list v = true) in
  listing (get_series respond self) /\
  listing (get_episodes respond self item custom_headers) /\
  listing (get_movies respond self) /\
  exists v t l,
    runs (get_movie_file respond self item) w (Ok v) t l /\ (length t <= 1)%nat /\
    (v = PNone \/ Py.is_dict v = true).
Proof.
  cbv zeta.
  assert (Hfilter : forall (p : pyval -> bool) endpoint,
    exists v t l,
      runs (let! result := _make_request respond self "GET" endpoint PNone in
            if p result then ret result else ret PNone) w (Ok v) t l /\
      (length t <= 1)%nat /\ (v = PNone \/ p v = true)).
  { intros p endpoint.
    destruct (runs_get respond self endpoint PNone w) as [l1 [H1 _]].
    destruct (p (value_of (respond (trace w) (get_request self endpoint)))) eqn:P.
    - eexists _, _, _. split; [repeat run_step |]. split; [simpl; lia | now right].
    - eexists _, _, _. split; [repeat run_step |]. split; [simpl; lia | now left]. }
  assert (Hnone : exists v t l,
            runs (ret PNone) w (Ok v) t l /\ (length t <= 1)%nat /\
            (v = PNone \/ Py.is_list v = true)).
  { exists PNone, [], []. split; [apply runs_ret |]. split; [simpl; lia | now left]. }
  assert (Hnone' : exists v t l,
            runs (ret PNone) w (Ok v) t l /\ (length t <= 1)%nat /\
            (v = PNone \/ Py.is_dict v = true)).
  { exists PNone, [], []. split; [apply runs_ret |]. split; [simpl; lia | now left]. }
  unfold get_series, get_episodes, get_movies, get_movie_file.
  destruct (String.eqb (service_type self) "sonarr");
    destruct (String.eqb (service_type self) "radarr"); cbn [negb];
    repeat split; try exact Hnone; try apply (Hfilter Py.is_list);
    destruct (Py.is_none item); try exact Hnone'; apply (Hfilter Py.is_dict).
Qed.

(** ** The webhook orchestrators when the gate does not pass *)

(** X15. On a 'Download' payload whose quality info does not pass the
    gate, the two webhook handlers build no client and send no request.
    They report success when the gate gave a false verdict, and failure when
    reading the quality info or evaluating the gate raised.  (The Radarr
    handler first reads the id of the movie, which must be a JSON object or
    absent.) *)
Theorem no_request_unless_the_gate_passes
    (respond : list (request * response) -> request -> response)
    (config : gmap string atom) (d : list (string * pyval)) (w : world) :
  event_type_of d = PStr "Download" ->
  fst (evaluate config (quality_block d) w) <> Ok true ->
  let reported :=
    match fst (evaluate config (quality_block d) w) with
    | Ok _ => true
    | Raise _ => false
    end in
  (exists l, runs (process_sonarr_webhook respond config (PDict d)) w (Ok reported) [] l) /\
  (Py.is_dict (field d "movie" (PDict [])) = true ->
   exists l, runs (process_radarr_webhook respond config (PDict d)) w (Ok reported) [] l).
Proof.
  intros Hev Hgate. cbv zeta.
  assert (E1 : Py.get (PDict d) "eventType" PNone = Ok (event_type_of d))
    by reflexivity.
  assert (E2 : Py.get (PDict d) "customFormatInfo" (PDict []) = Ok (quality_block d))
    by reflexivity.
  assert (E3 : Py.ne_str (event_type_of d) "Download" = false)
    by now rewrite Hev.
  assert (E4 : Py.get (PDict d) "episodes" (PList []) = Ok (field d "episodes" (PList [])))
    by reflexivity.
  assert (E5 : Py.get (PDict d) "movie" (PDict []) = Ok (field d "movie" (PDict [])))
    by reflexivity.
  destruct (runs_evaluate config (quality_block d) w) as [r [l1 [H1 _]]].
  rewrite (runs_fst _ _ _ _ _ H1) in *.
  split.
  - unfold process_sonarr_webhook.
    destruct r as [[|]|e]; [congruence | |].
    + eexists. eapply runs_cast.
      * apply runs_try_ok. repeat run_step.
        eapply runs_bind; [repeat run_step | apply runs_ret].
      * reflexivity.
    + eexists. eapply runs_cast; [eapply runs_try_raise; repeat run_step | reflexivity].
  - intros Hmovie. unfold process_radarr_webhook.
    destruct (field d "movie" (PDict [])) as [a | x | m] eqn:M; try discriminate.
    assert (E6 : Py.get (PDict m) "id" PNone = Ok (field m "id" PNone)) by reflexivity.
    destruct r as [[|]|e]; [congruence | |].
    + eexists. eapply runs_cast.
      * apply runs_try_ok. repeat run_step.
        eapply runs_bind; [repeat run_step | apply runs_ret].
      * reflexivity.
    + eexists. eapply runs_cast; [eapply runs_try_raise; repeat run_step | reflexivity].
Qed.

Lemma no_request_unless_the_gate_passes_witness :
  event_type_of Sample2.poor_fields = PStr "Download" /\
  fst (evaluate Sample.sonarr_config (quality_block Sample2.poor_fields) Sample.w0)
    = Ok false /\
  (exists l,
     runs (process_sonarr_webhook Sample.up Sample.sonarr_config
             (PDict Sample2.poor_fields)) Sample.w0 (Ok true) [] l) /\
  (exists l,
     runs (process_radarr_webhook Sample.up Sample.sonarr_config
             (PDict Sample2.poor_fields)) Sample.w0 (Ok true) [] l).
Proof.
  split; [reflexivity |]. split; [reflexivity |].
  assert (Hno : fst (evaluate Sample.sonarr_config (quality_block Sample2.poor_fields)
                       Sample.w0) <> Ok true) by discriminate.
  destruct (no_request_unless_the_gate_passes Sample.up Sample.sonarr_config
              Sample2.poor_fields Sample.w0 eq_refl Hno) as [Hs Hr].
  split; [exact Hs | exact (Hr eq_refl)].
Defined.

Lemma runs_cast_logs {A} (m : M A) w r t t' l l' :
  runs m w r t l -> t = t' -> l = l' -> runs m w r t' l'.
Proof. now intros H <- <-. Qed.

Lemma logged_world w l : mkWorld (trace w ++ []) (logs w ++ l) = logged w l.
Proof. unfold logged. now rewrite List.app_nil_r. Qed.

(** X16. On a Radarr 'Download' payload whose quality info passes the
    gate, the webhook handler does exactly one thing besides evaluating the
    gate: when the id of the movie is truthy it makes the one call
    [unmonitor_movie(movie_id)] and logs its outcome, and when the id is
    missing, null or zero it sends nothing.  In both cases it reports
    success, whatever the call returned. *)
Theorem radarr_download_unmonitors_the_movie
    (respond : list (request * response) -> request -> response)
    (config : gmap string atom) (d m : list (string * pyval)) (self : client)
    (w : world) :
  event_type_of d = PStr "Download" ->
  field d "movie" (PDict []) = PDict m ->
  fst (evaluate config (quality_block d) w) = Ok true ->
  client_for config "radarr" = Ok self ->
  let movie_id := field m "id" PNone in
  exists l1, runs (evaluate config (quality_block d)) w (Ok true) [] l1 /\
  if Py.truthy movie_id then
    exists success t l2,
      runs (unmonitor_movie respond self movie_id) (logged w l1) (Ok success) t l2 /\
      runs (process_radarr_webhook respond config (PDict d)) w (Ok true) t
        (l1 ++ l2 ++ [movie_outcome_record movie_id success])
  else
    runs (process_radarr_webhook respond config (PDict d)) w (Ok true) [] l1.
Proof.
  intros Hev Hm Hgate Hc. cbv zeta.
  assert (E1 : Py.get (PDict d) "eventType" PNone = Ok (event_type_of d))
    by reflexivity.
  assert (E2 : Py.get (PDict d) "customFormatInfo" (PDict []) = Ok (quality_block d))
    by reflexivity.
  assert (E3 : Py.ne_str (event_type_of d) "Download" = false)
    by now rewrite Hev.
  assert (E5 : Py.get (PDict d) "movie" (PDict []) = Ok (PDict m))
    by (rewrite <- Hm; reflexivity).
  assert (E6 : Py.get (PDict m) "id" PNone = Ok (field m "id" PNone)) by reflexivity.
  destruct (runs_evaluate config (quality_block d) w) as [r [l1 [H1 _]]].
  rewrite (runs_fst _ _ _ _ _ H1) in Hgate. subst r.
  pose proof (client_for_service _ _ _ Hc) as Hs.
  change (service_type self = "radarr") in Hs.
  exists l1. split; [exact H1 |].
  destruct (Py.truthy (field m "id" PNone)) eqn:T.
  - destruct (runs_unmonitor_movie respond self (field m "id" PNone) (logged w l1) Hs)
      as [success [t [l2 H2]]].
    exists success, t, l2. split; [exact H2 |].
    unfold process_radarr_webhook.
    destruct success; cbn [movie_outcome_record];
      (eapply runs_cast_logs;
       [ apply runs_try_ok; repeat run_step;
         rewrite logged_world; cbn [andb]; rewrite T;
         eapply runs_bind; [| apply runs_ret];
         rewrite Hc; run_step;
         eapply runs_bind; [exact H2 | cbv beta];
         apply runs_log
       | now rewrite !List.app_nil_r
       | now rewrite ?List.app_nil_r, <- ?app_assoc ]).
  - unfold process_radarr_webhook.
    eapply runs_cast_logs.
    + apply runs_try_ok. repeat run_step.
      cbn [andb]. rewrite T.
      eapply runs_bind; [apply runs_ret | apply runs_ret].
    + reflexivity.
    + now rewrite !List.app_nil_r.
Qed.

Lemma radarr_download_unmonitors_the_movie_witness :
  exists l1 success t l2,
    runs (evaluate Sample.radarr_config (quality_block Sample2.film_fields))
      Sample.w0 (Ok true) [] l1 /\
    runs (unmonitor_movie Sample2.terse Sample.radarr_client (PInt 5))
      (logged Sample.w0 l1) (Ok success) t l2 /\
    runs (process_radarr_webhook Sample2.terse Sample.radarr_config
            (PDict Sample2.film_fields)) Sample.w0 (Ok true) t
      (l1 ++ l2 ++ [movie_outcome_record (PInt 5) success]).
Proof.
  destruct (radarr_download_unmonitors_the_movie Sample2.terse Sample.radarr_config
              Sample2.film_fields [("id", PInt 5)] Sample.radarr_client Sample.w0
              eq_refl eq_refl eq_refl eq_refl) as [l1 [H1 H]].
  cbn [field Py.assoc String.eqb Ascii.eqb Bool.eqb Py.truthy Py.atom_truthy
       Z.eqb negb] in H.
  destruct H as [success [t [l2 [H2 H3]]]].
  exists l1, success, t, l2. auto.
Defined.

(** ** What never raises *)

(** The methods of the API client never raise, on a client of either
    service type, whatever the arguments and whatever the remote service
    does: every one of them returns a value, and the only thing it does to
    the world is to append exchanges and log records. *)
Lemma client_methods_never_raise
    (respond : list (request * response) -> request -> response)
    (self : client) (method : string) (endpoint : list piece) (data item : pyval)
    (ids : list pyval) (custom_headers : list string) :
  returns (_make_request respond self method endpoint data) /\
  returns (test_connection respond self) /\
  returns (get_system_status respond self) /\
  returns (unmonitor_episode respond self item) /\
  returns (unmonitor_episodes respond self ids) /\
  returns (unmonitor_movie respond self item) /\
  returns (get_episodes respond self item custom_headers) /\
  returns (get_movies respond self) /\
  returns (get_movie_file respond self item) /\
  returns (get_series respond self).
Proof.
  assert (Hsend : forall req, returns (send respond req)).
  { intros req w. destruct (runs_send respond req w) as [l [H _]].
    eexists _, _, _. exact H. }
  assert (Hreq : forall method endpoint data,
            returns (_make_request respond self method endpoint data)).
  { intros m e d. unfold _make_request. cbv zeta.
    apply returns_bind; [intros w; eexists _, _, _; apply runs_log | intros _].
    repeat match goal with
           | |- returns (if ?c then _ else _) => destruct c
           end; try apply Hsend.
    apply returns_log_ret. }
  assert (Hget : forall endpoint (keep : pyval -> bool),
            returns (let! result := _make_request respond self "GET" endpoint PNone in
                     if keep result then ret result else ret PNone)).
  { intros e keep. apply returns_bind; [apply Hreq | intros v].
    destruct (keep v); apply returns_ret. }
  split; [apply Hreq |].
  split.
  { unfold test_connection.
    apply returns_try; [repeat appends_step | intros e; apply returns_log_ret]. }
  split; [apply Hreq |].
  split.
  { unfold unmonitor_episode. destruct (negb _); [apply returns_log_ret |].
    apply returns_try; [repeat appends_step | intros e; apply returns_log_ret]. }
  split.
  { unfold unmonitor_episodes. destruct (negb _); [apply returns_log_ret |].
    destruct (_ =? _)%nat; [apply returns_log_ret |].
    apply returns_try; [repeat appends_step | intros e; apply returns_log_ret]. }
  split.
  { unfold unmonitor_movie. destruct (negb _); [apply returns_log_ret |].
    apply returns_try; [repeat appends_step | intros e; apply returns_log_ret]. }
  split.
  { unfold get_episodes. destruct (negb _); [apply returns_ret | apply Hget]. }
  split.
  { unfold get_movies. destruct (negb _); [apply returns_ret | apply Hget]. }
  split.
  { unfold get_movie_file. destruct (negb _); [apply returns_ret |].
    destruct (Py.is_none item); [apply returns_ret | apply Hget]. }
  unfold get_series. destruct (negb _); [apply returns_ret | apply Hget].
Qed.

Lemma returns_process_sonarr_webhook respond config webhook_data :
  returns (process_sonarr_webhook respond config webhook_data).
Proof.
  unfold process_sonarr_webhook.
  apply returns_try; [repeat appends_step | intros e; apply returns_log_ret].
Qed.

Lemma returns_process_radarr_webhook respond config webhook_data :
  returns (process_radarr_webhook respond config webhook_data).
Proof.
  unfold process_radarr_webhook.
  apply returns_try; [repeat appends_step | intros e; apply returns_log_ret].
Qed.

Lemma returns_process_sonarr_force_unmonitor respond config :
  returns (process_sonarr_force_unmonitor respond config).
Proof.
  unfold process_sonarr_force_unmonitor.
  apply returns_try; [repeat appends_step | intros e; apply returns_log_ret].
Qed.

Lemma returns_process_radarr_force_unmonitor respond config :
  returns (process_radarr_force_unmonitor respond config).
Proof.
  unfold process_radarr_force_unmonitor.
  apply returns_try; [repeat appends_step | intros e; apply returns_log_ret].
Qed.

(** X17. The four orchestrators never raise: on any configuration
    (complete or not), any payload (a JSON object or not) and any behaviour
    of the remote service, each of them returns a boolean, having only
    appended exchanges and log records. *)
Theorem orchestrators_never_raise
    (respond : list (request * response) -> request -> response)
    (config : gmap string atom) (webhook_data : pyval) :
  returns (process_sonarr_webhook respond config webhook_data) /\
  returns (process_radarr_webhook respond config webhook_data) /\
  returns (process_sonarr_force_unmonitor respond config) /\
  returns (process_radarr_force_unmonitor respond config).
Proof.
  split; [apply returns_process_sonarr_webhook |].
  split; [apply returns_process_radarr_webhook |].
  split; [apply returns_process_sonarr_force_unmonitor |].
  apply returns_process_radarr_force_unmonitor.
Qed.

(** ** The routes *)

(** X18. The webhook routes authenticate before anything else.  Unless
    the [X-Webhook-Token] header carries a non-empty token under which the
    store finds a configuration whose service type is the one of the route,
    the route sends no request to any service, whatever the body, and
    replies 401 (or 500, when the configuration found has no service
    type). *)
Theorem webhook_routes_reject_bad_tokens
    (respond : list (request * response) -> request -> response)
    (config_manager : ConfigManager.t) (order : list string)
    (header : option string) (body : json_body) (w : world) :
  ((forall config, ~ authorises order config_manager "sonarr" header config) ->
   turned_down (sonarr_webhook respond config_manager order header body) w) /\
  ((forall config, ~ authorises order config_manager "radarr" header config) ->
   turned_down (radarr_webhook respond config_manager order header body) w).
Proof.
  split; intros Hno.
  - unfold turned_down, sonarr_webhook. fold (token_of header). cbv zeta.
    destruct (Str.is_empty (token_of header)) eqn:E.
    { eexists _, _. split; [apply runs_try_ok; repeat run_step | now left]. }
    destruct (Manager.get_config_by_token order config_manager (token_of header))
      as [config|] eqn:G.
    2: { eexists _, _. split; [apply runs_try_ok; repeat run_step | now left]. }
    destruct (bool_decide (config = ∅)) eqn:B.
    { eexists _, _. split; [apply runs_try_ok; repeat run_step | now left]. }
    apply bool_decide_eq_false in B.
    unfold cfg_item. destruct (config !! "service_type") as [a|] eqn:S.
    2: { eexists _, _. split; [| now right].
         eapply runs_cast_logs; [eapply runs_try_raise; repeat run_step | reflexivity | reflexivity]. }
    destruct (Py.ne_str (PAtom a) "sonarr") eqn:N.
    { eexists _, _. split; [apply runs_try_ok; repeat run_step | now left]. }
    exfalso. apply (Hno config). repeat (split; [assumption |]).
    unfold cfg_get. rewrite S.
    destruct a as [| b | z | s]; try discriminate.
    simpl in N. apply negb_false_iff, String.eqb_eq in N. now subst.
  - unfold turned_down, radarr_webhook. fold (token_of header). cbv zeta.
    destruct (Str.is_empty (token_of header)) eqn:E.
    { eexists _, _. split; [apply runs_try_ok; repeat run_step | now left]. }
    destruct (Manager.get_config_by_token order config_manager (token_of header))
      as [config|] eqn:G.
    2: { eexists _, _. split; [apply runs_try_ok; repeat run_step | now left]. }
    destruct (bool_decide (config = ∅)) eqn:B.
    { eexists _, _. split; [apply runs_try_ok; repeat run_step | now left]. }
    apply bool_decide_eq_false in B.
    unfold cfg_item. destruct (config !! "service_type") as [a|] eqn:S.
    2: { eexists _, _. split; [| now right].
         eapply runs_cast_logs; [eapply runs_try_raise; repeat run_step | reflexivity | reflexivity]. }
    destruct (Py.ne_str (PAtom a) "radarr") eqn:N.
    { eexists _, _. split; [apply runs_try_ok; repeat run_step | now left]. }
    exfalso. apply (Hno config). repeat (split; [assumption |]).
    unfold cfg_get. rewrite S.
    destruct a as [| b | z | s]; try discriminate.
    simpl in N. apply negb_false_iff, String.eqb_eq in N. now subst.
Qed.

Lemma webhook_routes_reject_bad_tokens_witness :
  (forall config,
     ~ authorises Sample2.order Sample.store "sonarr" (Some "hook-film") config) /\
  (forall config,
     ~ authorises Sample2.order Sample.store "radarr" (Some "hook-tv") config) /\
  turned_down (sonarr_webhook Sample.up Sample.store Sample2.order (Some "hook-film")
                 (Decoded (PDict Sample2.film_fields))) Sample.w0 /\
  turned_down (radarr_webhook Sample.up Sample.store Sample2.order (Some "hook-tv")
                 (Decoded (PDict Sample2.film_fields))) Sample.w0.
Proof.
  assert (H1 : forall config,
            ~ authorises Sample2.order Sample.store "sonarr" (Some "hook-film") config).
  { intros config [_ [G [_ S]]]. cbn [token_of] in G.
    assert (G' : Manager.get_config_by_token Sample2.order Sample.store "hook-film"
                 = Some Sample.radarr_config) by reflexivity.
    rewrite G' in G. inversion G; subst config. vm_compute in S. discriminate. }
  assert (H2 : forall config,
            ~ authorises Sample2.order Sample.store "radarr" (Some "hook-tv") config).
  { intros config [_ [G [_ S]]]. cbn [token_of] in G.
    assert (G' : Manager.get_config_by_token Sample2.order Sample.store "hook-tv"
                 = Some Sample.sonarr_config) by reflexivity.
    rewrite G' in G. inversion G; subst config. vm_compute in S. discriminate. }
  split; [exact H1 |]. split; [exact H2 |].
  split.
  - exact (proj1 (webhook_routes_reject_bad_tokens Sample.up Sample.store Sample2.order
                    (Some "hook-film") (Decoded (PDict Sample2.film_fields)) Sample.w0)
             H1).
  - exact (proj2 (webhook_routes_reject_bad_tokens Sample.up Sample.store Sample2.order
                    (Some "hook-tv") (Decoded (PDict Sample2.film_fields)) Sample.w0)
             H2).
Defined.

Lemma logged_two w a b :
  mkWorld (trace w) ((logs w ++ [a]) ++ [b]) = logged w [a; b].
Proof. unfold logged. now rewrite <- app_assoc. Qed.

Lemma authorised_steps order config_manager service header config :
  authorises order config_manager service header config ->
  bool_decide (config = ∅) = false /\
  cfg_item config "service_type" = Ok (AStr service) /\
  Py.ne_str (PStr service) service = false.
Proof.
  intros [_ [_ [Hne Hs]]]. split; [now apply bool_decide_eq_false |]. split.
  - apply cfg_item_of_get; [exact Hs | discriminate].
  - simpl. now rewrite String.eqb_refl.
Qed.

(** X19. The replies of the webhook routes to a request with a valid
    token.  A body that does not decode gives 500, and a body that decodes to
    a falsy document (null, an empty object) gives 400, both without any
    request sent.  Otherwise the route runs the orchestrator of its service
    once, on the configuration found and the decoded body: the requests sent
    are those of the orchestrator, and the reply is 200 when it returned
    true and 500 'Processing failed' when it returned false.  (A
    configuration without a name gives 500 before the orchestrator runs.) *)
Theorem webhook_routes_reply
    (respond : list (request * response) -> request -> response)
    (config_manager : ConfigManager.t) (order : list string)
    (header : option string) (config : gmap string atom) (body : json_body)
    (w : world) :
  let reply_to (route : M (string * Z)) (process : pyval -> M bool) :=
    match body with
    | Undecodable => exists l, runs route w (Ok ("Internal Server Error", 500)) [] l
    | Decoded webhook_data =>
        if Py.truthy webhook_data then
          match config !! "name" with
          | Some name =>
              exists l0 result t l1,
                runs (process webhook_data) (logged w l0) (Ok result) t l1 /\
                runs route w (Ok (reply_of result)) t (l0 ++ l1)
          | None => exists l, runs route w (Ok ("Internal Server Error", 500)) [] l
          end
        else exists l, runs route w (Ok ("Bad Request", 400)) [] l
    end in
  (authorises order config_manager "sonarr" header config ->
   reply_to (sonarr_webhook respond config_manager order header body)
            (process_sonarr_webhook respond config)) /\
  (authorises order config_manager "radarr" header config ->
   reply_to (radarr_webhook respond config_manager order header body)
            (process_radarr_webhook respond config)).
Proof.
  cbv zeta. split; intros Hauth;
    destruct (authorised_steps _ _ _ _ _ Hauth) as [B [S N]];
    destruct Hauth as [E [G _]].
  - unfold sonarr_webhook. fold (token_of header). cbv zeta. rewrite E, G, B.
    destruct body as [webhook_data|].
    + destruct (Py.truthy webhook_data) eqn:T.
      * destruct (config !! "name") as [name|] eqn:Hname;
          [ assert (Hn : cfg_item config "name" = Ok name)
              by (unfold cfg_item; now rewrite Hname)
          | assert (Hn : cfg_item config "name" = Raise KeyError)
              by (unfold cfg_item; now rewrite Hname) ].
        -- set (l0 := [mkLog INFO [Lit "Received Sonarr webhook for config: ";
                                    Val (PAtom name)];
                       mkLog DEBUG [Lit "Webhook data: "; Val webhook_data]]).
           destruct (returns_process_sonarr_webhook respond config webhook_data
                       (logged w l0)) as [result [t [l1 H1]]].
           exists l0, result, t, l1. split; [exact H1 |].
           eapply runs_cast_logs.
           ++ apply runs_try_ok. repeat run_step.
              cbn [trace logs]. rewrite logged_two.
              eapply runs_bind; [exact H1 | cbv beta].
              destruct result; apply runs_ret.
           ++ now rewrite !List.app_nil_r.
           ++ now rewrite !List.app_nil_r.
        -- eexists. eapply runs_cast_logs;
             [eapply runs_try_raise; repeat run_step | reflexivity | reflexivity].
      * eexists. apply runs_try_ok. repeat run_step.
    + eexists. apply runs_try_ok. repeat run_step.
  - unfold radarr_webhook. fold (token_of header). cbv zeta. rewrite E, G, B.
    destruct body as [webhook_data|].
    + destruct (Py.truthy webhook_data) eqn:T.
      * destruct (config !! "name") as [name|] eqn:Hname;
          [ assert (Hn : cfg_item config "name" = Ok name)
              by (unfold cfg_item; now rewrite Hname)
          | assert (Hn : cfg_item config "name" = Raise KeyError)
              by (unfold cfg_item; now rewrite Hname) ].
        -- set (l0 := [mkLog INFO [Lit "Received Radarr webhook for config: ";
                                    Val (PAtom name)];
                       mkLog DEBUG [Lit "Webhook data: "; Val webhook_data]]).
           destruct (returns_process_radarr_webhook respond config webhook_data
                       (logged w l0)) as [result [t [l1 H1]]].
           exists l0, result, t, l1. split; [exact H1 |].
           eapply runs_cast_logs.
           ++ apply runs_try_ok. repeat run_step.
              cbn [trace logs]. rewrite logged_two.
              eapply runs_bind; [exact H1 | cbv beta].
              destruct result; apply runs_ret.
           ++ now rewrite !List.app_nil_r.
           ++ now rewrite !List.app_nil_r.
        -- eexists. eapply runs_cast_logs;
             [eapply runs_try_raise; repeat run_step | reflexivity | reflexivity].
      * eexists. apply runs_try_ok. repeat run_step.
    + eexists. apply runs_try_ok. repeat run_step.
Qed.

Lemma sample_radarr_authorised :
  authorises Sample2.order Sample.store "radarr" (Some "hook-film") Sample.radarr_config.
Proof.
  split; [reflexivity |]. split; [reflexivity |]. split; [| reflexivity].
  intros H. apply (f_equal (fun c : gmap string atom => c !! "name")) in H.
  vm_compute in H. discriminate.
Qed.

Lemma webhook_routes_reply_witness :
  authorises Sample2.order Sample.store "radarr" (Some "hook-film")
    Sample.radarr_config /\
  exists l0 result t l1,
    runs (process_radarr_webhook Sample2.terse Sample.radarr_config
            (PDict Sample2.film_fields)) (logged Sample.w0 l0) (Ok result) t l1 /\
    runs (radarr_webhook Sample2.terse Sample.store Sample2.order (Some "hook-film")
            (Decoded (PDict Sample2.film_fields))) Sample.w0 (Ok (reply_of result)) t
      (l0 ++ l1).
Proof.
  split; [exact sample_radarr_authorised |].
  pose proof (proj2 (webhook_routes_reply Sample2.terse Sample.store Sample2.order
                       (Some "hook-film") Sample.radarr_config
                       (Decoded (PDict Sample2.film_fields)) Sample.w0)
                sample_radarr_authorised) as H.
  assert (Hname : Sample.radarr_config !! "name" = Some (AStr "film")) by reflexivity.
  cbv beta iota in H. rewrite Hname in H. exact H.
Defined.

(** The cases in which the route runs no scan. *)
Ltac no_scan :=
  eexists _, _, (@nil (request * response)), (@nil log_record);
  split; [apply runs_try_ok; apply runs_ret |];
  split; [simpl; split; discriminate |];
  simpl; intros [H | H]; [discriminate | now destruct H].

(** X20. The [force_unmonitor] route always replies, and a failure
    always carries an error text.  It reports success, or sends any request
    at all, only when the store holds a configuration under the given id
    whose service type is exactly 'sonarr' or 'radarr'; the requests are then
    those of one run of the scan of that service, and the [success] flag of
    the reply is what the scan returned. *)
Theorem force_unmonitor_reports_the_scan
    (respond : list (request * response) -> request -> response)
    (config_manager : ConfigManager.t) (config_name : string) (w : world) :
  exists reply flashes t l,
    runs (force_unmonitor respond config_manager config_name) w
      (Ok (reply, flashes)) t l /\
    (success reply = true <-> error reply = None) /\
    (success reply = true \/ t <> [] ->
     exists config,
       stored config_manager config_name config /\
       ((cfg_get config "service_type" = AStr "sonarr" /\
         runs (process_sonarr_force_unmonitor respond config) w
           (Ok (success reply)) t l) \/
        (cfg_get config "service_type" = AStr "radarr" /\
         runs (process_radarr_force_unmonitor respond config) w
           (Ok (success reply)) t l))).
Proof.
  unfold force_unmonitor. cbv zeta.
  destruct (ConfigManager.get_config config_manager config_name) as [config|] eqn:G.
  2: { no_scan. }
  destruct (bool_decide (config = ∅)) eqn:B.
  { no_scan. }
  destruct (negb (Py.ne_str (PAtom (cfg_get config "service_type")) "sonarr")) eqn:N1.
  { apply negb_true_iff in N1.
    assert (Hs : cfg_get config "service_type" = AStr "sonarr").
    { destruct (cfg_get config "service_type") as [| b | z | s]; try discriminate.
      simpl in N1. apply negb_false_iff, String.eqb_eq in N1. now subst. }
    destruct (returns_process_sonarr_force_unmonitor respond config w)
      as [result [t [l H1]]].
    exists (mkReply result (if result then None else Some [Lit "Processing failed"])),
      [], t, l.
    split; [| split].
    - eapply runs_cast_logs.
      + apply runs_try_ok. eapply runs_bind; [exact H1 | cbv beta].
        destruct result; apply runs_ret.
      + apply List.app_nil_r.
      + apply List.app_nil_r.
    - destruct result; simpl; split; intros; congruence.
    - intros _. exists config. split; [exact G |]. left. split; [exact Hs | exact H1]. }
  destruct (negb (Py.ne_str (PAtom (cfg_get config "service_type")) "radarr")) eqn:N2.
  { apply negb_true_iff in N2.
    assert (Hs : cfg_get config "service_type" = AStr "radarr").
    { destruct (cfg_get config "service_type") as [| b | z | s]; try discriminate.
      simpl in N2. apply negb_false_iff, String.eqb_eq in N2. now subst. }
    destruct (returns_process_radarr_force_unmonitor respond config w)
      as [result [t [l H1]]].
    exists (mkReply result (if result then None else Some [Lit "Processing failed"])),
      [], t, l.
    split; [| split].
    - eapply runs_cast_logs.
      + apply runs_try_ok. eapply runs_bind; [exact H1 | cbv beta].
        destruct result; apply runs_ret.
      + apply List.app_nil_r.
      + apply List.app_nil_r.
    - destruct result; simpl; split; intros; congruence.
    - intros _. exists config. split; [exact G |]. right. split; [exact Hs | exact H1]. }
  no_scan.
Qed.

(** ** More on the Radarr scan *)

(** X21. A round of the Radarr scan on a monitored movie whose file
    metadata was fetched as a JSON object.  The round first sends the fetch.
    When the gate gives a true verdict on the metadata, the round goes on
    with the one call [unmonitor_movie(movie_id)], logs its outcome, and ends
    normally whether the call succeeded or not.  When the verdict is false,
    the fetch is all the round sends.  When the gate raises, the round
    raises after the fetch. *)
Theorem radarr_round_fetches_then_unmonitors
    (respond : list (request * response) -> request -> response)
    (self : client) (config : gmap string atom) (d file : list (string * pyval))
    (w : world) :
  service_type self = "radarr" ->
  Py.is_none (field d "id" PNone) = false ->
  Py.is_none (field d "movieFileId" PNone) = false ->
  Py.truthy (field d "monitored" (PBool false)) = true ->
  let movie_id := field d "id" PNone in
  let fetch := movie_file_request self (field d "movieFileId" PNone) in
  let fetched := respond (trace w) fetch in
  value_of fetched = PDict file ->
  match verdict_of config (PDict file) with
  | Ok true =>
      exists l0 success t l1,
        runs (unmonitor_movie respond self movie_id)
          (mkWorld (trace w ++ [(fetch, fetched)]) (logs w ++ l0)) (Ok success) t l1 /\
        runs (scan_movie_step respond self config (PDict d)) w (Ok tt)
          ((fetch, fetched) :: t)
          (l0 ++ l1 ++ [movie_outcome_record movie_id success])
  | Ok false =>
      exists l,
        runs (scan_movie_step respond self config (PDict d)) w (Ok tt)
          [(fetch, fetched)] l
  | Raise e =>
      exists l,
        runs (scan_movie_step respond self config (PDict d)) w (Raise e)
          [(fetch, fetched)] l
  end.
Proof.
  intros Hs Hid Hfid Hmon. cbv zeta. intros Hfetch.
  destruct (runs_get_movie_file respond self (field d "movieFileId" PNone) w Hs Hfid)
    as [la Ha]. cbv zeta in Ha. rewrite Hfetch in Ha. cbn [Py.is_dict] in Ha.
  set (fetch := movie_file_request self (field d "movieFileId" PNone)) in *.
  set (fetched := respond (trace w) fetch) in *.
  set (w1 := mkWorld (trace w ++ [(fetch, fetched)]) (logs w ++ la)).
  destruct (runs_evaluate config (PDict file) w1) as [r [lb [Hb _]]].
  assert (Hr : verdict_of config (PDict file) = r).
  { unfold verdict_of. rewrite (evaluate_fst config (PDict file) _ w1).
    exact (runs_fst _ _ _ _ _ Hb). }
  rewrite Hr.
  assert (E1 : Py.get (PDict d) "id" PNone = Ok (field d "id" PNone)) by reflexivity.
  assert (E2 : Py.get (PDict d) "movieFileId" PNone = Ok (field d "movieFileId" PNone))
    by reflexivity.
  assert (E3 : Py.get (PDict d) "monitored" (PBool false)
               = Ok (field d "monitored" (PBool false))) by reflexivity.
  assert (E4 : Py.is_none (PDict file) = false) by reflexivity.
  destruct r as [[|]|e].
  - destruct (runs_unmonitor_movie respond self (field d "id" PNone)
                (mkWorld (trace w1) (logs w1 ++ lb)) Hs) as [success [t [lc Hc]]].
    exists (la ++ lb), success, t, lc. split.
    + unfold w1 in Hc. cbn [trace logs] in Hc. rewrite <- app_assoc in Hc. exact Hc.
    + unfold scan_movie_step.
      destruct success; cbn [movie_outcome_record];
        (eapply runs_cast_logs;
         [ repeat run_step;
           rewrite List.app_nil_r;
           eapply runs_bind; [exact Hc | cbv beta]; apply runs_log
         | simpl; now rewrite List.app_nil_r
         | now rewrite <- ?app_assoc ]).
  - eexists. unfold scan_movie_step. eapply runs_cast_logs.
    + repeat run_step.
    + reflexivity.
    + reflexivity.
  - eexists. unfold scan_movie_step. eapply runs_cast_logs.
    + repeat run_step.
    + reflexivity.
    + reflexivity.
Qed.

Lemma radarr_round_fetches_then_unmonitors_witness :
  let fetch := movie_file_request Sample.radarr_client (PInt 102) in
  let fetched := Sample.cinema [] fetch in
  value_of fetched = PDict Sample2.second_file /\
  verdict_of Sample.radarr_config (PDict Sample2.second_file) = Ok true /\
  exists l0 success t l1,
    runs (unmonitor_movie Sample.cinema Sample.radarr_client (PInt 2))
      (mkWorld [(fetch, fetched)] l0) (Ok success) t l1 /\
    runs (scan_movie_step Sample.cinema Sample.radarr_client Sample.radarr_config
            (PDict Sample2.second_movie)) Sample.w0 (Ok tt)
      ((fetch, fetched) :: t)
      (l0 ++ l1 ++ [movie_outcome_record (PInt 2) success]).
Proof.
  cbv zeta. split; [reflexivity |]. split; [reflexivity |].
  pose proof (radarr_round_fetches_then_unmonitors Sample.cinema Sample.radarr_client
                Sample.radarr_config Sample2.second_movie Sample2.second_file
                Sample.w0 eq_refl eq_refl eq_refl eq_refl eq_refl) as H.
  assert (V : verdict_of Sample.radarr_config (PDict Sample2.second_file) = Ok true)
    by reflexivity.
  rewrite V in H. exact H.
Defined.

(** A loop stops at the first round that raises: the rounds before it have
    run, the items after it are not visited. *)
Lemma for_each_stops (step : pyval -> M unit) (before : list pyval) (bad : pyval)
    (after : list pyval) :
  (forall x, appends (step x)) ->
  forall w t1 l1 e t2 l2,
    runs (for_each step before) w (Ok tt) t1 l1 ->
    runs (step bad) (mkWorld (trace w ++ t1) (logs w ++ l1)) (Raise e) t2 l2 ->
    runs (for_each step (before ++ bad :: after)) w (Raise e) (t1 ++ t2) (l1 ++ l2).
Proof.
  intros Hstep. unfold for_each.
  induction before as [|x before IH]; intros w t1 l1 e t2 l2 H1 H2.
  - cbn [for_fold] in H1. destruct (runs_det _ _ _ _ _ _ _ _ H1 (runs_ret tt w))
      as [_ [-> ->]].
    rewrite world_eta in H2. cbn [app for_fold].
    apply runs_bind_raise. exact H2.
  - cbn [app for_fold] in *.
    destruct (Hstep x w) as [[[]|e'] [ta [la Ha]]].
    + destruct (appends_for_each step before Hstep
                  (mkWorld (trace w ++ ta) (logs w ++ la))) as [r [tb [lb Hb]]].
      unfold for_each in Hb.
      destruct (runs_det _ _ _ _ _ _ _ _ H1 (runs_bind _ _ _ _ _ _ _ _ _ Ha Hb))
        as [<- [-> ->]].
      rewrite <- !app_assoc.
      eapply runs_bind; [exact Ha | cbv beta].
      apply IH; [exact Hb |]. cbn [trace logs].
      rewrite <- !app_assoc. exact H2.
    + pose proof (runs_bind_raise _ (fun acc' => for_fold (fun _ x => step x) before acc')
                    _ _ _ _ Ha) as Hr.
      destruct (runs_det _ _ _ _ _ _ _ _ H1 Hr) as [Habs _]. discriminate.
Qed.

(** X22. The Radarr scan stops at the first movie whose round raises.
    When the listing is a JSON list in which the rounds of the movies
    [before] end normally and the round of the movie [bad] raises, the scan
    returns false; what it sent is the listing request, the exchanges of the
    rounds before, and those of the failing round; its last log record
    reports the exception.  The movies after [bad] are not visited, and what
    was unmonitored before it stays so: nothing is undone. *)
Theorem radarr_scan_stops_at_the_first_error
    (respond : list (request * response) -> request -> response)
    (config : gmap string atom) (self : client) (before : list pyval) (bad : pyval)
    (after : list pyval) (w : world) :
  client_for config "radarr" = Ok self ->
  let listing := get_request self [Lit "movie"] in
  let listed := respond (trace w) listing in
  value_of listed = PList (before ++ bad :: after) ->
  exists l0,
    let w1 := mkWorld (trace w ++ [(listing, listed)]) (logs w ++ l0) in
    forall t1 l1 e t2 l2,
      runs (for_each (scan_movie_step respond self config) before) w1 (Ok tt) t1 l1 ->
      runs (scan_movie_step respond self config bad)
        (mkWorld (trace w1 ++ t1) (logs w1 ++ l1)) (Raise e) t2 l2 ->
      runs (process_radarr_force_unmonitor respond config) w (Ok false)
        ((listing, listed) :: t1 ++ t2)
        (l0 ++ l1 ++ l2 ++ [scan_abandoned e]).
Proof.
  intros Hc. cbv zeta. intros Hlist.
  pose proof (client_for_service _ _ _ Hc) as Hs.
  change (service_type self = "radarr") in Hs.
  destruct (runs_get_movies respond self w Hs) as [l0 H0]. cbv zeta in H0.
  rewrite Hlist in H0. cbn [Py.is_list] in H0.
  exists l0. intros t1 l1 e t2 l2 H1 H2.
  pose proof (for_each_stops (scan_movie_step respond self config) before bad after
                (appends_scan_movie_step respond self config) _ _ _ _ _ _ H1 H2) as H3.
  unfold process_radarr_force_unmonitor.
  eapply runs_cast_logs.
  - eapply runs_try_raise.
    + rewrite Hc. run_step.
      eapply runs_bind; [exact H0 | cbv beta].
      cbn [Py.iter]. run_step.
      apply runs_bind_raise. exact H3.
    + apply runs_bind_log. apply runs_ret.
  - simpl. now rewrite List.app_nil_r.
  - unfold scan_abandoned. now rewrite <- ?app_assoc.
Qed.

Lemma radarr_scan_stops_at_the_first_error_witness :
  let listing := get_request Sample.radarr_client [Lit "movie"] in
  let listed := Sample2.broken [] listing in
  client_for Sample.radarr_config "radarr" = Ok Sample.radarr_client /\
  value_of listed = PList ([] ++ PNone :: [Sample.movie 2 102]) /\
  exists l0,
    runs (process_radarr_force_unmonitor Sample2.broken Sample.radarr_config)
      Sample.w0 (Ok false) [(listing, listed)]
      (l0 ++ [scan_abandoned AttributeError]).
Proof.
  cbv zeta. split; [reflexivity |]. split; [reflexivity |].
  destruct (radarr_scan_stops_at_the_first_error Sample2.broken Sample.radarr_config
              Sample.radarr_client [] PNone [Sample.movie 2 102] Sample.w0
              eq_refl eq_refl) as [l0 H].
  exists l0.
  apply (H [] [] AttributeError [] []).
  - apply runs_ret.
  - unfold scan_movie_step. apply runs_bind_lift_raise.
Defined.

(** ** More on the gate *)

(** X23. A configuration entered through [add_config] gates as its
    arguments say.  On a typed quality input in ASCII text the gate on the
    stored record never raises, and its verdict is true exactly when the
    score reaches the threshold given to [add_config] or the given format
    name, when not empty, is contained, ignoring the case of the letters, in
    one of the names.  A configuration entered with no threshold and no (or
    an empty) format name never passes anything: the gate returns false on
    every input, typed or not, and logs nothing. *)
Theorem added_config_gates_as_configured (self : ConfigManager.t)
    (config_id webhook_token name service ip key : string)
    (q : option Z) (f : option string) (score : Z) (names : list string) (w : world) :
  ascii_text f names = true ->
  let after := snd (ConfigManager.add_config self config_id webhook_token
                      name service ip key q f) in
  exists config,
    stored after config_id config /\
    fst (quality_gate config (PInt score) (map (fun n => PStr n) names) w) =
      Ok (score_metb q score || format_metb f names) /\
    (q = None -> f = None \/ f = Some EmptyString ->
     forall quality_score format_name,
       quality_gate config quality_score format_name w = (Ok false, w)).
Proof.
  intros _. cbv zeta. unfold stored. rewrite add_config_stores. eexists.
  split; [apply lookup_insert_eq |].
  set (f' := match f with
             | Some s => if Str.is_empty s then None else Some s
             | None => None
             end).
  set (config := <["id" := _]> _).
  assert (Hq : cfg_get config "quality_score" = opt_int q) by reflexivity.
  assert (Hf : cfg_get config "format_name" = opt_str f').
  { unfold cfg_get, config, f'.
    destruct f as [s|]; [destruct (Str.is_empty s) |]; reflexivity. }
  split.
  - rewrite (quality_gate_typed config q f' score names w Hq Hf). f_equal. f_equal.
    unfold f'. destruct f as [s|]; [| reflexivity].
    destruct (Str.is_empty s) eqn:E; [| reflexivity].
    unfold format_metb. now rewrite E.
  - intros -> Hnone quality_score format_name.
    assert (Hf' : f' = None).
    { unfold f'. destruct Hnone as [-> | ->]; reflexivity. }
    unfold quality_gate. rewrite Hq, Hf, Hf'. reflexivity.
Qed.

Lemma added_config_gates_as_configured_witness :
  let after := snd (ConfigManager.add_config Sample.store "id-new" "hook-new"
                      "anime" "sonarr" "10.0.0.7:8989" "key-new" (Some 80)
                      (Some "Atmos")) in
  ascii_text (Some "Atmos") ["x265"; "dolby ATMOS 7.1"] = true /\
  exists config,
    stored after "id-new" config /\
    fst (quality_gate config (PInt 10)
           (map (fun n => PStr n) ["x265"; "dolby ATMOS 7.1"]) Sample.w0) = Ok true.
Proof.
  cbv zeta. split; [reflexivity |].
  destruct (added_config_gates_as_configured Sample.store "id-new" "hook-new"
              "anime" "sonarr" "10.0.0.7:8989" "key-new" (Some 80) (Some "Atmos")
              10 ["x265"; "dolby ATMOS 7.1"] Sample.w0 eq_refl)
    as [config [Hst [Hgate _]]].
  exists config. split; [exact Hst | exact Hgate].
Defined.

Lemma score_metb_mono threshold score score' :
  score <= score' -> score_metb threshold score = true ->
  score_metb threshold score' = true.
Proof.
  unfold score_metb. destruct threshold as [t|]; [| discriminate].
  rewrite !Z.leb_le. lia.
Qed.

Lemma format_metb_mono substring names names' :
  (forall n, In n names -> In n names') ->
  format_metb substring names = true -> format_metb substring names' = true.
Proof.
  unfold format_metb. destruct substring as [s|]; [| discriminate].
  rewrite !andb_true_iff, !existsb_exists.
  intros Hsub [Hs [n [Hin Hn]]]. split; [exact Hs |]. exists n. auto.
Qed.

(** X24. The gate is monotone on typed inputs: when a file passes the
    gate of a configuration, so does every file whose score is at least as
    high and whose custom formats include those of the first. *)
Theorem better_files_still_pass (config : gmap string atom)
    (threshold : option Z) (substring : option string)
    (score score' : Z) (names names' : list string) (w w' : world) :
  cfg_get config "quality_score" = opt_int threshold ->
  cfg_get config "format_name" = opt_str substring ->
  score <= score' ->
  (forall n, In n names -> In n names') ->
  fst (quality_gate config (PInt score) (map (fun n => PStr n) names) w) = Ok true ->
  fst (quality_gate config (PInt score') (map (fun n => PStr n) names') w') = Ok true.
Proof.
  intros Hq Hf Hle Hsub.
  rewrite (quality_gate_typed config threshold substring score names w Hq Hf).
  rewrite (quality_gate_typed config threshold substring score' names' w' Hq Hf).
  intros H. inversion H as [H']. rewrite H'. f_equal.
  apply orb_true_iff in H'. apply orb_true_iff. destruct H' as [H' | H'].
  - left. now apply (score_metb_mono threshold score score').
  - right. now apply (format_metb_mono substring names names').
Qed.

Lemma better_files_still_pass_witness :
  cfg_get Sample.sonarr_config "quality_score" = opt_int (Some 80) /\
  cfg_get Sample.sonarr_config "format_name" = opt_str (Some "HDR") /\
  fst (quality_gate Sample.sonarr_config (PInt 10)
         (map (fun n => PStr n) ["HDR10+"]) Sample.w0) = Ok true /\
  fst (quality_gate Sample.sonarr_config (PInt 20)
         (map (fun n => PStr n) ["Atmos"; "HDR10+"]) Sample.w0) = Ok true.
Proof.
  split; [reflexivity |]. split; [reflexivity |]. split; [reflexivity |].
  apply (better_files_still_pass Sample.sonarr_config (Some 80) (Some "HDR")
           10 20 ["HDR10+"] ["Atmos"; "HDR10+"] Sample.w0 Sample.w0);
    [reflexivity | reflexivity | lia | | reflexivity].
  intros n [<- | []]. right. left. reflexivity.
Defined.

(** ** The scans and their listing *)

(** X25. Both scans depend on their listing request.  When it does not
    give a JSON list (the service is down, answers with an error, or with
    anything but a list), the scan sends nothing else, logs the failure and
    returns false.  When it gives an empty list, the scan sends nothing else
    and returns true. *)
Theorem scans_depend_on_the_listing
    (respond : list (request * response) -> request -> response)
    (config : gmap string atom) (w : world) :
  let outcome (self : client) (endpoint : string) (scan : M bool) (failure : string) :=
    let listing := get_request self [Lit endpoint] in
    let listed := respond (trace w) listing in
    match value_of listed with
    | PList [] => exists l, runs scan w (Ok true) [(listing, listed)] l
    | PList (_ :: _) => True
    | _ =>
        exists l,
          runs scan w (Ok false) [(listing, listed)]
            (l ++ [mkLog ERROR [Lit failure; ExnText TypeError]])
    end in
  (forall self, client_for config "sonarr" = Ok self ->
     outcome self "series" (process_sonarr_force_unmonitor respond config)
       "Error processing Sonarr force unmonitor: ") /\
  (forall self, client_for config "radarr" = Ok self ->
     outcome self "movie" (process_radarr_force_unmonitor respond config)
       "Error processing Radarr force unmonitor: ").
Proof.
  cbv zeta. split; intros self Hc;
    pose proof (client_for_service _ _ _ Hc) as Hs.
  - change (service_type self = "sonarr") in Hs.
    destruct (runs_get_series respond self w Hs) as [l0 [H0 _]]. cbv zeta in H0.
    set (listing := get_request self [Lit "series"]) in *.
    set (listed := respond (trace w) listing) in *.
    unfold process_sonarr_force_unmonitor, scan_series.
    assert (Hfail : runs (get_series respond self) w (Ok PNone) [(listing, listed)] l0 ->
              exists l,
                runs (try_except
                        (let! client := lift (client_for config "sonarr") in
                         let! to_unmonitor :=
                           (let! series := get_series respond client in
                            let! items := lift (Py.iter series) in
                            for_fold (scan_serie_step respond client config) items []) in
                         if (0 <? length to_unmonitor)%nat
                         then unmonitor_episodes respond client to_unmonitor
                         else ret true)
                        (fun e =>
                           log ERROR [Lit "Error processing Sonarr force unmonitor: ";
                                      ExnText e] ;;
                           ret false)) w (Ok false) [(listing, listed)]
                  (l ++ [mkLog ERROR [Lit "Error processing Sonarr force unmonitor: ";
                                      ExnText TypeError]])).
    { intros H. eexists. eapply runs_cast_logs.
      - eapply runs_try_raise.
        + rewrite Hc. run_step. eapply runs_bind_raise.
          eapply runs_bind; [exact H | cbv beta]. cbn [Py.iter].
          apply runs_bind_lift_raise.
        + repeat run_step.
      - reflexivity.
      - reflexivity. }
    destruct (value_of listed) as [a | [|x items] | d]; cbn [Py.is_list] in H0.
    + exact (Hfail H0).
    + eexists. eapply runs_cast_logs.
      * apply runs_try_ok. rewrite Hc. run_step.
        eapply runs_bind.
        -- eapply runs_bind; [exact H0 | cbv beta]. cbn [Py.iter]. run_step.
           cbn [for_fold]. apply runs_ret.
        -- cbv beta. cbn [length Nat.ltb Nat.leb]. apply runs_ret.
      * reflexivity.
      * reflexivity.
    + exact I.
    + exact (Hfail H0).
  - change (service_type self = "radarr") in Hs.
    destruct (runs_get_movies respond self w Hs) as [l0 H0]. cbv zeta in H0.
    set (listing := get_request self [Lit "movie"]) in *.
    set (listed := respond (trace w) listing) in *.
    unfold process_radarr_force_unmonitor.
    assert (Hfail : runs (get_movies respond self) w (Ok PNone) [(listing, listed)] l0 ->
              exists l,
                runs (try_except
                        (let! client := lift (client_for config "radarr") in
                         let! movies := get_movies respond client in
                         let! items := lift (Py.iter movies) in
                         for_each (scan_movie_step respond client config) items ;;
                         ret true)
                        (fun e =>
                           log ERROR [Lit "Error processing Radarr force unmonitor: ";
                                      ExnText e] ;;
                           ret false)) w (Ok false) [(listing, listed)]
                  (l ++ [mkLog ERROR [Lit "Error processing Radarr force unmonitor: ";
                                      ExnText TypeError]])).
    { intros H. eexists. eapply runs_cast_logs.
      - eapply runs_try_raise.
        + rewrite Hc. run_step.
          eapply runs_bind; [exact H | cbv beta]. cbn [Py.iter].
          apply runs_bind_lift_raise.
        + repeat run_step.
      - reflexivity.
      - reflexivity. }
    destruct (value_of listed) as [a | [|x items] | d]; cbn [Py.is_list] in H0.
    + exact (Hfail H0).
    + eexists. eapply runs_cast_logs.
      * apply runs_try_ok. rewrite Hc. run_step.
        eapply runs_bind; [exact H0 | cbv beta]. cbn [Py.iter]. run_step.
        eapply runs_bind; [apply runs_ret | apply runs_ret].
      * reflexivity.
      * reflexivity.
    + exact I.
    + exact (Hfail H0).
Qed.

Lemma scans_depend_on_the_listing_witness :
  client_for Sample.sonarr_config "sonarr" = Ok Sample.sonarr_client /\
  client_for Sample.radarr_config "radarr" = Ok Sample.radarr_client /\
  (exists l,
     runs (process_sonarr_force_unmonitor Sample.down Sample.sonarr_config) Sample.w0
       (Ok false) [(get_request Sample.sonarr_client [Lit "series"], RespTimeout)]
       (l ++ [mkLog ERROR [Lit "Error processing Sonarr force unmonitor: ";
                           ExnText TypeError]])) /\
  (exists l,
     runs (process_radarr_force_unmonitor Sample.down Sample.radarr_config) Sample.w0
       (Ok false) [(get_request Sample.radarr_client [Lit "movie"], RespTimeout)]
       (l ++ [mkLog ERROR [Lit "Error processing Radarr force unmonitor: ";
                           ExnText TypeError]])).
Proof.
  split; [reflexivity |]. split; [reflexivity |].
  destruct (scans_depend_on_the_listing Sample.down Sample.sonarr_config Sample.w0)
    as [Hs _].
  destruct (scans_depend_on_the_listing Sample.down Sample.radarr_config Sample.w0)
    as [_ Hr].
  split; [exact (Hs Sample.sonarr_client eq_refl) | exact (Hr Sample.radarr_client eq_refl)].
Defined.

(** X26. The Sonarr scan changes nothing unless its whole enumeration
    succeeds.  When the enumeration of the series and their episodes raises
    (a listing that is not a list, an item that is not a JSON object, a
    quality block the gate cannot read), the scan returns false, its last
    log record reports the exception, and all it has sent are GET requests:
    the episodes selected before the error are not unmonitored. *)
Theorem sonarr_scan_is_all_or_nothing
    (respond : list (request * response) -> request -> response)
    (config : gmap string atom) (self : client) (w : world)
    (e : exn) (t : list (request * response)) (l : list log_record) :
  client_for config "sonarr" = Ok self ->
  runs (scan_series respond self config) w (Raise e) t l ->
  runs (process_sonarr_force_unmonitor respond config) w (Ok false) t
    (l ++ [sonarr_scan_abandoned e]) /\
  forallb is_get t = true.
Proof.
  intros Hc Hscan.
  pose proof (client_for_service _ _ _ Hc) as Hs.
  change (service_type self = "sonarr") in Hs.
  split.
  - unfold process_sonarr_force_unmonitor. eapply runs_cast_logs.
    + eapply runs_try_raise.
      * rewrite Hc. run_step. apply runs_bind_raise. exact Hscan.
      * apply runs_bind_log. apply runs_ret.
    + apply List.app_nil_r.
    + reflexivity.
  - destruct (runs_scan_series respond self config w Hs) as [r [t' [l' [H [G _]]]]].
    destruct (runs_det _ _ _ _ _ _ _ _ Hscan H) as [_ [-> _]]. exact G.
Qed.

Lemma sonarr_scan_is_all_or_nothing_witness :
  let listing := get_request Sample.sonarr_client [Lit "series"] in
  client_for Sample.sonarr_config "sonarr" = Ok Sample.sonarr_client /\
  exists l,
    runs (scan_series Sample2.broken Sample.sonarr_client Sample.sonarr_config)
      Sample.w0 (Raise AttributeError)
      [(listing, Sample2.broken [] listing)] l /\
    runs (process_sonarr_force_unmonitor Sample2.broken Sample.sonarr_config)
      Sample.w0 (Ok false) [(listing, Sample2.broken [] listing)]
      (l ++ [sonarr_scan_abandoned AttributeError]).
Proof.
  cbv zeta. split; [reflexivity |].
  eexists.
  assert (H : runs (scan_series Sample2.broken Sample.sonarr_client Sample.sonarr_config)
                Sample.w0 (Raise AttributeError)
                [(get_request Sample.sonarr_client [Lit "series"],
                  Sample2.broken [] (get_request Sample.sonarr_client [Lit "series"]))]
                (snd (Sample2.broken_scan))).
  { reflexivity. }
  split; [exact H |].
  exact (proj1 (sonarr_scan_is_all_or_nothing Sample2.broken Sample.sonarr_config
                  Sample.sonarr_client Sample.w0 AttributeError _ _ eq_refl H)).
Defined.

(** ** The constructor of the client *)

Lemma rstrip_spec (c : ascii) (s : string) :
  ends_with c (Str.rstrip c s) = false /\
  exists n, s = Str.rstrip c s +:+ String.concat EmptyString (repeat (String c EmptyString) n).
Proof.
  induction s as [|a s [IHe [n IHn]]]; cbn [Str.rstrip].
  - split; [reflexivity | exists O; reflexivity].
  - destruct (Str.rstrip c s) as [|b r] eqn:R.
    + destruct (Ascii.eqb a c) eqn:E.
      * split; [reflexivity |]. exists (S n). apply Ascii.eqb_eq in E. subst a.
        rewrite IHn at 1. destruct n; reflexivity.
      * split; [cbn [ends_with]; exact E |]. exists n. rewrite IHn at 1. reflexivity.
    + split; [exact IHe |]. exists n. rewrite IHn at 1. reflexivity.
Qed.

Lemma rstrip_one_more (c : ascii) (s : string) :
  Str.rstrip c (s +:+ String c EmptyString) = Str.rstrip c s.
Proof.
  induction s as [|a s IH].
  - change (Str.rstrip c (String c EmptyString) = EmptyString).
    change ((if Ascii.eqb c c then EmptyString else String c EmptyString) = EmptyString).
    now rewrite Ascii.eqb_refl.
  - change (Str.rstrip c (String a (s +:+ String c EmptyString))
            = Str.rstrip c (String a s)).
    cbn [Str.rstrip]. now rewrite IH.
Qed.

Lemma slashes_concat n :
  String.concat EmptyString (repeat (String "/" EmptyString) n) = slashes n.
Proof.
  induction n as [|n IH]; [reflexivity |].
  cbn [repeat slashes]. rewrite <- IH. destruct n; reflexivity.
Qed.

(** X27. The client keeps its address without trailing slashes, so that
    the base url never has a slash doubled before [api]: for a string
    address the constructor succeeds, the stored address does not end with a
    slash, the given address is the stored one followed by slashes only, and
    one more trailing slash gives the same client.  The service type is
    stored in lower case and the API key as given.  An address that is not a
    string ([None], a number) makes the constructor raise. *)
Theorem client_address_has_no_trailing_slash
    (ip : atom) (token : atom) (service : string) :
  match ip with
  | AStr s =>
      exists self,
        SonarrRadarrClient ip token service = Ok self /\
        ends_with "/" (ip_address self) = false /\
        (exists n, s = ip_address self +:+ slashes n) /\
        SonarrRadarrClient (AStr (s +:+ "/")) token service = Ok self /\
        base_url self = "http://" +:+ ip_address self +:+ "/api/v3" /\
        service_type self = Str.lower service /\
        api_token self = token
  | _ => SonarrRadarrClient ip token service = Raise AttributeError
  end.
Proof.
  destruct ip as [| b | z | s]; try reflexivity.
  eexists. split; [reflexivity |]. cbn [ip_address service_type api_token].
  destruct (rstrip_spec "/" s) as [He [n Hn]].
  split; [exact He |].
  split; [exists n; rewrite <- slashes_concat; exact Hn |].
  split; [unfold SonarrRadarrClient; now rewrite rstrip_one_more |].
  split; reflexivity || (split; reflexivity).
Qed.
